(** * Asset finder of zipline: a shallow embedding of [zipline/assets/assets.py]

    The development follows the layout of the Python module:

    - Python values, exceptions and the state-and-exception monad in which the
      methods of [AssetFinder] run;
    - the SQL text the methods send to the in-memory SQLite store, with a
      lexer, a parser and an evaluator for the [select] statements used;
    - the three tables, the memoised per-sid fetches ([lru_cache]),
      [retrieve_asset], the two symbol resolvers, fuzzy lookup, futures
      chains, generic lookup and metadata ingestion;
    - the properties of these operations. *)

From Stdlib Require Import ZArith Lia Ascii String Sorted.
From stdpp Require Import gmap strings list fin_maps sorting.

Local Open Scope Z_scope.

(* ===================================================================== *)
(** ** Python values *)
(* ===================================================================== *)

(** A Python float: either not-a-number or a rational [num / den]. *)
Inductive pyfloat :=
| FNaN
| FNum (num : Z) (den : positive).

(** The values that travel through metadata dictionaries, SQL parameters and
    result rows.  [VTimestamp ns] is a [pd.Timestamp] in UTC holding [ns]
    nanoseconds since the epoch ([Timestamp.value]). *)
Inductive value :=
| VNone
| VInt (z : Z)
| VStr (s : string)
| VFloat (f : pyfloat)
| VTimestamp (ns : Z).

(** Truth value of an object, as tested by [if x:].  A [pd.Timestamp] is a
    [datetime] and is always true. *)
Definition truthy (v : value) : bool :=
  match v with
  | VNone => false
  | VInt z => negb (z =? 0)
  | VStr s => negb (String.eqb s "")
  | VFloat FNaN => true
  | VFloat (FNum n _) => negb (n =? 0)
  | VTimestamp _ => true
  end.

(** [isinstance(value, float) and np.isnan(value)] *)
Definition is_float_nan (v : value) : bool :=
  match v with
  | VFloat FNaN => true
  | _ => false
  end.

(** An identifier of a metadata entry: an integer (has [__int__]) or a
    string. *)
Inductive identifier :=
| IdInt (z : Z)
| IdStr (s : string).

Global Instance identifier_eq_dec : EqDecision identifier.
Proof. solve_decision. Defined.

Global Instance identifier_countable : Countable identifier.
Proof.
  refine (inj_countable'
            (fun i => match i with IdInt z => inl z | IdStr s => inr s end)
            (fun x => match x with inl z => IdInt z | inr s => IdStr s end) _).
  intros []; reflexivity.
Defined.

(* ===================================================================== *)
(** ** Exceptions and the monad of the methods *)
(* ===================================================================== *)

(** The exceptions of [zipline.errors] that the module imports, the local
    [NotAssetConvertible], and the built-in exceptions that the modelled
    statements can raise. *)
Inductive exn :=
| SidNotFound (sid : Z)
| SymbolNotFound (symbol : value)
| MultipleSymbolsFound (symbol : string)
| RootSymbolNotFound (root_symbol : string)
| SidAssignmentError (ident : identifier)
| InvalidAssetType (asset_type : string)
| ConsumeAssetMetaDataError
| MapAssetIdentifierIndexError
| NotAssetConvertible
| TypeError
| KeyError (key : string)
| AttributeError
| ValueError
| OperationalError (near : string)
| ProgrammingError
| InterfaceError.

Inductive result (A : Type) :=
| Ok (a : A)
| Raise (e : exn).
Arguments Ok {A} a.
Arguments Raise {A} e.

(** Pure computations that may raise. *)
Definition rbind {A B} (r : result A) (k : A -> result B) : result B :=
  match r with
  | Ok a => k a
  | Raise e => Raise e
  end.

(** Computations over a state [S] that may raise.  A raised exception keeps
    the state reached so far: Python does not roll back mutations. *)
Definition M (S A : Type) : Type := S -> result A * S.

Definition ret {S A} (a : A) : M S A := fun st => (Ok a, st).
Definition raise {S A} (e : exn) : M S A := fun st => (Raise e, st).
Definition bind {S A B} (m : M S A) (k : A -> M S B) : M S B :=
  fun st =>
    match m st with
    | (Ok a, st') => k a st'
    | (Raise e, st') => (Raise e, st')
    end.
Definition get_state {S} : M S S := fun st => (Ok st, st).
Definition modify {S} (f : S -> S) : M S unit := fun st => (Ok tt, f st).
Definition lift {S A} (r : result A) : M S A := fun st => (r, st).

(** [try: m except <handled>: h] *)
Definition try_except {S A} (m : M S A) (handled : exn -> bool)
    (h : exn -> M S A) : M S A :=
  fun st =>
    match m st with
    | (Ok a, st') => (Ok a, st')
    | (Raise e, st') => if handled e then h e st' else (Raise e, st')
    end.

Declare Scope py_scope.
Delimit Scope py_scope with py.
Notation "'let!' x ':=' m 'in' k" := (bind m (fun x => k))
  (at level 10, x pattern, m at level 100, k at level 200) : py_scope.
Notation "'do!' m 'in' k" := (bind m (fun _ => k))
  (at level 10, m at level 100, k at level 200) : py_scope.
Notation "'let?' x ':=' r 'in' k" := (rbind r (fun x => k))
  (at level 10, x pattern, r at level 100, k at level 200) : py_scope.
Local Open Scope py_scope.

(* ===================================================================== *)
(** ** Stable sorting *)
(* ===================================================================== *)

(** Both Python's [sorted] and the sorter behind [order by] are stable: of
    two elements that compare equal the one met first stays first (for
    SQLite, rows are met in rowid order).  Insertion sort has this property
    when [le x y] holds for equal elements. *)
Section Sort.
Context {A : Type} (le : A -> A -> bool).

Fixpoint insert_sorted (x : A) (l : list A) : list A :=
  match l with
  | [] => [x]
  | y :: l' => if le x y then x :: l else y :: insert_sorted x l'
  end.

Fixpoint isort (l : list A) : list A :=
  match l with
  | [] => []
  | x :: l' => insert_sorted x (isort l')
  end.
End Sort.

(* ===================================================================== *)
(** ** The SQL statements sent to the store *)
(* ===================================================================== *)

(** The methods build their queries as text.  The text is kept as the source
    writes it (string literals joined with [+]) and is run through a lexer, a
    parser and an evaluator for the fragment of SQL the module uses:
    [select c1, ..., cn from t where col op ? and ... order by col dir, ...
    limit n]. *)
Module Sql.

Inductive cmpop := OpEq | OpLe | OpGe | OpLt | OpGt.

Inductive token :=
| TWord (w : string)
| TComma
| TQMark
| TNamed (name : string)
| TCmp (o : cmpop)
| TBad (c : ascii).

Definition is_word_char (c : ascii) : bool :=
  let n := nat_of_ascii c in
  ((97 <=? n) && (n <=? 122))%nat        (* a-z *)
  || ((65 <=? n) && (n <=? 90))%nat      (* A-Z *)
  || ((48 <=? n) && (n <=? 57))%nat      (* 0-9 *)
  || (n =? 95)%nat.                      (* _ *)

Definition is_space (c : ascii) : bool :=
  let n := nat_of_ascii c in
  ((n =? 32) || (n =? 10) || (n =? 9) || (n =? 13))%nat.

(** Emit the word read so far; [named] tells that it followed a colon. *)
Definition flush (w : string) (named : bool) : list token :=
  match w with
  | EmptyString => if named then [TBad ":"%char] else []
  | _ => [if named then TNamed w else TWord w]
  end.

Fixpoint lex (s : string) (w : string) (named : bool) : list token :=
  match s with
  | EmptyString => flush w named
  | String c s' =>
      if is_word_char c then lex s' (w +:+ String c EmptyString) named
      else
        flush w named ++
        (if is_space c then lex s' EmptyString false
         else if Ascii.eqb c ","%char then TComma :: lex s' EmptyString false
         else if Ascii.eqb c "?"%char then TQMark :: lex s' EmptyString false
         else if Ascii.eqb c ":"%char then lex s' EmptyString true
         else if Ascii.eqb c "="%char
              then TCmp OpEq :: lex s' EmptyString false
         else if Ascii.eqb c "<"%char then
           match s' with
           | String "="%char s'' => TCmp OpLe :: lex s'' EmptyString false
           | _ => TCmp OpLt :: lex s' EmptyString false
           end
         else if Ascii.eqb c ">"%char then
           match s' with
           | String "="%char s'' => TCmp OpGe :: lex s'' EmptyString false
           | _ => TCmp OpGt :: lex s' EmptyString false
           end
         else TBad c :: lex s' EmptyString false)
  end.

Definition tokens (q : string) : list token := lex q EmptyString false.

(** A placeholder: [?] (bound by position) or [:name] (bound by name). *)
Inductive placeholder := PPos | PNamed (name : string).

Record cond := { c_col : string; c_op : cmpop; c_arg : placeholder }.

Inductive direction := Asc | Desc.

Record select := {
  sel_cols : list string;
  sel_table : string;
  sel_where : list cond;
  sel_order : list (string * direction);
  sel_limit : option nat
}.

(** What SQLite names in [near "...": syntax error]. *)
Definition token_text (t : token) : string :=
  match t with
  | TWord w => w
  | TComma => ","
  | TQMark => "?"
  | TNamed n => ":" +:+ n
  | TCmp OpEq => "="
  | TCmp OpLe => "<="
  | TCmp OpGe => ">="
  | TCmp OpLt => "<"
  | TCmp OpGt => ">"
  | TBad c => String c EmptyString
  end.

Definition syntax_error {A} (ts : list token) : result A :=
  match ts with
  | [] => Raise (OperationalError "incomplete input")
  | t :: _ => Raise (OperationalError (token_text t))
  end.

Definition is_keyword (w : string) : bool :=
  bool_decide (w ∈ ["select"; "from"; "where"; "and"; "order"; "by";
                    "limit"; "asc"; "desc"]).

(** [c1, c2, ..., cn] followed by the rest of the statement. *)
Fixpoint parse_cols (ts : list token) : result (list string * list token) :=
  match ts with
  | TWord c :: TComma :: ts' =>
      if is_keyword c then syntax_error ts
      else let? (cs, rest) := parse_cols ts' in Ok (c :: cs, rest)
  | TWord c :: rest =>
      if is_keyword c then syntax_error ts else Ok ([c], rest)
  | _ => syntax_error ts
  end.

Definition parse_placeholder (t : token) : option placeholder :=
  match t with
  | TQMark => Some PPos
  | TNamed n => Some (PNamed n)
  | _ => None
  end.

(** [col op ? and col op ? ...] followed by the rest of the statement. *)
Fixpoint parse_conds (ts : list token) : result (list cond * list token) :=
  match ts with
  | TWord c :: TCmp o :: a :: ts' =>
      if is_keyword c then syntax_error ts
      else
        match parse_placeholder a with
        | None => syntax_error (a :: ts')
        | Some p =>
            let cd := {| c_col := c; c_op := o; c_arg := p |} in
            match ts' with
            | TWord "and" :: ts'' =>
                let? (cs, rest) := parse_conds ts'' in Ok (cd :: cs, rest)
            | _ => Ok ([cd], ts')
            end
        end
  | TWord c :: rest => if is_keyword c then syntax_error ts
                       else syntax_error rest
  | _ => syntax_error ts
  end.

Definition parse_direction (w : string) : option direction :=
  if String.eqb w "asc" then Some Asc
  else if String.eqb w "desc" then Some Desc
  else None.

(** [col [asc|desc], ...] followed by the rest of the statement. *)
Fixpoint parse_order (ts : list token)
  : result (list (string * direction) * list token) :=
  match ts with
  | TWord c :: ts' =>
      if is_keyword c then syntax_error ts
      else
        match ts' with
        | TWord w :: ts1 =>
            match parse_direction w with
            | Some d =>
                match ts1 with
                | TComma :: ts2 =>
                    let? (os, rest) := parse_order ts2 in
                    Ok ((c, d) :: os, rest)
                | _ => Ok ([(c, d)], ts1)
                end
            | None => Ok ([(c, Asc)], ts')
            end
        | TComma :: ts2 =>
            let? (os, rest) := parse_order ts2 in Ok ((c, Asc) :: os, rest)
        | _ => Ok ([(c, Asc)], ts')
        end
  | _ => syntax_error ts
  end.

Definition digit_of (c : ascii) : option nat :=
  let n := nat_of_ascii c in
  if ((48 <=? n) && (n <=? 57))%nat then Some (n - 48)%nat else None.

Fixpoint parse_nat (s : string) (acc : nat) : option nat :=
  match s with
  | EmptyString => Some acc
  | String c s' =>
      match digit_of c with
      | Some d => parse_nat s' (10 * acc + d)%nat
      | None => None
      end
  end.

Definition parse_limit (ts : list token) : result (option nat) :=
  match ts with
  | [] => Ok None
  | [TWord "limit"; TWord n] =>
      match parse_nat n 0%nat with
      | Some k => Ok (Some k)
      | None => syntax_error [TWord n]
      end
  | TWord "limit" :: TWord _ :: t :: _ => syntax_error [t]
  | TWord "limit" :: rest => syntax_error rest
  | _ => syntax_error ts
  end.

Definition parse_tail (cols : list string) (table : string)
    (conds : list cond) (ts : list token) : result select :=
  match ts with
  | TWord "order" :: TWord "by" :: ts' =>
      let? (os, rest) := parse_order ts' in
      let? lim := parse_limit rest in
      Ok {| sel_cols := cols; sel_table := table; sel_where := conds;
            sel_order := os; sel_limit := lim |}
  | _ =>
      let? lim := parse_limit ts in
      Ok {| sel_cols := cols; sel_table := table; sel_where := conds;
            sel_order := []; sel_limit := lim |}
  end.

(** A [select] statement; SQLite reports anything else as a syntax
    error naming the first token it cannot place. *)
Definition parse (q : string) : result select :=
  match tokens q with
  | TWord "select" :: ts =>
      let? (cols, ts1) := parse_cols ts in
      match ts1 with
      | TWord "from" :: TWord table :: ts2 =>
          if is_keyword table then syntax_error (TWord table :: ts2)
          else
            match ts2 with
            | TWord "where" :: ts3 =>
                let? (conds, ts4) := parse_conds ts3 in
                parse_tail cols table conds ts4
            | _ => parse_tail cols table [] ts2
            end
      | TWord "from" :: rest => syntax_error rest
      | _ => syntax_error ts1
      end
  | ts => syntax_error ts
  end.

(** *** Evaluation *)

(** SQLite stores a not-a-number as NULL. *)
Definition is_null (v : value) : bool :=
  match v with
  | VNone | VFloat FNaN => true
  | _ => false
  end.

(** Storage classes in their sort order: NULL, numbers, text.  A Timestamp
    is not a storable type and never reaches a table. *)
Definition storage_class (v : value) : Z :=
  match v with
  | VNone | VFloat FNaN => 0
  | VInt _ | VFloat (FNum _ _) => 1
  | VStr _ => 2
  | VTimestamp _ => 3
  end.

Definition compare_values (a b : value) : comparison :=
  match a, b with
  | VInt x, VInt y => x ?= y
  | VInt x, VFloat (FNum n d) => x * Zpos d ?= n
  | VFloat (FNum n d), VInt y => n ?= y * Zpos d
  | VFloat (FNum n d), VFloat (FNum n' d') => n * Zpos d' ?= n' * Zpos d
  | VStr s, VStr t => String.compare s t
  | _, _ => storage_class a ?= storage_class b
  end.

(** A comparison in a [where] clause: unknown, hence not satisfied, as
    soon as one side is NULL. *)
Definition eval_cmp (o : cmpop) (a b : value) : bool :=
  if is_null a || is_null b then false
  else
    match o, compare_values a b with
    | OpEq, Eq => true
    | OpLe, (Lt | Eq) => true
    | OpGe, (Gt | Eq) => true
    | OpLt, Lt => true
    | OpGt, Gt => true
    | _, _ => false
    end.

(** The parameters of [cursor.execute]: a tuple or a dict. *)
Inductive params :=
| Positional (vs : list value)
| Named (kv : list (string * value)).

Definition bindable (v : value) : bool :=
  match v with
  | VTimestamp _ => false
  | _ => true
  end.

(** A condition with its placeholder replaced by the bound value. *)
Definition bound : Type := string * cmpop * value.

Fixpoint bind_positional (cs : list cond) (vs : list value)
  : result (list bound) :=
  match cs, vs with
  | [], [] => Ok []
  | c :: cs', v :: vs' =>
      match c_arg c with
      | PPos =>
          if bindable v then
            let? bs := bind_positional cs' vs' in
            Ok ((c_col c, c_op c, v) :: bs)
          else Raise InterfaceError
      | PNamed _ => Raise ProgrammingError
      end
  | _, _ => Raise ProgrammingError
  end.

Fixpoint assoc (k : string) (kv : list (string * value)) : option value :=
  match kv with
  | [] => None
  | (k', v) :: kv' => if String.eqb k k' then Some v else assoc k kv'
  end.

Fixpoint bind_named (cs : list cond) (kv : list (string * value))
  : result (list bound) :=
  match cs with
  | [] => Ok []
  | c :: cs' =>
      match c_arg c with
      | PNamed n =>
          match assoc n kv with
          | Some v =>
              if bindable v then
                let? bs := bind_named cs' kv in
                Ok ((c_col c, c_op c, v) :: bs)
              else Raise InterfaceError
          | None => Raise ProgrammingError
          end
      | PPos => Raise ProgrammingError
      end
  end.

Definition bind_params (cs : list cond) (ps : params)
  : result (list bound) :=
  match ps with
  | Positional vs => bind_positional cs vs
  | Named kv => bind_named cs kv
  end.

(** A [select] over the rows of one table; [get r c] is the value of
    column [c] in row [r]. *)
Section Select.
Context {R : Type} (get : R -> string -> value).

Definition holds (r : R) (b : bound) : bool :=
  let '(c, o, v) := b in eval_cmp o (get r c) v.

Definition satisfies (bs : list bound) (r : R) : bool :=
  forallb (holds r) bs.

(** [r1] is not after [r2] in the order of the [order by] terms; NULL
    sorts before every value, so it comes first ascending and last
    descending. *)
Fixpoint row_le (order : list (string * direction)) (r1 r2 : R) : bool :=
  match order with
  | [] => true
  | (c, d) :: order' =>
      let cmp := match d with
                 | Asc => compare_values (get r1 c) (get r2 c)
                 | Desc => compare_values (get r2 c) (get r1 c)
                 end in
      match cmp with
      | Lt => true
      | Gt => false
      | Eq => row_le order' r1 r2
      end
  end.

Definition limited (lim : option nat) (l : list R) : list R :=
  match lim with
  | Some n => take n l
  | None => l
  end.

Definition selected (sel : select) (bs : list bound) (rows : list R)
  : list R :=
  limited (sel_limit sel)
    (isort (row_le (sel_order sel)) (filter (fun r => satisfies bs r = true) rows)).

Definition project (cols : list string) (r : R) : list value :=
  map (get r) cols.

Definition run_select (sel : select) (bs : list bound) (rows : list R)
  : list (list value) :=
  map (project (sel_cols sel)) (selected sel bs rows).
End Select.

(** The columns a statement mentions. *)
Definition mentioned (sel : select) : list string :=
  sel_cols sel ++ map c_col (sel_where sel) ++ map fst (sel_order sel).

Definition check_columns (schema : list string) (sel : select)
  : result unit :=
  match filter (fun c => c ∉ schema) (mentioned sel) with
  | [] => Ok tt
  | c :: _ => Raise (OperationalError c)
  end.

(** What a cursor holds after [execute]: the column names
    ([cursor.description]) and the rows found. *)
Record cursor := {
  description : list string;
  fetched : list (list value)
}.

End Sql.

(* ===================================================================== *)
(** ** The store: three tables *)
(* ===================================================================== *)

(** Expected fields for an Asset's metadata *)
Definition ASSET_FIELDS : list string :=
  [ "sid"; "asset_type"; "symbol"; "root_symbol"; "asset_name";
    "start_date"; "end_date"; "first_traded"; "exchange"; "notice_date";
    "expiration_date"; "contract_multiplier";
    (* The following fields are for compatibility with other systems *)
    "file_name"; "company_name"; "start_date_nano"; "end_date_nano" ].

Definition ASSET_TABLE_FIELDS : list string :=
  [ "sid"; "symbol"; "asset_name"; "start_date_nano"; "end_date_nano";
    "first_traded_nano"; "exchange" ].

Definition FUTURE_TABLE_FIELDS : list string :=
  ASSET_TABLE_FIELDS ++
  [ "root_symbol"; "notice_date_nano"; "expiration_date_nano";
    "contract_multiplier" ].

Definition EQUITY_TABLE_FIELDS : list string := ASSET_TABLE_FIELDS.

(** A row of [equities].  The date columns are nullable integers. *)
Record EquityRow := {
  e_sid : Z;
  e_symbol : string;
  e_asset_name : string;
  e_start_date_nano : option Z;
  e_end_date_nano : option Z;
  e_first_traded_nano : option Z;
  e_exchange : string
}.

(** A row of [futures]. *)
Record FutureRow := {
  f_sid : Z;
  f_symbol : string;
  f_asset_name : string;
  f_start_date_nano : option Z;
  f_end_date_nano : option Z;
  f_first_traded_nano : option Z;
  f_exchange : string;
  f_root_symbol : string;
  f_notice_date_nano : option Z;
  f_expiration_date_nano : option Z;
  f_contract_multiplier : pyfloat
}.

(** A row of [asset_router]. *)
Record RouterRow := {
  r_sid : Z;
  r_asset_type : string
}.

Definition nullable (o : option Z) : value :=
  match o with
  | Some z => VInt z
  | None => VNone
  end.

Definition equity_column (r : EquityRow) (c : string) : value :=
  if String.eqb c "sid" then VInt (e_sid r)
  else if String.eqb c "symbol" then VStr (e_symbol r)
  else if String.eqb c "asset_name" then VStr (e_asset_name r)
  else if String.eqb c "start_date_nano" then nullable (e_start_date_nano r)
  else if String.eqb c "end_date_nano" then nullable (e_end_date_nano r)
  else if String.eqb c "first_traded_nano"
       then nullable (e_first_traded_nano r)
  else if String.eqb c "exchange" then VStr (e_exchange r)
  else VNone.

Definition future_column (r : FutureRow) (c : string) : value :=
  if String.eqb c "sid" then VInt (f_sid r)
  else if String.eqb c "symbol" then VStr (f_symbol r)
  else if String.eqb c "asset_name" then VStr (f_asset_name r)
  else if String.eqb c "start_date_nano" then nullable (f_start_date_nano r)
  else if String.eqb c "end_date_nano" then nullable (f_end_date_nano r)
  else if String.eqb c "first_traded_nano"
       then nullable (f_first_traded_nano r)
  else if String.eqb c "exchange" then VStr (f_exchange r)
  else if String.eqb c "root_symbol" then VStr (f_root_symbol r)
  else if String.eqb c "notice_date_nano"
       then nullable (f_notice_date_nano r)
  else if String.eqb c "expiration_date_nano"
       then nullable (f_expiration_date_nano r)
  else if String.eqb c "contract_multiplier"
       then VFloat (f_contract_multiplier r)
  else VNone.

Definition router_column (r : RouterRow) (c : string) : value :=
  if String.eqb c "sid" then VInt (r_sid r)
  else if String.eqb c "asset_type" then VStr (r_asset_type r)
  else VNone.

(** The connection [self.conn]: the tables created by [__init__], rows in
    insertion (rowid) order. *)
Record database := {
  equities : list EquityRow;
  futures : list FutureRow;
  asset_router : list RouterRow
}.

Definition empty_database : database :=
  {| equities := []; futures := []; asset_router := [] |}.

(** [c.execute(query, t)] for a [select]. *)
Definition execute (db : database) (query : string) (t : Sql.params)
  : result Sql.cursor :=
  let? sel := Sql.parse query in
  let run {R} (schema : list string) (get : R -> string -> value)
          (rows : list R) : result Sql.cursor :=
    let? _ := Sql.check_columns schema sel in
    let? bs := Sql.bind_params (Sql.sel_where sel) t in
    Ok {| Sql.description := Sql.sel_cols sel;
          Sql.fetched := Sql.run_select get sel bs rows |} in
  if String.eqb (Sql.sel_table sel) "equities"
  then run EQUITY_TABLE_FIELDS equity_column (equities db)
  else if String.eqb (Sql.sel_table sel) "futures"
  then run FUTURE_TABLE_FIELDS future_column (futures db)
  else if String.eqb (Sql.sel_table sel) "asset_router"
  then run ["sid"; "asset_type"] router_column (asset_router db)
  else Raise (OperationalError (Sql.sel_table sel)).

(** [dict_factory]: a result row as a dict from column name to value. *)
Definition dict_factory (description : list string) (row : list value)
  : gmap string value :=
  list_to_map (zip description row).

(** [c.fetchall()] and [c.fetchone()] with [c.row_factory = dict_factory]. *)
Definition fetchall_dicts (c : Sql.cursor) : list (gmap string value) :=
  map (dict_factory (Sql.description c)) (Sql.fetched c).

Definition fetchone_dict (c : Sql.cursor) : option (gmap string value) :=
  head (fetchall_dicts c).

(** [d[k]] *)
Definition getitem (d : gmap string value) (k : string) : result value :=
  match d !! k with
  | Some v => Ok v
  | None => Raise (KeyError k)
  end.

(** [", ".join(fields)] *)
Fixpoint join (sep : string) (l : list string) : string :=
  match l with
  | [] => ""
  | [x] => x
  | x :: l' => x +:+ sep +:+ join sep l'
  end.

(* ===================================================================== *)
(** ** Asset objects *)
(* ===================================================================== *)

(** Modelled from the spec: the record types [Asset], [Equity] and [Future]
    of [zipline.assets._assets], a compiled extension whose source is not
    with the module.  The fields are those of the data model: [sid],
    [symbol], [asset_name], [start_date], [end_date], [first_traded],
    [exchange], and for a future [root_symbol], [notice_date],
    [expiration_date], [contract_multiplier].  A date is a UTC Timestamp,
    kept as its nanoseconds, or absent. *)
Record AssetFields := {
  a_sid : Z;
  a_symbol : string;
  a_asset_name : string;
  a_start_date : option Z;
  a_end_date : option Z;
  a_first_traded : option Z;
  a_exchange : string
}.

Record FutureFields := {
  a_root_symbol : string;
  a_notice_date : option Z;
  a_expiration_date : option Z;
  a_contract_multiplier : pyfloat
}.

Inductive Asset :=
| Equity (a : AssetFields)
| Future (a : AssetFields) (f : FutureFields).

Definition fields (x : Asset) : AssetFields :=
  match x with
  | Equity a => a
  | Future a _ => a
  end.

Definition sid (x : Asset) : Z := a_sid (fields x).
Definition start_date (x : Asset) : option Z := a_start_date (fields x).
Definition end_date (x : Asset) : option Z := a_end_date (fields x).

(** Keyword arguments of a constructor.  A keyword that names no field is
    accepted and ignored; a missing keyword takes the default of the field;
    [sid] is required.  The fields are typed here (an integer sid, text,
    dates, a number): a keyword whose value has another type is refused with
    [TypeError]. *)
Definition kw_sid (kw : gmap string value) : result Z :=
  match kw !! "sid" with
  | Some (VInt z) => Ok z
  | _ => Raise TypeError
  end.

Definition kw_string (kw : gmap string value) (k : string) : result string :=
  match kw !! k with
  | None => Ok ""
  | Some (VStr s) => Ok s
  | Some _ => Raise TypeError
  end.

Definition kw_date (kw : gmap string value) (k : string)
  : result (option Z) :=
  match kw !! k with
  | None | Some VNone => Ok None
  | Some (VTimestamp ns) => Ok (Some ns)
  | Some _ => Raise TypeError
  end.

Definition kw_float (kw : gmap string value) (k : string) : result pyfloat :=
  match kw !! k with
  | None => Ok (FNum 1 1)
  | Some (VFloat f) => Ok f
  | Some (VInt z) => Ok (FNum z 1)
  | Some _ => Raise TypeError
  end.

Definition asset_fields_of (kw : gmap string value) : result AssetFields :=
  let? s := kw_sid kw in
  let? sym := kw_string kw "symbol" in
  let? name := kw_string kw "asset_name" in
  let? sd := kw_date kw "start_date" in
  let? ed := kw_date kw "end_date" in
  let? ft := kw_date kw "first_traded" in
  let? ex := kw_string kw "exchange" in
  Ok {| a_sid := s; a_symbol := sym; a_asset_name := name;
        a_start_date := sd; a_end_date := ed; a_first_traded := ft;
        a_exchange := ex |}.

(** The constructor [Equity] applied to the keyword arguments [kw]. *)
Definition new_Equity (kw : gmap string value) : result Asset :=
  let? a := asset_fields_of kw in Ok (Equity a).

(** The constructor [Future] applied to the keyword arguments [kw]. *)
Definition new_Future (kw : gmap string value) : result Asset :=
  let? a := asset_fields_of kw in
  let? root := kw_string kw "root_symbol" in
  let? nd := kw_date kw "notice_date" in
  let? xd := kw_date kw "expiration_date" in
  let? cm := kw_float kw "contract_multiplier" in
  Ok (Future a {| a_root_symbol := root; a_notice_date := nd;
                  a_expiration_date := xd; a_contract_multiplier := cm |}).

(** [pd.Timestamp(v, tz='UTC')].  A raw integer is a count of nanoseconds;
    a Timestamp is kept; a float is truncated to whole nanoseconds.  The
    parsing of date text is pandas' own and is not modelled: text is
    rejected here. *)
Definition pd_Timestamp (v : value) : result value :=
  match v with
  | VInt ns => Ok (VTimestamp ns)
  | VTimestamp ns => Ok (VTimestamp ns)
  | VFloat (FNum n d) => Ok (VTimestamp (Z.quot n (Zpos d)))
  | VFloat FNaN => Ok VNone
  | VNone => Ok VNone
  | VStr _ => Raise ValueError
  end.

(** [pandas.tseries.tools.normalize_date]: the midnight that starts the day
    of a UTC Timestamp. *)
Definition NANOS_PER_DAY : Z := 86400000000000.

Definition normalize_date (ns : Z) : Z := ns - ns mod NANOS_PER_DAY.

(* ===================================================================== *)
(** ** The AssetFinder *)
(* ===================================================================== *)

Record AssetFinder := {
  sym_cache : gmap string (list Asset);
  fuzzy_match : gmap (string * string * Z) (option Asset);
  allow_sid_assignment : bool;
  conn : database;
  metadata_cache : gmap identifier (gmap string value);
  (* the memo tables of the three [lru_cache(maxsize=None)] decorators *)
  asset_type_by_sid_memo : gmap Z (option string);
  equity_for_id_memo : gmap Z (option Asset);
  futures_contract_for_id_memo : gmap Z (option Asset)
}.

(** [AssetFinder(metadata=None, allow_sid_assignment=...)] *)
Definition new_AssetFinder (allow : bool) : AssetFinder :=
  {| sym_cache := ∅; fuzzy_match := ∅; allow_sid_assignment := allow;
     conn := empty_database; metadata_cache := ∅;
     asset_type_by_sid_memo := ∅; equity_for_id_memo := ∅;
     futures_contract_for_id_memo := ∅ |}.

Definition set_conn (db : database) (st : AssetFinder) : AssetFinder :=
  {| sym_cache := sym_cache st; fuzzy_match := fuzzy_match st;
     allow_sid_assignment := allow_sid_assignment st;
     conn := db; metadata_cache := metadata_cache st;
     asset_type_by_sid_memo := asset_type_by_sid_memo st;
     equity_for_id_memo := equity_for_id_memo st;
     futures_contract_for_id_memo := futures_contract_for_id_memo st |}.

Definition set_fuzzy_match (m : gmap (string * string * Z) (option Asset))
    (st : AssetFinder) : AssetFinder :=
  {| sym_cache := sym_cache st; fuzzy_match := m;
     allow_sid_assignment := allow_sid_assignment st;
     conn := conn st; metadata_cache := metadata_cache st;
     asset_type_by_sid_memo := asset_type_by_sid_memo st;
     equity_for_id_memo := equity_for_id_memo st;
     futures_contract_for_id_memo := futures_contract_for_id_memo st |}.

Definition set_metadata_cache (m : gmap identifier (gmap string value))
    (st : AssetFinder) : AssetFinder :=
  {| sym_cache := sym_cache st; fuzzy_match := fuzzy_match st;
     allow_sid_assignment := allow_sid_assignment st;
     conn := conn st; metadata_cache := m;
     asset_type_by_sid_memo := asset_type_by_sid_memo st;
     equity_for_id_memo := equity_for_id_memo st;
     futures_contract_for_id_memo := futures_contract_for_id_memo st |}.

Definition set_asset_type_by_sid_memo (m : gmap Z (option string))
    (st : AssetFinder) : AssetFinder :=
  {| sym_cache := sym_cache st; fuzzy_match := fuzzy_match st;
     allow_sid_assignment := allow_sid_assignment st;
     conn := conn st; metadata_cache := metadata_cache st;
     asset_type_by_sid_memo := m;
     equity_for_id_memo := equity_for_id_memo st;
     futures_contract_for_id_memo := futures_contract_for_id_memo st |}.

Definition set_equity_for_id_memo (m : gmap Z (option Asset))
    (st : AssetFinder) : AssetFinder :=
  {| sym_cache := sym_cache st; fuzzy_match := fuzzy_match st;
     allow_sid_assignment := allow_sid_assignment st;
     conn := conn st; metadata_cache := metadata_cache st;
     asset_type_by_sid_memo := asset_type_by_sid_memo st;
     equity_for_id_memo := m;
     futures_contract_for_id_memo := futures_contract_for_id_memo st |}.

Definition set_futures_contract_for_id_memo (m : gmap Z (option Asset))
    (st : AssetFinder) : AssetFinder :=
  {| sym_cache := sym_cache st; fuzzy_match := fuzzy_match st;
     allow_sid_assignment := allow_sid_assignment st;
     conn := conn st; metadata_cache := metadata_cache st;
     asset_type_by_sid_memo := asset_type_by_sid_memo st;
     equity_for_id_memo := equity_for_id_memo st;
     futures_contract_for_id_memo := m |}.

(** The methods. *)
Abbreviation Method := (M AssetFinder).

(** [c.execute(query, t)] on a cursor of [self.conn]. *)
Definition run_query (query : string) (t : Sql.params)
  : Method Sql.cursor :=
  fun st => (execute (conn st) query t, st).

(** [@lru_cache(maxsize=None)]: a call with an argument seen before returns
    the value returned then; a call that raises is not recorded. *)
Definition lru_cache {A} (memo : AssetFinder -> gmap Z A)
    (set_memo : gmap Z A -> AssetFinder -> AssetFinder)
    (body : Z -> Method A) (arg : Z) : Method A :=
  fun st =>
    match memo st !! arg with
    | Some v => (Ok v, st)
    | None =>
        match body arg st with
        | (Ok v, st') => (Ok v, set_memo (<[arg := v]> (memo st')) st')
        | (Raise e, st') => (Raise e, st')
        end
    end.

(** [if data[nano]: data[name] = pd.Timestamp(data[nano], tz='UTC')]
    followed by [del data[nano]]. *)
Definition restore_date (nano name : string) (data : gmap string value)
  : result (gmap string value) :=
  let? v := getitem data nano in
  let? data1 :=
    if truthy v then
      let? ts := pd_Timestamp v in Ok (<[name := ts]> data)
    else Ok data in
  Ok (delete nano data1).

Definition query_asset_type : string :=
  "select asset_type from asset_router where sid=?".

Definition query_equity_by_sid : string :=
  "select " +:+ join ", " EQUITY_TABLE_FIELDS +:+
  " from equities where sid=?".

Definition query_future_by_sid : string :=
  "select " +:+ join ", " FUTURE_TABLE_FIELDS +:+
  " from futures where sid=?".

Definition asset_type_by_sid_body (sid : Z) : Method (option string) :=
  let! c := run_query query_asset_type (Sql.Positional [VInt sid]) in
  match fetchone_dict c with
  | None => ret None
  | Some data =>
      let! v := lift (getitem data "asset_type") in
      match v with
      | VStr s => ret (Some s)
      | _ => raise TypeError
      end
  end.

Definition asset_type_by_sid : Z -> Method (option string) :=
  lru_cache asset_type_by_sid_memo set_asset_type_by_sid_memo
            asset_type_by_sid_body.

Definition equity_for_id_body (sid : Z) : Method (option Asset) :=
  let! c := run_query query_equity_by_sid (Sql.Positional [VInt sid]) in
  match fetchone_dict c with
  | None => ret None
  | Some data =>
      if bool_decide (data = ∅) then ret None
      else
        let! data := lift (restore_date "start_date_nano" "start_date" data) in
        let! data := lift (restore_date "end_date_nano" "end_date" data) in
        let! a := lift (new_Equity data) in
        ret (Some a)
  end.

Definition equity_for_id : Z -> Method (option Asset) :=
  lru_cache equity_for_id_memo set_equity_for_id_memo equity_for_id_body.

Definition futures_contract_for_id_body (contract_id : Z)
  : Method (option Asset) :=
  let! c := run_query query_future_by_sid
              (Sql.Positional [VInt contract_id]) in
  match fetchone_dict c with
  | None => ret None
  | Some data =>
      if bool_decide (data = ∅) then ret None
      else
        let! data := lift (restore_date "start_date_nano" "start_date" data) in
        let! data := lift (restore_date "end_date_nano" "end_date" data) in
        let! data :=
          lift (restore_date "notice_date_nano" "notice_date" data) in
        let! data :=
          lift (restore_date "first_traded_nano" "first_traded" data) in
        let! data :=
          lift (restore_date "expiration_date_nano" "expiration_date" data) in
        let! a := lift (new_Future data) in
        ret (Some a)
  end.

Definition futures_contract_for_id : Z -> Method (option Asset) :=
  lru_cache futures_contract_for_id_memo set_futures_contract_for_id_memo
            futures_contract_for_id_body.

(** [retrieve_asset(sid, default_none)]; [sid] may already be an Asset. *)
Definition retrieve_asset (sid : Asset + Z) (default_none : bool)
  : Method (option Asset) :=
  match sid with
  | inl a => ret (Some a)
  | inr sid =>
      let! asset_type := asset_type_by_sid sid in
      let! asset :=
        match asset_type with
        | Some "equity" => equity_for_id sid
        | Some "future" => futures_contract_for_id sid
        | _ => ret None
        end in
      match asset with
      | Some a => ret (Some a)
      | None => if default_none then ret None else raise (SidNotFound sid)
      end
  end.

(* ===================================================================== *)
(** ** Symbol resolution *)
(* ===================================================================== *)

(** Order of nullable dates with the absent date first, as SQLite sorts
    NULL. *)
Definition date_le (a b : option Z) : bool :=
  match a, b with
  | None, _ => true
  | Some _, None => false
  | Some x, Some y => x <=? y
  end.

(** [a < b] on dates that may be [None].  A [pd.Timestamp] refuses to be
    ordered against [None]: its comparison raises [TypeError].  [None]
    against [None] is left to the interpreter: Python 2 orders them (not
    less), Python 3 raises [TypeError]; [py3] tells which one runs the
    code. *)
Definition date_lt (py3 : bool) (a b : option Z) : result bool :=
  match a, b with
  | Some x, Some y => Ok (x <? y)
  | None, None => if py3 then Raise TypeError else Ok false
  | _, _ => Raise TypeError
  end.

(** [a < b] on the tuples [(x.start_date, x.end_date)]: the first position
    at which the two differ by [==], which never raises, is decided by
    [<]; equal tuples are not less. *)
Definition key_lt (py3 : bool) (a b : option Z * option Z) : result bool :=
  if bool_decide (a.1 = b.1)
  then if bool_decide (a.2 = b.2) then Ok false else date_lt py3 a.2 b.2
  else date_lt py3 a.1 b.1.

(** A stable sort with a [<] that may raise, by insertion from the right:
    it raises what the first comparison that fails raises.  Python's sort
    makes its comparisons in another order; on the keys above both raise on
    the same lists (lemmas [sort_by_mixed] and [sort_by_refused]) and
    return the same list otherwise ([sort_by_pure]). *)
Fixpoint insert_by {A} (lt : A -> A -> result bool) (x : A) (l : list A)
  : result (list A) :=
  match l with
  | [] => Ok [x]
  | y :: l' =>
      let? below := lt y x in
      if below
      then let? l'' := insert_by lt x l' in Ok (y :: l'')
      else Ok (x :: l)
  end.

Fixpoint sort_by {A} (lt : A -> A -> result bool) (l : list A)
  : result (list A) :=
  match l with
  | [] => Ok []
  | x :: l' => let? s := sort_by lt l' in insert_by lt x s
  end.

(** [sorted(l, key=key)] for a key compared by [lt]. *)
Definition sorted {A K} (lt : K -> K -> result bool) (key : A -> K)
    (l : list A) : result (list A) :=
  sort_by (fun x y => lt (key x) (key y)) l.

(** [[i for i in l if p(i)]] with a test that may raise. *)
Fixpoint filter_by {A} (p : A -> result bool) (l : list A)
  : result (list A) :=
  match l with
  | [] => Ok []
  | x :: l' =>
      let? keep := p x in
      let? l'' := filter_by p l' in
      Ok (if keep then x :: l'' else l'')
  end.

(** The test of the first comprehension of [_lookup_symbol_in_infos]; the
    tests for [None] keep a comparison from meeting an absent date. *)
Definition window_contains (as_of_date : Z) (i : Asset) : bool :=
  match start_date i with
  | None => true
  | Some s => s <=? as_of_date
  end
  &&
  match end_date i with
  | None => true
  | Some e => as_of_date <=? e
  end.

(** Search a list of symbols matching a given asset for the most recent
    known symbol as of [as_of_date].  Returns the best match and whether it
    was actually trading at [as_of_date]. *)
Definition _lookup_symbol_in_infos (py3 : bool) (infos : list Asset)
    (as_of_date : Z) : result (option Asset * bool) :=
  (* Sort entries by end_date before iterating. *)
  let? infos := sorted (date_lt py3) end_date infos in
  (* Find the newest asset that started before as_of_date. *)
  let candidates :=
    filter (fun i => window_contains as_of_date i = true) infos in
  match candidates with
  | [c] =>
      (* If one SID exists for symbol, return that symbol *)
      Ok (Some c, true)
  | [] =>
      (* If no SID exists for symbol, return SID with the
         highest-but-not-over end_date *)
      let? candidates :=
        filter_by (fun i => date_lt py3 (end_date i) (Some as_of_date))
                  infos in
      Ok (last candidates, false)
  | _ =>
      (* If multiple SIDs exist for symbol, return latest start_date with
         end_date as a tie-breaker *)
      let? best :=
        sorted (key_lt py3) (fun x => (start_date x, end_date x))
               candidates in
      Ok (last best, true)
  end.

(** The [sid] of a result row, as the argument of a per-sid fetch. *)
Definition row_sid (data : gmap string value) : Method Z :=
  let! v := lift (getitem data "sid") in
  match v with
  | VInt z => ret z
  | _ => raise TypeError
  end.

(** The four statements of [lookup_symbol_resolve_multiple], joined as the
    source joins them. *)
Definition query_exact : string :=
  "select sid from equities " +:+
  "where symbol=? " +:+
  "and start_date_nano<=? " +:+
  "and end_date_nano>=?".

Definition query_latest_end : string :=
  "select sid from equities " +:+
  "where symbol=? " +:+
  "and start_date_nano<=? " +:+
  "order by end_date_nano desc " +:+
  "limit 1".

Definition query_latest_start : string :=
  "select sid from equities " +:+
  "where symbol=? " +:+
  "and start_date_nano<=? " +:+
  "order by start_date_nano desc, end_date_nano desc" +:+
  "limit 1".

Definition query_symbol : string :=
  "select sid from equities where symbol=?".

(** Return matching Asset of name symbol in database.  [as_of_date] is a
    Timestamp or [None]. *)
Definition lookup_symbol_resolve_multiple (symbol : string)
    (as_of_date : option Z) : Method (option Asset) :=
  let as_of_date := normalize_date <$> as_of_date in
  match as_of_date with
  | Some d =>
      (* If one SID exists for symbol, return that symbol *)
      let! c := run_query query_exact
                  (Sql.Positional [VStr symbol; VInt d; VInt d]) in
      let candidates := fetchall_dicts c in
      match candidates with
      | [data] => let! s := row_sid data in equity_for_id s
      | [] =>
          (* If no SID exists for symbol, return SID with the
             highest-but-not-over end_date *)
          let! c := run_query query_latest_end
                      (Sql.Positional [VStr symbol; VInt d]) in
          match fetchone_dict c with
          | Some data =>
              if bool_decide (data = ∅)
              then raise (SymbolNotFound (VStr symbol))
              else let! s := row_sid data in equity_for_id s
          | None => raise (SymbolNotFound (VStr symbol))
          end
      | _ =>
          let! c := run_query query_latest_start
                      (Sql.Positional [VStr symbol; VInt d]) in
          match fetchone_dict c with
          | Some data =>
              if bool_decide (data = ∅)
              then raise (SymbolNotFound (VStr symbol))
              else let! s := row_sid data in equity_for_id s
          | None => raise (SymbolNotFound (VStr symbol))
          end
      end
  | None =>
      let! c := run_query query_symbol (Sql.Positional [VStr symbol]) in
      match fetchone_dict c with
      | None => raise TypeError          (* len(None) *)
      | Some data =>
          if (size data =? 1)%nat
          then let! s := row_sid data in equity_for_id s
          else if bool_decide (data = ∅)
               then raise (SymbolNotFound (VStr symbol))
               else raise (MultipleSymbolsFound symbol)
      end
  end.

(** [str.upper] on ASCII letters. *)
Definition upper_char (c : ascii) : ascii :=
  let n := nat_of_ascii c in
  if ((97 <=? n) && (n <=? 122))%nat then ascii_of_nat (n - 32) else c.

Fixpoint upper (s : string) : string :=
  match s with
  | EmptyString => EmptyString
  | String c s' => String (upper_char c) (upper s')
  end.

(** [symbol[:i] + fuzzy + symbol[i:]] *)
Definition insert_at (symbol fuzzy : string) (i : nat) : string :=
  substring 0 i symbol +:+ fuzzy +:+
  substring i (String.length symbol - i) symbol.

(** [range(len(symbol) - 1, 0, -1)] *)
Definition insertion_points (symbol : string) : list nat :=
  rev (seq 1 (String.length symbol - 1)).

(** [chain((symbol,), (symbol[:i] + fuzzy + symbol[i:] for i in ...))] *)
Definition fuzzy_symbols (symbol fuzzy : string) : list string :=
  symbol :: map (insert_at symbol fuzzy) (insertion_points symbol).

(** The [for] loop of [lookup_symbol]: the first symbol whose candidates
    hold a match that was trading, or [None] when the loop runs out; an
    exception of the in-memory resolver leaves the loop. *)
Fixpoint fuzzy_search (py3 : bool) (cache : gmap string (list Asset))
    (as_of_date : Z) (symbols : list string) : result (option Asset) :=
  match symbols with
  | [] => Ok None
  | fuzzy_symbol :: rest =>
      match cache !! fuzzy_symbol with
      | Some ((_ :: _) as infos) =>
          let? (info, date_match) :=
            _lookup_symbol_in_infos py3 infos as_of_date in
          match info, date_match with
          | Some info, true => Ok (Some info)
          | _, _ => fuzzy_search py3 cache as_of_date rest
          end
      | _ => fuzzy_search py3 cache as_of_date rest
      end
  end.

Definition is_SymbolNotFound (e : exn) : bool :=
  match e with
  | SymbolNotFound _ => true
  | _ => false
  end.

(** If a fuzzy string is provided, then we try various symbols based on the
    provided symbol.  An outcome is recorded when the loop ends, not when
    it is left by an exception. *)
Definition lookup_symbol (py3 : bool) (symbol : string) (as_of_date : Z)
    (fuzzy : option string) : Method (option Asset) :=
  let symbol := upper symbol in
  let as_of_date := normalize_date as_of_date in
  match fuzzy with
  | None | Some EmptyString =>
      try_except (lookup_symbol_resolve_multiple symbol (Some as_of_date))
                 is_SymbolNotFound (fun _ => ret None)
  | Some fuzzy =>
      fun st =>
        match fuzzy_match st !! (symbol, fuzzy, as_of_date) with
        | Some cached => (Ok cached, st)
        | None =>
            match fuzzy_search py3 (sym_cache st) as_of_date
                               (fuzzy_symbols symbol fuzzy) with
            | Ok found =>
                (Ok found,
                 set_fuzzy_match
                   (<[(symbol, fuzzy, as_of_date) := found]> (fuzzy_match st))
                   st)
            | Raise e => (Raise e, st)
            end
        end
  end.

(* ===================================================================== *)
(** ** Futures chains *)
(* ===================================================================== *)

Definition query_future_chain : string :=
  "
        select sid from futures
        where root_symbol=:root_symbol
        and expiration_date_nano >= :as_of_date
        and start_date_nano <= :knowledge_date
        order by expiration_date_nano asc
        ".

Fixpoint mapM {S A B} (f : A -> M S B) (l : list A) : M S (list B) :=
  match l with
  | [] => ret []
  | x :: l' =>
      let! y := f x in
      let! ys := mapM f l' in
      ret (y :: ys)
  end.

(** [r[0]] of a result tuple holding a sid. *)
Definition tuple_sid (r : list value) : Method Z :=
  match r with
  | VInt z :: _ => ret z
  | _ => raise TypeError
  end.

(** Return the futures chain for a given root symbol.  The two dates are
    Timestamps, passed by their [.value]. *)
Definition lookup_future_chain (root_symbol : string)
    (as_of_date knowledge_date : Z) : Method (list (option Asset)) :=
  let t := Sql.Named [("root_symbol", VStr root_symbol);
                      ("as_of_date", VInt as_of_date);
                      ("knowledge_date", VInt knowledge_date)] in
  let! c := run_query query_future_chain t in
  let! sids := mapM tuple_sid (Sql.fetched c) in
  mapM futures_contract_for_id sids.

(* ===================================================================== *)
(** ** Generic lookup *)
(* ===================================================================== *)

(** What a caller may hand to the generic lookup: an Asset, an integer, a
    string, or an object of another kind. *)
Inductive pyobject :=
| OAsset (a : Asset)
| OInt (z : Z)
| OStr (s : string)
| OOther.

(** Convert [asset_convertible] to an asset.  On success, append to
    [matches]; on failure, append to [missing].  The two lists are returned
    as the call leaves them. *)
Definition _lookup_generic_scalar (asset_convertible : pyobject)
    (as_of_date : option Z) (matches : list (option Asset))
    (missing : list pyobject)
  : Method (list (option Asset) * list pyobject) :=
  try_except
    (match asset_convertible with
     | OAsset a => ret (matches ++ [Some a], missing)
     | OInt z =>
         let! result := retrieve_asset (inr z) false in
         match result with
         | None => raise (SymbolNotFound (VInt z))
         | Some a => ret (matches ++ [Some a], missing)
         end
     | OStr s =>
         (* Throws SymbolNotFound on failure to match. *)
         let! a := lookup_symbol_resolve_multiple s as_of_date in
         ret (matches ++ [a], missing)
     | OOther => raise NotAssetConvertible
     end)
    is_SymbolNotFound
    (fun _ => ret (matches, missing ++ [asset_convertible])).

Fixpoint lookup_generic_loop (objs : list pyobject) (as_of_date : option Z)
    (matches : list (option Asset)) (missing : list pyobject)
  : Method (list (option Asset) * list pyobject) :=
  match objs with
  | [] => ret (matches, missing)
  | obj :: rest =>
      let! (matches, missing) :=
        _lookup_generic_scalar obj as_of_date matches missing in
      lookup_generic_loop rest as_of_date matches missing
  end.

(** Convert an AssetConvertible ([inl]) or an iterable of AssetConvertibles
    ([inr]) into Asset objects.  Returns the result of the conversion, one
    asset for a scalar and a list for an iterable, and the list of the
    values that could not be resolved. *)
Definition lookup_generic
    (asset_convertible_or_iterable : pyobject + list pyobject)
    (as_of_date : option Z)
  : Method ((option Asset + list (option Asset)) * list pyobject) :=
  match asset_convertible_or_iterable with
  | inl OOther => raise NotAssetConvertible   (* neither kind: iter() fails *)
  | inl x =>
      (* Interpret input as scalar. *)
      let! (matches, missing) := _lookup_generic_scalar x as_of_date [] [] in
      match matches with
      | m :: _ => ret (inl m, missing)
      | [] =>
          match x with
          | OInt z => raise (SidNotFound z)
          | OStr s => raise (SymbolNotFound (VStr s))
          | _ => raise TypeError
          end
      end
  | inr objs =>
      (* Interpret input as iterable. *)
      let! (matches, missing) := lookup_generic_loop objs as_of_date [] [] in
      ret (inr matches, missing)
  end.

(* ===================================================================== *)
(** ** Metadata ingestion *)
(* ===================================================================== *)

Abbreviation entry := (gmap string value).

Definition is_None (v : value) : bool :=
  match v with
  | VNone => true
  | _ => false
  end.

Definition is_empty_string (v : value) : bool :=
  match v with
  | VStr EmptyString => true
  | _ => false
  end.

(** The four tests of the loop over [kwargs.items()]: the field is known,
    and the value is not [None], not the empty string and not a nan. *)
Definition accepted (key : string) (v : value) : bool :=
  bool_decide (key ∈ ASSET_FIELDS)
  && negb (is_None v)
  && negb (is_empty_string v)
  && negb (is_float_nan v).

(** The loop over [kwargs.items()]; [kwargs] lists the items in the order
    the loop meets them. *)
Definition filter_fields (kwargs : list (string * value)) (e : entry)
  : entry :=
  foldl (fun e kv => if accepted kv.1 kv.2 then <[kv.1 := kv.2]> e else e)
        e kwargs.

(** Check if the sid is declared; if the identifier is not a sid, assign
    one. *)
Definition assign_sid (ident : identifier) (allow : bool) (consumed : nat)
  : M entry unit :=
  fun e =>
    match e !! "sid" with
    | Some _ => (Ok tt, e)
    | None =>
        match ident with
        | IdInt z => (Ok tt, <["sid" := VInt z]> e)
        | IdStr _ =>
            if allow
            then
              (* Assign the sid the value of its insertion order. *)
              (Ok tt, <["sid" := VInt (Z.of_nat consumed)]> e)
            else (Raise (SidAssignmentError ident), e)
        end
    end.

(** [try: entry[new] = entry.pop(old) except KeyError: pass] *)
Definition rename_field (old new : string) (e : entry) : entry :=
  match e !! old with
  | Some v => <[new := v]> (delete old e)
  | None => e
  end.

(** If the identifier coming in was a string and there is no defined symbol
    yet, set the symbol to the incoming identifier. *)
Definition default_symbol (ident : identifier) (e : entry) : entry :=
  match e !! "symbol", ident with
  | None, IdStr s => <["symbol" := VStr s]> e
  | _, _ => e
  end.

(** If the company_name is in the kwargs, it may be the asset_name. *)
Definition company_name_alias (e : entry) : entry :=
  match e !! "company_name" with
  | Some company_name =>
      let e := delete "company_name" e in
      match e !! "asset_name" with
      | Some _ => e
      | None => <["asset_name" := company_name]> e
      end
  | None => e
  end.

(** [try: entry[k] = pd.Timestamp(entry[k], tz='UTC') except KeyError: pass] *)
Definition to_timestamp (k : string) : M entry unit :=
  fun e =>
    match e !! k with
    | Some v =>
        match pd_Timestamp v with
        | Ok ts => (Ok tt, <[k := ts]> e)
        | Raise x => (Raise x, e)
        end
    | None => (Ok tt, e)
    end.

(** [entry.pop('asset_type', 'equity')] *)
Definition pop_asset_type : M entry value :=
  fun e =>
    match e !! "asset_type" with
    | Some v => (Ok v, delete "asset_type" e)
    | None => (Ok (VStr "equity"), e)
    end.

(** The statements of [insert_metadata] that work on the entry alone, up to
    the choice of the asset type. *)
Definition normalize_entry (ident : identifier) (allow : bool)
    (consumed : nat) (kwargs : list (string * value)) : M entry value :=
  do! modify (filter_fields kwargs) in
  do! assign_sid ident allow consumed in
  (* If the file_name is in the kwargs, it will be used as the symbol *)
  do! modify (rename_field "file_name" "symbol") in
  do! modify (default_symbol ident) in
  do! modify company_name_alias in
  (* If dates are given as nanos, pop them *)
  do! modify (rename_field "start_date_nano" "start_date") in
  do! modify (rename_field "end_date_nano" "end_date") in
  do! modify (rename_field "notice_date_nano" "notice_date") in
  do! modify (rename_field "expiration_date_nano" "expiration_date") in
  (* Process dates to Timestamps *)
  do! to_timestamp "start_date" in
  do! to_timestamp "end_date" in
  do! to_timestamp "notice_date" in
  do! to_timestamp "expiration_date" in
  pop_asset_type.

(** [str.lower] on ASCII letters. *)
Definition lower_char (c : ascii) : ascii :=
  let n := nat_of_ascii c in
  if ((65 <=? n) && (n <=? 90))%nat then ascii_of_nat (n + 32) else c.

Fixpoint lower (s : string) : string :=
  match s with
  | EmptyString => EmptyString
  | String c s' => String (lower_char c) (lower s')
  end.

(** The tuple bound to [INSERT INTO equities]:
    [x.value if x else None] of a date is its nanoseconds or NULL. *)
Definition equity_row_of (a : AssetFields) : EquityRow :=
  {| e_sid := a_sid a; e_symbol := a_symbol a;
     e_asset_name := a_asset_name a;
     e_start_date_nano := a_start_date a;
     e_end_date_nano := a_end_date a;
     e_first_traded_nano := a_first_traded a;
     e_exchange := a_exchange a |}.

(** The tuple bound to [INSERT INTO futures]. *)
Definition future_row_of (a : AssetFields) (f : FutureFields) : FutureRow :=
  {| f_sid := a_sid a; f_symbol := a_symbol a;
     f_asset_name := a_asset_name a;
     f_start_date_nano := a_start_date a;
     f_end_date_nano := a_end_date a;
     f_first_traded_nano := a_first_traded a;
     f_exchange := a_exchange a;
     f_root_symbol := a_root_symbol f;
     f_notice_date_nano := a_notice_date f;
     f_expiration_date_nano := a_expiration_date f;
     f_contract_multiplier := a_contract_multiplier f |}.

(** [INSERT INTO equities ...] then [INSERT INTO asset_router ...]; every
    insert appends a row. *)
Definition insert_equity (a : AssetFields) (db : database) : database :=
  {| equities := equities db ++ [equity_row_of a];
     futures := futures db;
     asset_router :=
       asset_router db ++ [{| r_sid := a_sid a; r_asset_type := "equity" |}] |}.

(** [INSERT INTO futures ...] then [INSERT INTO asset_router ...]. *)
Definition insert_future (a : AssetFields) (f : FutureFields) (db : database)
  : database :=
  {| equities := equities db;
     futures := futures db ++ [future_row_of a f];
     asset_router :=
       asset_router db ++ [{| r_sid := a_sid a; r_asset_type := "future" |}] |}.

(** Build an Asset of the appropriate type and write it to the store. *)
Definition store_asset (asset_type : value) (e : entry) (db : database)
  : result database :=
  match asset_type with
  | VStr t =>
      if String.eqb (lower t) "equity" then
        let? asset := new_Equity e in
        Ok (insert_equity (fields asset) db)
      else if String.eqb (lower t) "future" then
        let? asset := new_Future e in
        match asset with
        | Future a f => Ok (insert_future a f db)
        | Equity _ => Raise TypeError
        end
      else Raise (InvalidAssetType t)
  | _ => Raise AttributeError       (* asset_type.lower() *)
  end.

(** Inserts the given metadata kwargs to the entry for the given identifier.

    [entry = self.metadata_cache.get(identifier, {})] is the cached dict
    itself when the identifier is known, so what the statements do to
    [entry] shows in the cache even if a later statement raises. *)
Definition insert_metadata (ident : identifier)
    (kwargs : list (string * value)) : Method unit :=
  fun st =>
    let cached := metadata_cache st !! ident in
    let mutated (e : entry) (st : AssetFinder) : AssetFinder :=
      match cached with
      | Some _ => set_metadata_cache (<[ident := e]> (metadata_cache st)) st
      | None => st
      end in
    match normalize_entry ident (allow_sid_assignment st)
                          (size (metadata_cache st)) kwargs
                          (default ∅ cached) with
    | (Raise x, e) => (Raise x, mutated e st)
    | (Ok asset_type, e) =>
        match store_asset asset_type e (conn st) with
        | Raise x => (Raise x, mutated e st)
        | Ok db =>
            (Ok tt,
             set_metadata_cache (<[ident := e]> (metadata_cache st))
                                (set_conn db st))
        end
    end.

(** [_insert_metadata_dict]: one call per item, until a call raises. *)
Fixpoint _insert_metadata_dict (items : list (identifier * list (string * value)))
  : Method unit :=
  match items with
  | [] => ret tt
  | (ident, kwargs) :: rest =>
      do! insert_metadata ident kwargs in _insert_metadata_dict rest
  end.

(* ===================================================================== *)
(** ** Vocabulary of the properties *)
(* ===================================================================== *)

(** *** Rows and the objects rebuilt from them *)

(** [if data[nano]:] is false for NULL and for the integer 0, so a stored
    date of zero nanoseconds is not rebuilt. *)
Definition restored (o : option Z) : option Z :=
  match o with
  | Some 0 => None
  | _ => o
  end.

(** The Equity that the body of [equity_for_id] builds from a row. *)
Definition equity_of_row (r : EquityRow) : Asset :=
  Equity {| a_sid := e_sid r; a_symbol := e_symbol r;
            a_asset_name := e_asset_name r;
            a_start_date := restored (e_start_date_nano r);
            a_end_date := restored (e_end_date_nano r);
            a_first_traded := None;
            a_exchange := e_exchange r |}.

(** The Future that the body of [futures_contract_for_id] builds from a
    row. *)
Definition future_of_row (r : FutureRow) : Asset :=
  Future {| a_sid := f_sid r; a_symbol := f_symbol r;
            a_asset_name := f_asset_name r;
            a_start_date := restored (f_start_date_nano r);
            a_end_date := restored (f_end_date_nano r);
            a_first_traded := restored (f_first_traded_nano r);
            a_exchange := f_exchange r |}
         {| a_root_symbol := f_root_symbol r;
            a_notice_date := restored (f_notice_date_nano r);
            a_expiration_date := restored (f_expiration_date_nano r);
            a_contract_multiplier := f_contract_multiplier r |}.

(** The first row of a table with a given sid, which is what [fetchone]
    returns for [where sid=?]. *)
Definition equity_row (db : database) (s : Z) : option EquityRow :=
  head (filter (fun r => e_sid r = s) (equities db)).

Definition future_row (db : database) (s : Z) : option FutureRow :=
  head (filter (fun r => f_sid r = s) (futures db)).

(** The memo tables of the two per-sid fetches hold nothing but what the
    store would answer now. *)
Definition equity_memo_fresh (st : AssetFinder) : Prop :=
  forall s v, equity_for_id_memo st !! s = Some v ->
              v = equity_of_row <$> equity_row (conn st) s.


(** *** Validity windows of the rows of a symbol *)

Definition started_by (d : Z) (r : EquityRow) : bool :=
  match e_start_date_nano r with
  | Some s => s <=? d
  | None => false
  end.

Definition not_ended_at (d : Z) (r : EquityRow) : bool :=
  match e_end_date_nano r with
  | Some e => d <=? e
  | None => false
  end.

(** The rows that carry a symbol. *)
Definition rows_of_symbol (db : database) (symbol : string)
  : list EquityRow :=
  filter (fun r => e_symbol r = symbol) (equities db).

(** The rows of a symbol whose window [start, end] contains [d]. *)
Definition covering (db : database) (symbol : string) (d : Z)
  : list EquityRow :=
  filter (fun r => started_by d r && not_ended_at d r = true)
         (rows_of_symbol db symbol).

(** The rows of a symbol that started on or before [d]. *)
Definition started (db : database) (symbol : string) (d : Z)
  : list EquityRow :=
  filter (fun r => started_by d r = true) (rows_of_symbol db symbol).

(** *** Futures chains *)

(** The test of the [where] clause of the chain statement: the row carries
    the root symbol, expires at or after [as_of_date] and starts at or
    before [knowledge_date]. *)
Definition in_chain (root_symbol : string) (as_of_date knowledge_date : Z)
    (r : FutureRow) : Prop :=
  f_root_symbol r = root_symbol /\
  (exists x, f_expiration_date_nano r = Some x /\ as_of_date <= x) /\
  (exists s, f_start_date_nano r = Some s /\ s <= knowledge_date).

Definition in_chainb (root_symbol : string) (as_of_date knowledge_date : Z)
    (r : FutureRow) : bool :=
  String.eqb (f_root_symbol r) root_symbol
  && match f_expiration_date_nano r with
     | Some x => as_of_date <=? x
     | None => false
     end
  && match f_start_date_nano r with
     | Some s => s <=? knowledge_date
     | None => false
     end.

Definition chain_rows (db : database) (root_symbol : string)
    (as_of_date knowledge_date : Z) : list FutureRow :=
  filter (fun r => in_chainb root_symbol as_of_date knowledge_date r = true)
         (futures db).

(** Ascending by expiration. *)
Definition expires_le (r1 r2 : FutureRow) : bool :=
  date_le (f_expiration_date_nano r1) (f_expiration_date_nano r2).

(** Descending by end date. *)
Definition ends_ge (r1 r2 : EquityRow) : bool :=
  date_le (e_end_date_nano r2) (e_end_date_nano r1).

(** *** Ingestion and the router *)

(** A sequence of ingestion calls, each made on the finder the previous one
    left, whether it returned or raised. *)
Definition ingest (calls : list (identifier * list (string * value)))
    (st : AssetFinder) : AssetFinder :=
  foldl (fun st c => (insert_metadata c.1 c.2 st).2) st calls.

(** The router entries of a sid, and those of one type. *)
Definition router_entries (db : database) (s : Z) : list RouterRow :=
  filter (fun e => r_sid e = s) (asset_router db).

Definition router_entries_of_type (db : database) (s : Z) (t : string)
  : list RouterRow :=
  filter (fun e => r_sid e = s /\ r_asset_type e = t) (asset_router db).

Definition equity_rows (db : database) (s : Z) : list EquityRow :=
  filter (fun r => e_sid r = s) (equities db).

Definition future_rows (db : database) (s : Z) : list FutureRow :=
  filter (fun r => f_sid r = s) (futures db).

(** The router invariant with "exactly one entry": every sid of a table has
    a single router entry, of the type of the table. *)
Definition router_exact (db : database) : Prop :=
  (forall r, r ∈ equities db ->
     exists e, router_entries db (e_sid r) = [e] /\ r_asset_type e = "equity")
  /\
  (forall r, r ∈ futures db ->
     exists e, router_entries db (f_sid r) = [e] /\ r_asset_type e = "future").

(** What ingestion maintains: per sid, as many router entries of each type
    as the table of that type has rows, and no entry of another type. *)
Definition router_counts (db : database) : Prop :=
  (forall s, length (router_entries_of_type db s "equity") =
             length (equity_rows db s))
  /\ (forall s, length (router_entries_of_type db s "future") =
                length (future_rows db s))
  /\ Forall (fun e => r_asset_type e = "equity" \/ r_asset_type e = "future")
            (asset_router db).

(** *** Example finders *)

Definition DAY : Z := NANOS_PER_DAY.

(** Two equities that share the symbol A, with the overlapping windows
    [0, 2 days] and [1 day, 3 days]; the first one has its first trade on
    day 1. *)
Definition two_equities : AssetFinder :=
  ingest
    [ (IdInt 1, [("symbol", VStr "A"); ("start_date", VTimestamp 0);
                 ("end_date", VTimestamp (2 * DAY));
                 ("first_traded", VTimestamp DAY)]);
      (IdInt 2, [("symbol", VStr "A"); ("start_date", VTimestamp DAY);
                 ("end_date", VTimestamp (3 * DAY))]) ]
    (new_AssetFinder true).

(** Three contracts of the root ES that expire on days 10, 20 and 30. *)
Definition three_contracts : AssetFinder :=
  ingest
    [ (IdInt 11, [("asset_type", VStr "future"); ("root_symbol", VStr "ES");
                  ("symbol", VStr "ESF"); ("start_date", VInt DAY);
                  ("expiration_date", VInt (10 * DAY))]);
      (IdInt 13, [("asset_type", VStr "future"); ("root_symbol", VStr "ES");
                  ("symbol", VStr "ESH"); ("start_date", VInt DAY);
                  ("expiration_date", VInt (30 * DAY))]);
      (IdInt 12, [("asset_type", VStr "future"); ("root_symbol", VStr "ES");
                  ("symbol", VStr "ESG"); ("start_date", VInt DAY);
                  ("expiration_date", VInt (20 * DAY))]) ]
    (new_AssetFinder true).

(** The same identifier ingested twice. *)
Definition ingested_twice : AssetFinder :=
  ingest [ (IdInt 1, [("symbol", VStr "A")]);
           (IdInt 1, [("symbol", VStr "A")]) ]
         (new_AssetFinder true).

(** Keyword arguments with a zero, rejected values and an unknown field,
    and an entry that already knows a symbol and an exchange. *)
Definition sample_kwargs : list (string * value) :=
  [ ("start_date_nano", VInt 0); ("symbol", VStr ""); ("exchange", VNone);
    ("ticker", VStr "X"); ("asset_name", VFloat FNaN) ].

Definition sample_entry : gmap string value :=
  <["symbol" := VStr "XYZ"]> (<["exchange" := VStr "NYSE"]> ∅).

(** *** Fuzzy lookup *)

(** The match of one symbol against the in-memory candidates, when there is
    one and it is marked as trading; an exception of the in-memory resolver
    is the outcome for that symbol. *)
Definition trading_match (py3 : bool) (cache : gmap string (list Asset))
    (as_of_date : Z) (fuzzy_symbol : string) : result (option Asset) :=
  match cache !! fuzzy_symbol with
  | Some ((_ :: _) as infos) =>
      let? (info, date_match) :=
        _lookup_symbol_in_infos py3 infos as_of_date in
      Ok (match info, date_match with
          | Some info, true => Some info
          | _, _ => None
          end)
  | _ => Ok None
  end.

(** The first outcome, in the order of the symbols tried, that is a trading
    match or an exception; unresolved when every symbol gives no match. *)
Definition is_unresolved (o : result (option Asset)) : bool :=
  match o with
  | Ok None => true
  | _ => false
  end.

Definition first_trading (outcomes : list (result (option Asset)))
  : result (option Asset) :=
  match list_find (fun o => is_unresolved o = false) outcomes with
  | Some (_, o) => o
  | None => Ok None
  end.

(** A finder whose in-memory candidates are filed under the lower-case
    symbol [a]: one equity trading from day 0 to day 2. *)
Definition lower_case_equity : Asset :=
  Equity {| a_sid := 1; a_symbol := "a"; a_asset_name := "";
            a_start_date := Some 0; a_end_date := Some (2 * DAY);
            a_first_traded := None; a_exchange := "" |}.

Definition lower_case_finder : AssetFinder :=
  {| sym_cache := {[ "a" := [lower_case_equity] ]};
     fuzzy_match := ∅; allow_sid_assignment := true;
     conn := empty_database; metadata_cache := ∅;
     asset_type_by_sid_memo := ∅; equity_for_id_memo := ∅;
     futures_contract_for_id_memo := ∅ |}.

(** The example of the docstring: candidates filed under [CMCS_A]. *)
Definition cmcs_a : Asset :=
  Equity {| a_sid := 7; a_symbol := "CMCS_A"; a_asset_name := "";
            a_start_date := Some 0; a_end_date := Some (2 * DAY);
            a_first_traded := None; a_exchange := "" |}.

Definition cmcs_finder : AssetFinder :=
  {| sym_cache := {[ "CMCS_A" := [cmcs_a] ]};
     fuzzy_match := ∅; allow_sid_assignment := true;
     conn := empty_database; metadata_cache := ∅;
     asset_type_by_sid_memo := ∅; equity_for_id_memo := ∅;
     futures_contract_for_id_memo := ∅ |}.

(** A finder whose in-memory candidates for [F] are one equity that starts
    on day 4 and has no end date, and for [F_] one equity trading from day 0
    to day 2. *)
Definition open_end_finder : AssetFinder :=
  {| sym_cache :=
       {[ "F" := [ Equity {| a_sid := 1; a_symbol := "F"; a_asset_name := "";
                             a_start_date := Some (4 * DAY);
                             a_end_date := None;
                             a_first_traded := None; a_exchange := "" |} ];
          "F_" := [ Equity {| a_sid := 2; a_symbol := "F_";
                              a_asset_name := "";
                              a_start_date := Some 0;
                              a_end_date := Some (2 * DAY);
                              a_first_traded := None; a_exchange := "" |} ]
       ]};
     fuzzy_match := ∅; allow_sid_assignment := true;
     conn := empty_database; metadata_cache := ∅;
     asset_type_by_sid_memo := ∅; equity_for_id_memo := ∅;
     futures_contract_for_id_memo := ∅ |}.

(** *** The two resolvers side by side *)

(** What a resolver answers: an instrument, no match, or a failure of
    another kind. *)
Inductive outcome :=
| Found (s : Z)
| NoMatch
| Failed (e : exn).

(** The answer of the resolver that asks the store. *)
Definition store_outcome (st : AssetFinder) (symbol : string) (d : Z)
  : outcome :=
  match fst (lookup_symbol_resolve_multiple symbol (Some d) st) with
  | Ok (Some a) => Found (sid a)
  | Ok None => NoMatch
  | Raise (SymbolNotFound _) => NoMatch
  | Raise e => Failed e
  end.

(** The answer of the resolver that works on a list of candidates, for the
    date as it is given. *)
Definition memory_outcome (py3 : bool) (infos : list Asset) (d : Z)
  : outcome :=
  match _lookup_symbol_in_infos py3 infos d with
  | Ok (Some a, _) => Found (sid a)
  | Ok (None, _) => NoMatch
  | Raise e => Failed e
  end.

(** A candidate stands for a row: same sid, same window. *)
Definition same_window (r : EquityRow) (i : Asset) : Prop :=
  sid i = e_sid r /\ start_date i = e_start_date_nano r
  /\ end_date i = e_end_date_nano r.

(** The candidates are those of the rows of the symbol, in order. *)
Definition same_windows (rows : list EquityRow) (infos : list Asset) : Prop :=
  Forall2 same_window rows infos.

(** A window with both dates, the start not after the end. *)
Definition closed_window (r : EquityRow) : Prop :=
  exists s e, e_start_date_nano r = Some s /\ e_end_date_nano r = Some e
              /\ s <= e.

(** An equity ingested without a start date, and the candidate list that
    holds the Equity built at its ingestion. *)
Definition open_start : AssetFinder :=
  ingest [ (IdInt 1, [("symbol", VStr "A");
                      ("end_date", VTimestamp (2 * DAY))]) ]
         (new_AssetFinder true).

Definition open_start_infos : list Asset :=
  [ Equity {| a_sid := 1; a_symbol := "A"; a_asset_name := "";
              a_start_date := None; a_end_date := Some (2 * DAY);
              a_first_traded := None; a_exchange := "" |} ].

(** The candidates of the two equities of the symbol A. *)
Definition two_equities_infos : list Asset :=
  [ Equity {| a_sid := 1; a_symbol := "A"; a_asset_name := "";
              a_start_date := Some 0; a_end_date := Some (2 * DAY);
              a_first_traded := Some DAY; a_exchange := "" |};
    Equity {| a_sid := 2; a_symbol := "A"; a_asset_name := "";
              a_start_date := Some DAY; a_end_date := Some (3 * DAY);
              a_first_traded := None; a_exchange := "" |} ].

(** Two equities of the symbol B that end on the same day, and their
    candidates. *)
Definition same_end : AssetFinder :=
  ingest
    [ (IdInt 1, [("symbol", VStr "B"); ("start_date", VTimestamp 0);
                 ("end_date", VTimestamp (2 * DAY))]);
      (IdInt 2, [("symbol", VStr "B"); ("start_date", VTimestamp DAY);
                 ("end_date", VTimestamp (2 * DAY))]) ]
    (new_AssetFinder true).

Definition same_end_infos : list Asset :=
  [ Equity {| a_sid := 1; a_symbol := "B"; a_asset_name := "";
              a_start_date := Some 0; a_end_date := Some (2 * DAY);
              a_first_traded := None; a_exchange := "" |};
    Equity {| a_sid := 2; a_symbol := "B"; a_asset_name := "";
              a_start_date := Some DAY; a_end_date := Some (2 * DAY);
              a_first_traded := None; a_exchange := "" |} ].

(** Two equities of the symbol C with the disjoint windows [0, 2 days] and
    [4 days, 6 days], and their candidates. *)
Definition disjoint_windows : AssetFinder :=
  ingest
    [ (IdInt 1, [("symbol", VStr "C"); ("start_date", VTimestamp 0);
                 ("end_date", VTimestamp (2 * DAY))]);
      (IdInt 2, [("symbol", VStr "C"); ("start_date", VTimestamp (4 * DAY));
                 ("end_date", VTimestamp (6 * DAY))]) ]
    (new_AssetFinder true).

Definition disjoint_windows_infos : list Asset :=
  [ Equity {| a_sid := 1; a_symbol := "C"; a_asset_name := "";
              a_start_date := Some 0; a_end_date := Some (2 * DAY);
              a_first_traded := None; a_exchange := "" |};
    Equity {| a_sid := 2; a_symbol := "C"; a_asset_name := "";
              a_start_date := Some (4 * DAY); a_end_date := Some (6 * DAY);
              a_first_traded := None; a_exchange := "" |} ].

(** The row ended before the date. *)
Definition ended_before (d : Z) (r : EquityRow) : Prop :=
  exists e, e_end_date_nano r = Some e /\ e < d.

(** A candidate stands for a row whose window has both dates. *)
Definition closed_pair (r : EquityRow) (i : Asset) : Prop :=
  same_window r i /\ closed_window r.

(** An equity of the symbol D whose window is inverted: it starts on day 4
    and ends on day 2. *)
Definition inverted_window : AssetFinder :=
  ingest
    [ (IdInt 1, [("symbol", VStr "D"); ("start_date", VTimestamp (4 * DAY));
                 ("end_date", VTimestamp (2 * DAY))]) ]
    (new_AssetFinder true).

Definition inverted_window_infos : list Asset :=
  [ Equity {| a_sid := 1; a_symbol := "D"; a_asset_name := "";
              a_start_date := Some (4 * DAY); a_end_date := Some (2 * DAY);
              a_first_traded := None; a_exchange := "" |} ].

(** Two equities of the symbol E, the second of which starts one hour into
    the day on which the first ends, and their candidates. *)
Definition intraday_start : AssetFinder :=
  ingest
    [ (IdInt 1, [("symbol", VStr "E"); ("start_date", VTimestamp 0);
                 ("end_date", VTimestamp (2 * DAY))]);
      (IdInt 2, [("symbol", VStr "E");
                 ("start_date", VTimestamp (2 * DAY + 3600000000000));
                 ("end_date", VTimestamp (5 * DAY))]) ]
    (new_AssetFinder true).

Definition intraday_start_infos : list Asset :=
  [ Equity {| a_sid := 1; a_symbol := "E"; a_asset_name := "";
              a_start_date := Some 0; a_end_date := Some (2 * DAY);
              a_first_traded := None; a_exchange := "" |};
    Equity {| a_sid := 2; a_symbol := "E"; a_asset_name := "";
              a_start_date := Some (2 * DAY + 3600000000000);
              a_end_date := Some (5 * DAY);
              a_first_traded := None; a_exchange := "" |} ].

(** *** The dates that the in-memory resolver can compare *)

(** The sort by end date passes: there is at most one candidate, or every
    candidate has an end date, or none has one and the interpreter orders
    [None] against [None]. *)
Definition ends_sortable (py3 : bool) (infos : list Asset) : Prop :=
  (length infos <= 1)%nat
  \/ Forall (fun i => is_Some (end_date i)) infos
  \/ (py3 = false /\ Forall (fun i => end_date i = None) infos).

(** The candidates have a start date, all of them or none. *)
Definition starts_alike (l : list Asset) : Prop :=
  Forall (fun i => is_Some (start_date i)) l
  \/ Forall (fun i => start_date i = None) l.

(** The candidates whose window contains the date. *)
Definition trading_at (d : Z) (infos : list Asset) : list Asset :=
  filter (fun i => window_contains d i = true) infos.

(** [a <= b] for two dates of one kind: both present, or both absent. *)
Definition alike_le (a b : option Z) : bool :=
  match a, b with
  | Some x, Some y => x <=? y
  | None, None => true
  | _, _ => false
  end.

(** The window of [j] is not after that of [i]: an earlier start, or the
    same start and an end that is not later; dates compared are of one
    kind. *)
Definition window_le (j i : Asset) : bool :=
  if bool_decide (start_date j = start_date i)
  then alike_le (end_date j) (end_date i)
  else match start_date j, start_date i with
       | Some x, Some y => x <? y
       | _, _ => false
       end.

(** The candidate ended before the date. *)
Definition ended (d : Z) (i : Asset) : bool :=
  match end_date i with
  | Some e => e <? d
  | None => false
  end.

(** The end of [j] is not after the end of [i], both being present. *)
Definition ends_le (j i : Asset) : bool :=
  match end_date j, end_date i with
  | Some x, Some y => x <=? y
  | _, _ => false
  end.

(** A total order that extends the order of the keys
    [(start_date, end_date)] that can be compared, the absent date first;
    it serves to reason on the sorted list. *)
Definition lex_le (a b : option Z * option Z) : bool :=
  if negb (date_le b.1 a.1) then true
  else if negb (date_le a.1 b.1) then false
  else date_le a.2 b.2.

(** *** A contract ingested twice *)




(* ===================================================================== *)
(** ** The consumers of metadata *)
(* ===================================================================== *)

(** A date attribute as a Python object. *)
Definition date_value (o : option Z) : value :=
  match o with
  | Some ns => VTimestamp ns
  | None => VNone
  end.

(** Modelled from the spec: [Asset.to_dict] of [zipline.assets._assets],
    which is not with the module: the dict of the fields of the record, the
    four fields of a future included for a Future. *)
Definition to_dict (x : Asset) : list (string * value) :=
  let a := fields x in
  [ ("sid", VInt (a_sid a)); ("symbol", VStr (a_symbol a));
    ("asset_name", VStr (a_asset_name a));
    ("start_date", date_value (a_start_date a));
    ("end_date", date_value (a_end_date a));
    ("first_traded", date_value (a_first_traded a));
    ("exchange", VStr (a_exchange a)) ]
  ++ match x with
     | Equity _ => []
     | Future _ f =>
         [ ("root_symbol", VStr (a_root_symbol f));
           ("notice_date", date_value (a_notice_date f));
           ("expiration_date", date_value (a_expiration_date f));
           ("contract_multiplier", VFloat (a_contract_multiplier f)) ]
     end.

(** [identifier.__class__.__name__] *)
Definition class_name (x : Asset) : string :=
  match x with
  | Equity _ => "Equity"
  | Future _ _ => "Future"
  end.

(** Consumes the given identifiers in to the metadata cache: a full Asset
    is ingested under its sid with its fields and its class as the type,
    any other identifier without any field. *)
Fixpoint consume_identifiers (identifiers : list (Asset + identifier))
  : Method unit :=
  match identifiers with
  | [] => ret tt
  | inl x :: rest =>
      let metadata := to_dict x ++ [("asset_type", VStr (class_name x))] in
      do! insert_metadata (IdInt (sid x)) metadata in
      consume_identifiers rest
  | inr ident :: rest =>
      do! insert_metadata ident [] in
      consume_identifiers rest
  end.

(** [clear_metadata]: the cache becomes a new empty dict; the tables and the
    memo tables are not touched. *)
Definition clear_metadata : Method unit := modify (set_metadata_cache ∅).

(** [_insert_metadata_dataframe]: one call per row of [iterrows()], the
    index of the row being the identifier, until a call raises. *)
Fixpoint _insert_metadata_dataframe
    (rows : list (identifier * list (string * value))) : Method unit :=
  match rows with
  | [] => ret tt
  | (ident, row) :: rest =>
      do! insert_metadata ident row in _insert_metadata_dataframe rest
  end.

(** A cell of a row handed over by a readable: an integer or text. *)
Inductive cell :=
| CInt (z : Z)
| CStr (s : string).

Definition cell_value (c : cell) : value :=
  match c with
  | CInt z => VInt z
  | CStr s => VStr s
  end.

Definition cell_identifier (c : cell) : identifier :=
  match c with
  | CInt z => IdInt z
  | CStr s => IdStr s
  end.

(** [row_value and (row_value is not 'None')].  The second test compares
    objects, not text: it can only fail for the text [None], and then only
    if the interpreter hands out the very object of the literal, which
    [shared] tells. *)
Definition passes_placeholder_test (shared : bool) (c : cell) : bool :=
  truthy (cell_value c)
  && match c with
     | CStr "None" => negb shared
     | _ => true
     end.

(** Parse out the row of the readable object: the known fields whose value
    passes the test, in the order of [ASSET_FIELDS]. *)
Definition parse_row (shared : bool) (row : gmap string cell)
  : list (string * value) :=
  omap (fun field =>
          match row !! field with
          | Some c =>
              if passes_placeholder_test shared c
              then Some (field, cell_value c)
              else None
          | None => None
          end)
       ASSET_FIELDS.

(** Locate the identifier of a parsed row: its sid, else its symbol. *)
Definition row_identifier (shared : bool) (row : gmap string cell)
  : option identifier :=
  let kept (field : string) : option cell :=
    match row !! field with
    | Some c => if passes_placeholder_test shared c then Some c else None
    | None => None
    end in
  match kept "sid" with
  | Some c => Some (cell_identifier c)
  | None => cell_identifier <$> kept "symbol"
  end.

(** [_insert_metadata_readable] over the rows of [readable.read()]. *)
Fixpoint _insert_metadata_readable (shared : bool)
    (rows : list (gmap string cell)) : Method unit :=
  match rows with
  | [] => ret tt
  | row :: rest =>
      match row_identifier shared row with
      | Some ident =>
          do! insert_metadata ident (parse_row shared row) in
          _insert_metadata_readable shared rest
      | None => raise ConsumeAssetMetaDataError
      end
  end.

(** What [consume_metadata] may be given: a dict, a DataFrame, an object
    with a [read] method, or anything else. *)
Inductive metadata_source :=
| FromDict (items : list (identifier * list (string * value)))
| FromDataFrame (rows : list (identifier * list (string * value)))
| FromReadable (rows : list (gmap string cell))
| FromOther.

(** Consumes the provided metadata in to the metadata cache. *)
Definition consume_metadata (shared : bool) (metadata : metadata_source)
  : Method unit :=
  match metadata with
  | FromDict items => _insert_metadata_dict items
  | FromDataFrame rows => _insert_metadata_dataframe rows
  | FromReadable rows => _insert_metadata_readable shared rows
  | FromOther => raise ConsumeAssetMetaDataError
  end.

(* ===================================================================== *)
(** ** Vocabulary of the further properties *)
(* ===================================================================== *)

(** The key [(x.start_date, x.end_date)] of the last sort of the in-memory
    resolver. *)
Definition window_key (x : Asset) : option Z * option Z :=
  (start_date x, end_date x).

(** An asset as it comes back from the store: a date of zero nanoseconds is
    lost, and so is the first trade of an equity. *)
Definition as_stored (x : Asset) : Asset :=
  match x with
  | Equity a => equity_of_row (equity_row_of a)
  | Future a f => future_of_row (future_row_of a f)
  end.

(** The tables after the inserts that [insert_metadata] makes for an
    asset. *)
Definition insert_asset (x : Asset) (db : database) : database :=
  match x with
  | Equity a => insert_equity a db
  | Future a f => insert_future a f db
  end.

(** The type that the router records for an asset. *)
Definition router_type (x : Asset) : string :=
  match x with
  | Equity _ => "equity"
  | Future _ _ => "future"
  end.

(** No date of the asset is the epoch itself, and an equity carries no
    first trade. *)
Definition survives_storage (x : Asset) : Prop :=
  a_start_date (fields x) <> Some 0 /\ a_end_date (fields x) <> Some 0 /\
  match x with
  | Equity a => a_first_traded a = None
  | Future a f =>
      a_first_traded a <> Some 0 /\ a_notice_date f <> Some 0 /\
      a_expiration_date f <> Some 0
  end.

(** The store knows nothing of a sid: no row, no router entry, no memo. *)
Definition unknown_sid (st : AssetFinder) (s : Z) : Prop :=
  router_entries (conn st) s = [] /\
  equity_rows (conn st) s = [] /\ future_rows (conn st) s = [] /\
  asset_type_by_sid_memo st !! s = None /\
  equity_for_id_memo st !! s = None /\
  futures_contract_for_id_memo st !! s = None.

(** The statements of [insert_metadata] between the choice of the sid and
    the conversion of the dates: the aliases. *)
Definition aliased (ident : identifier) (e : entry) : entry :=
  rename_field "expiration_date_nano" "expiration_date"
    (rename_field "notice_date_nano" "notice_date"
       (rename_field "end_date_nano" "end_date"
          (rename_field "start_date_nano" "start_date"
             (company_name_alias
                (default_symbol ident
                   (rename_field "file_name" "symbol" e)))))).

(** The keys that a normalized entry never holds. *)
Definition alias_keys : list string :=
  [ "file_name"; "company_name"; "start_date_nano"; "end_date_nano";
    "notice_date_nano"; "expiration_date_nano"; "asset_type" ].

(** The four fields that [insert_metadata] turns into Timestamps. *)
Definition date_keys : list string :=
  [ "start_date"; "end_date"; "notice_date"; "expiration_date" ].

(** A value that [pd.Timestamp] returns. *)
Definition is_timestamp (v : value) : Prop :=
  v = VNone \/ exists ns, v = VTimestamp ns.

(** The shape of an entry that a successful call leaves in the cache. *)
Definition normalized (e : entry) : Prop :=
  is_Some (e !! "sid")
  /\ (forall k, k ∈ alias_keys -> e !! k = None)
  /\ (forall k v, k ∈ date_keys -> e !! k = Some v -> is_timestamp v).

(** The asset that [insert_metadata] builds from a normalized entry and the
    type popped from it, as [store_asset] does before its inserts. *)
Definition build_asset (asset_type : value) (e : entry) : result Asset :=
  match asset_type with
  | VStr t =>
      if String.eqb (lower t) "equity" then new_Equity e
      else if String.eqb (lower t) "future" then new_Future e
      else Raise (InvalidAssetType t)
  | _ => Raise AttributeError
  end.

(** A finder on which sid 5 was asked for before anything was ingested. *)
Definition asked_too_early : AssetFinder :=
  (retrieve_asset (inr 5) true (new_AssetFinder true)).2.

(** A normalized entry filed under its identifier: a string identifier has
    given it a symbol if it had none. *)
Definition settled (ident : identifier) (e : entry) : Prop :=
  normalized e
  /\ match ident with
     | IdStr _ => is_Some (e !! "symbol")
     | IdInt _ => True
     end.

(** The sid that [insert_metadata] settles on: the one of the entry after
    the field filter, else the identifier if it is an integer, else the
    number of identifiers in the cache. *)
Definition resolved_sid (ident : identifier) (consumed : nat) (e : entry)
  : value :=
  match e !! "sid" with
  | Some v => v
  | None =>
      match ident with
      | IdInt z => VInt z
      | IdStr _ => VInt (Z.of_nat consumed)
      end
  end.

(** The asset built for an identifier that comes without any field, when the
    cache holds [consumed] identifiers: an integer is the sid; a string is
    the symbol, and the sid is the number of identifiers consumed so far. *)
Definition bare_asset (ident : identifier) (consumed : nat) : AssetFields :=
  {| a_sid := match ident with
              | IdInt z => z
              | IdStr _ => Z.of_nat consumed
              end;
     a_symbol := match ident with
                 | IdInt _ => ""
                 | IdStr s => s
                 end;
     a_asset_name := ""; a_start_date := None; a_end_date := None;
     a_first_traded := None; a_exchange := "" |}.

(** The entry filed for such an identifier. *)
Definition bare_entry (ident : identifier) (consumed : nat) : entry :=
  default_symbol ident
    {[ "sid" := match ident with
                | IdInt z => VInt z
                | IdStr _ => VInt (Z.of_nat consumed)
                end ]}.

(** The cell of a row that passes the test of [_insert_metadata_readable]. *)
Definition kept_cell (shared : bool) (row : gmap string cell)
    (field : string) : option cell :=
  match row !! field with
  | Some c => if passes_placeholder_test shared c then Some c else None
  | None => None
  end.

(** The object is text. *)
Definition is_text (o : pyobject) : Prop :=
  match o with
  | OStr _ => True
  | _ => False
  end.

(** The stable sort by end date, the absent date first. *)
Definition by_end (infos : list Asset) : list Asset :=
  isort (fun a b => date_le (end_date a) (end_date b)) infos.

(** Two candidates have the date [p], both of them or neither. *)
Definition alike (p : Asset -> option Z) (x y : Asset) : Prop :=
  is_Some (p x) <-> is_Some (p y).

(** The stable sort by start date, then end date. *)
Definition by_window (l : list Asset) : list Asset :=
  isort (fun a b => lex_le (window_key a) (window_key b)) l.

(** Candidate lists on which a comparison of dates is refused. *)
Definition open_end_late_infos : list Asset :=
  [ Equity {| a_sid := 1; a_symbol := "G"; a_asset_name := "";
              a_start_date := Some (4 * DAY); a_end_date := None;
              a_first_traded := None; a_exchange := "" |} ].

Definition mixed_ends_infos : list Asset :=
  [ Equity {| a_sid := 1; a_symbol := "G"; a_asset_name := "";
              a_start_date := Some 0; a_end_date := Some (2 * DAY);
              a_first_traded := None; a_exchange := "" |};
    Equity {| a_sid := 2; a_symbol := "G"; a_asset_name := "";
              a_start_date := Some 0; a_end_date := None;
              a_first_traded := None; a_exchange := "" |} ].

Definition mixed_starts_infos : list Asset :=
  [ Equity {| a_sid := 1; a_symbol := "G"; a_asset_name := "";
              a_start_date := None; a_end_date := Some (2 * DAY);
              a_first_traded := None; a_exchange := "" |};
    Equity {| a_sid := 2; a_symbol := "G"; a_asset_name := "";
              a_start_date := Some 0; a_end_date := Some (3 * DAY);
              a_first_traded := None; a_exchange := "" |} ].

Definition no_ends_infos : list Asset :=
  [ Equity {| a_sid := 1; a_symbol := "G"; a_asset_name := "";
              a_start_date := Some 0; a_end_date := None;
              a_first_traded := None; a_exchange := "" |};
    Equity {| a_sid := 2; a_symbol := "G"; a_asset_name := "";
              a_start_date := Some DAY; a_end_date := None;
              a_first_traded := None; a_exchange := "" |} ].

(* ===================================================================== *)
(** ** Properties of the stable sort *)
(* ===================================================================== *)

Section SortFacts.
Context {A : Type} (le : A -> A -> bool).

Lemma insert_sorted_perm x l : insert_sorted le x l ≡ₚ x :: l.
Proof.
  induction l as [|y l IH]; simpl; [done|].
  destruct (le x y); [done|].
  rewrite IH. apply Permutation_swap.
Qed.

Lemma isort_perm l : isort le l ≡ₚ l.
Proof.
  induction l as [|x l IH]; simpl; [done|].
  by rewrite insert_sorted_perm, IH.
Qed.

Lemma isort_elem_of x l : x ∈ isort le l <-> x ∈ l.
Proof. by rewrite isort_perm. Qed.

Lemma isort_length l : length (isort le l) = length l.
Proof. by rewrite isort_perm. Qed.

Hypothesis le_total : forall x y, le x y = true \/ le y x = true.
Hypothesis le_trans : forall x y z,
    le x y = true -> le y z = true -> le x z = true.

Lemma insert_sorted_sorted x l :
  StronglySorted (fun a b => le a b = true) l ->
  StronglySorted (fun a b => le a b = true) (insert_sorted le x l).
Proof.
  induction 1 as [|y l Hs IH Hy]; simpl.
  - repeat constructor.
  - destruct (le x y) eqn:E.
    + constructor; [by constructor|].
      constructor; [done|].
      eapply Forall_impl; [exact Hy|]. intros z Hz. eauto.
    + constructor; [done|].
      rewrite insert_sorted_perm. constructor; [|done].
      destruct (le_total x y); congruence.
Qed.

Lemma isort_sorted l :
  StronglySorted (fun a b => le a b = true) (isort le l).
Proof.
  induction l; simpl; [constructor|]. by apply insert_sorted_sorted.
Qed.

(** The head of a sorted list is below every element. *)
Lemma isort_head_least l x :
  head (isort le l) = Some x ->
  x ∈ l /\ forall y, y ∈ l -> le x y = true.
Proof.
  intros Hh. pose proof (isort_sorted l) as Hs.
  destruct (isort le l) as [|z l'] eqn:E; [done|].
  simpl in Hh. injection Hh as ->.
  split.
  - apply isort_elem_of. rewrite E. left.
  - intros y Hy. apply isort_elem_of in Hy. rewrite E in Hy.
    apply StronglySorted_inv in Hs as [_ Hall].
    apply elem_of_cons in Hy as [->|Hy].
    + destruct (le_total x x); done.
    + rewrite Forall_forall in Hall. by apply Hall.
Qed.
End SortFacts.

(** Sorting with a comparison that agrees everywhere gives the same list. *)
Lemma isort_ext {A} (le1 le2 : A -> A -> bool) l :
  (forall x y, le1 x y = le2 x y) -> isort le1 l = isort le2 l.
Proof.
  intros H. induction l as [|x l IH]; simpl; [done|].
  rewrite IH. generalize (isort le2 l). intros l'.
  induction l' as [|y l' IH']; simpl; [done|].
  by rewrite H, IH'.
Qed.

(** Without an order the rows stay as they are. *)
Lemma isort_trivial {A} (l : list A) : isort (fun _ _ => true) l = l.
Proof. induction l as [|x l IH]; simpl; [done|]. rewrite IH. by destruct l. Qed.

(** The last element of a sorted list is above every element. *)
Lemma sorted_last_greatest {A} (le : A -> A -> bool) l x :
  (forall a, le a a = true) ->
  StronglySorted (fun a b => le a b = true) l ->
  last l = Some x ->
  forall y, y ∈ l -> le y x = true.
Proof.
  intros Hrefl Hs. revert x.
  induction Hs as [|z l Hs IH Hz]; intros x Hl y Hy; [by inversion Hy|].
  destruct l as [|w l].
  - simpl in Hl. injection Hl as ->. apply list_elem_of_singleton in Hy as ->.
    apply Hrefl.
  - change (last (z :: w :: l)) with (last (w :: l)) in Hl.
    apply elem_of_cons in Hy as [->|Hy].
    + rewrite Forall_forall in Hz. apply Hz.
      apply last_Some in Hl as [l' ->]. set_solver.
    + by apply IH.
Qed.

(** A sorted list stays sorted when elements are filtered out. *)
Lemma sorted_filter {A} (R : A -> A -> Prop) (P : A -> Prop)
    `{forall x, Decision (P x)} l :
  StronglySorted R l -> StronglySorted R (filter P l).
Proof.
  induction 1 as [|x l Hs IH Hx]; [constructor|].
  rewrite filter_cons. destruct (decide (P x)); [|done].
  constructor; [done|].
  rewrite Forall_forall in Hx |- *. intros y Hy.
  apply list_elem_of_filter in Hy as [_ Hy]. by apply Hx.
Qed.

(* ===================================================================== *)
(** ** What the statements of the module select *)
(* ===================================================================== *)

(** The text of each working statement parses to the expected [select]. *)
Lemma parse_query_exact :
  Sql.parse query_exact =
  Ok {| Sql.sel_cols := ["sid"]; Sql.sel_table := "equities";
        Sql.sel_where :=
          [ {| Sql.c_col := "symbol"; Sql.c_op := Sql.OpEq;
               Sql.c_arg := Sql.PPos |};
            {| Sql.c_col := "start_date_nano"; Sql.c_op := Sql.OpLe;
               Sql.c_arg := Sql.PPos |};
            {| Sql.c_col := "end_date_nano"; Sql.c_op := Sql.OpGe;
               Sql.c_arg := Sql.PPos |} ];
        Sql.sel_order := []; Sql.sel_limit := None |}.
Proof. vm_compute. reflexivity. Qed.

Lemma parse_query_latest_end :
  Sql.parse query_latest_end =
  Ok {| Sql.sel_cols := ["sid"]; Sql.sel_table := "equities";
        Sql.sel_where :=
          [ {| Sql.c_col := "symbol"; Sql.c_op := Sql.OpEq;
               Sql.c_arg := Sql.PPos |};
            {| Sql.c_col := "start_date_nano"; Sql.c_op := Sql.OpLe;
               Sql.c_arg := Sql.PPos |} ];
        Sql.sel_order := [("end_date_nano", Sql.Desc)];
        Sql.sel_limit := Some 1%nat |}.
Proof. vm_compute. reflexivity. Qed.

(** The third statement lacks a blank between [desc] and [limit]: SQLite
    reads the word [desclimit] and rejects the statement. *)
Lemma parse_query_latest_start :
  Sql.parse query_latest_start = Raise (OperationalError "desclimit").
Proof. vm_compute. reflexivity. Qed.

Lemma parse_query_symbol :
  Sql.parse query_symbol =
  Ok {| Sql.sel_cols := ["sid"]; Sql.sel_table := "equities";
        Sql.sel_where :=
          [ {| Sql.c_col := "symbol"; Sql.c_op := Sql.OpEq;
               Sql.c_arg := Sql.PPos |} ];
        Sql.sel_order := []; Sql.sel_limit := None |}.
Proof. vm_compute. reflexivity. Qed.

Lemma parse_query_future_chain :
  Sql.parse query_future_chain =
  Ok {| Sql.sel_cols := ["sid"]; Sql.sel_table := "futures";
        Sql.sel_where :=
          [ {| Sql.c_col := "root_symbol"; Sql.c_op := Sql.OpEq;
               Sql.c_arg := Sql.PNamed "root_symbol" |};
            {| Sql.c_col := "expiration_date_nano"; Sql.c_op := Sql.OpGe;
               Sql.c_arg := Sql.PNamed "as_of_date" |};
            {| Sql.c_col := "start_date_nano"; Sql.c_op := Sql.OpLe;
               Sql.c_arg := Sql.PNamed "knowledge_date" |} ];
        Sql.sel_order := [("expiration_date_nano", Sql.Asc)];
        Sql.sel_limit := None |}.
Proof. vm_compute. reflexivity. Qed.

(** Comparisons of a [where] clause on the columns of the tables. *)
Lemma string_compare_refl s : String.compare s s = Eq.
Proof.
  pose proof (String.compare_antisym s s) as H.
  destruct (String.compare s s); simpl in H; congruence.
Qed.

Lemma eval_cmp_text_eq a b :
  Sql.eval_cmp Sql.OpEq (VStr a) (VStr b) = true <-> a = b.
Proof.
  unfold Sql.eval_cmp. simpl.
  destruct (String.compare a b) eqn:E.
  - apply String.compare_eq_iff in E. done.
  - split; [done|]. intros ->. rewrite string_compare_refl in E. done.
  - split; [done|]. intros ->. rewrite string_compare_refl in E. done.
Qed.

Lemma eval_cmp_int_eq a b :
  Sql.eval_cmp Sql.OpEq (VInt a) (VInt b) = true <-> a = b.
Proof.
  unfold Sql.eval_cmp. simpl. destruct (Z.compare_spec a b); split; try done; lia.
Qed.

Lemma eval_cmp_date_le o d :
  Sql.eval_cmp Sql.OpLe (nullable o) (VInt d) =
  match o with Some s => s <=? d | None => false end.
Proof.
  destruct o as [s|]; [|done]. unfold Sql.eval_cmp. simpl.
  destruct (Z.compare_spec s d), (Z.leb_spec s d); done || lia.
Qed.

Lemma eval_cmp_date_ge o d :
  Sql.eval_cmp Sql.OpGe (nullable o) (VInt d) =
  match o with Some e => d <=? e | None => false end.
Proof.
  destruct o as [e|]; [|done]. unfold Sql.eval_cmp. simpl.
  destruct (Z.compare_spec e d), (Z.leb_spec d e); done || lia.
Qed.

(** [order by end_date_nano desc]: a row with a later end comes first, a
    row without an end last. *)
Lemma row_le_end_desc r1 r2 :
  Sql.row_le equity_column [("end_date_nano", Sql.Desc)] r1 r2 =
  date_le (e_end_date_nano r2) (e_end_date_nano r1).
Proof.
  simpl. change (equity_column r1 "end_date_nano")
    with (nullable (e_end_date_nano r1)).
  change (equity_column r2 "end_date_nano")
    with (nullable (e_end_date_nano r2)).
  destruct (e_end_date_nano r1) as [a|], (e_end_date_nano r2) as [b|];
    simpl; done.
Qed.

Lemma date_le_total a b : date_le a b = true \/ date_le b a = true.
Proof. destruct a, b; simpl; auto. lia. Qed.

Lemma date_le_trans a b c :
  date_le a b = true -> date_le b c = true -> date_le a c = true.
Proof. destruct a, b, c; simpl; try done. lia. Qed.

Lemma date_le_refl a : date_le a a = true.
Proof. destruct a; simpl; [lia|done]. Qed.

(** How [execute] runs a statement that parses, table by table. *)
Lemma execute_equities db query t sel bs :
  Sql.parse query = Ok sel ->
  Sql.sel_table sel = "equities" ->
  Sql.check_columns EQUITY_TABLE_FIELDS sel = Ok tt ->
  Sql.bind_params (Sql.sel_where sel) t = Ok bs ->
  execute db query t =
  Ok {| Sql.description := Sql.sel_cols sel;
        Sql.fetched := Sql.run_select equity_column sel bs (equities db) |}.
Proof.
  intros Hp Ht Hc Hb. unfold execute. rewrite Hp. cbn [rbind].
  rewrite Ht. cbn [String.eqb Ascii.eqb Bool.eqb]. rewrite Hc, Hb. done.
Qed.

Lemma execute_futures db query t sel bs :
  Sql.parse query = Ok sel ->
  Sql.sel_table sel = "futures" ->
  Sql.check_columns FUTURE_TABLE_FIELDS sel = Ok tt ->
  Sql.bind_params (Sql.sel_where sel) t = Ok bs ->
  execute db query t =
  Ok {| Sql.description := Sql.sel_cols sel;
        Sql.fetched := Sql.run_select future_column sel bs (futures db) |}.
Proof.
  intros Hp Ht Hc Hb. unfold execute. rewrite Hp. cbn [rbind].
  rewrite Ht. cbn [String.eqb Ascii.eqb Bool.eqb]. rewrite Hc, Hb. done.
Qed.

Ltac sql_unfold :=
  unfold Sql.run_select, Sql.selected, Sql.satisfies, Sql.project;
  cbn [Sql.sel_cols Sql.sel_order Sql.sel_limit Sql.limited Sql.row_le
       Sql.c_col Sql.c_op Sql.holds forallb map].

Ltac equity_columns r :=
  change (equity_column r "sid") with (VInt (e_sid r));
  change (equity_column r "symbol") with (VStr (e_symbol r));
  change (equity_column r "start_date_nano")
    with (nullable (e_start_date_nano r));
  change (equity_column r "end_date_nano")
    with (nullable (e_end_date_nano r)).

Ltac future_columns r :=
  change (future_column r "sid") with (VInt (f_sid r));
  change (future_column r "root_symbol") with (VStr (f_root_symbol r));
  change (future_column r "start_date_nano")
    with (nullable (f_start_date_nano r));
  change (future_column r "expiration_date_nano")
    with (nullable (f_expiration_date_nano r)).

(** The first statement selects the rows of the symbol whose window
    contains the date. *)
Lemma execute_query_exact db symbol d :
  execute db query_exact (Sql.Positional [VStr symbol; VInt d; VInt d]) =
  Ok {| Sql.description := ["sid"];
        Sql.fetched := map (fun r => [VInt (e_sid r)]) (covering db symbol d) |}.
Proof.
  erewrite execute_equities;
    [|apply parse_query_exact|done|by vm_compute|done].
  sql_unfold. do 2 f_equal.
  rewrite isort_trivial. unfold covering, rows_of_symbol.
  rewrite list_filter_filter. f_equal.
  apply list_filter_iff. intros r. equity_columns r.
  rewrite eval_cmp_date_le, eval_cmp_date_ge.
  unfold started_by, not_ended_at.
  rewrite !andb_true_iff, eval_cmp_text_eq. tauto.
Qed.

(** The second statement selects, among the rows of the symbol that started
    on or before the date, the first one in descending order of end date. *)
Lemma execute_query_latest_end db symbol d :
  execute db query_latest_end (Sql.Positional [VStr symbol; VInt d]) =
  Ok {| Sql.description := ["sid"];
        Sql.fetched :=
          map (fun r => [VInt (e_sid r)])
              (take 1 (isort ends_ge (started db symbol d))) |}.
Proof.
  erewrite execute_equities;
    [|apply parse_query_latest_end|done|by vm_compute|done].
  sql_unfold. rewrite (isort_ext _ ends_ge) by apply row_le_end_desc.
  match goal with
  | |- context [isort ends_ge ?l] =>
      replace l with (started db symbol d); [done|]
  end.
  unfold started, rows_of_symbol.
  rewrite list_filter_filter.
  apply list_filter_iff. intros r. equity_columns r.
  rewrite eval_cmp_date_le. unfold started_by.
  rewrite !andb_true_iff, eval_cmp_text_eq. tauto.
Qed.

(** The statement of the branch without a date selects the rows of the
    symbol. *)
Lemma execute_query_symbol db symbol :
  execute db query_symbol (Sql.Positional [VStr symbol]) =
  Ok {| Sql.description := ["sid"];
        Sql.fetched :=
          map (fun r => [VInt (e_sid r)]) (rows_of_symbol db symbol) |}.
Proof.
  erewrite execute_equities;
    [|apply parse_query_symbol|done|by vm_compute|done].
  sql_unfold. do 2 f_equal.
  rewrite isort_trivial. unfold rows_of_symbol. f_equal.
  apply list_filter_iff. intros r. equity_columns r.
  rewrite !andb_true_iff, eval_cmp_text_eq. tauto.
Qed.

Lemma row_le_expiration_asc r1 r2 :
  Sql.row_le future_column [("expiration_date_nano", Sql.Asc)] r1 r2 =
  expires_le r1 r2.
Proof.
  unfold expires_le. cbn [Sql.row_le]. future_columns r1. future_columns r2.
  destruct (f_expiration_date_nano r1) as [a|],
           (f_expiration_date_nano r2) as [b|]; simpl; done.
Qed.

(** The chain statement selects the rows that pass [in_chainb], in
    ascending order of expiration. *)
Lemma execute_query_future_chain db root_symbol as_of_date knowledge_date :
  execute db query_future_chain
          (Sql.Named [("root_symbol", VStr root_symbol);
                      ("as_of_date", VInt as_of_date);
                      ("knowledge_date", VInt knowledge_date)]) =
  Ok {| Sql.description := ["sid"];
        Sql.fetched :=
          map (fun r => [VInt (f_sid r)])
              (isort expires_le
                 (chain_rows db root_symbol as_of_date knowledge_date)) |}.
Proof.
  erewrite execute_futures;
    [|apply parse_query_future_chain|done|by vm_compute|done].
  sql_unfold.
  rewrite (isort_ext _ expires_le) by apply row_le_expiration_asc.
  match goal with
  | |- context [isort expires_le ?l] =>
      replace l with (chain_rows db root_symbol as_of_date knowledge_date);
      [done|]
  end.
  unfold chain_rows.
  apply list_filter_iff. intros r. future_columns r.
  rewrite eval_cmp_date_le, eval_cmp_date_ge. unfold in_chainb.
  rewrite !andb_true_iff, eval_cmp_text_eq, String.eqb_eq. tauto.
Qed.

(* ===================================================================== *)
(** ** The per-sid fetches *)
(* ===================================================================== *)

Lemma parse_query_equity_by_sid :
  Sql.parse query_equity_by_sid =
  Ok {| Sql.sel_cols := EQUITY_TABLE_FIELDS; Sql.sel_table := "equities";
        Sql.sel_where :=
          [ {| Sql.c_col := "sid"; Sql.c_op := Sql.OpEq;
               Sql.c_arg := Sql.PPos |} ];
        Sql.sel_order := []; Sql.sel_limit := None |}.
Proof. vm_compute. reflexivity. Qed.

Lemma parse_query_future_by_sid :
  Sql.parse query_future_by_sid =
  Ok {| Sql.sel_cols := FUTURE_TABLE_FIELDS; Sql.sel_table := "futures";
        Sql.sel_where :=
          [ {| Sql.c_col := "sid"; Sql.c_op := Sql.OpEq;
               Sql.c_arg := Sql.PPos |} ];
        Sql.sel_order := []; Sql.sel_limit := None |}.
Proof. vm_compute. reflexivity. Qed.

Lemma execute_equity_by_sid db s :
  execute db query_equity_by_sid (Sql.Positional [VInt s]) =
  Ok {| Sql.description := EQUITY_TABLE_FIELDS;
        Sql.fetched :=
          map (fun r => map (equity_column r) EQUITY_TABLE_FIELDS)
              (filter (fun r => e_sid r = s) (equities db)) |}.
Proof.
  erewrite execute_equities;
    [|apply parse_query_equity_by_sid|done|by vm_compute|done].
  sql_unfold. do 2 f_equal.
  rewrite isort_trivial. f_equal.
  apply list_filter_iff. intros r. equity_columns r.
  rewrite !andb_true_iff, eval_cmp_int_eq. tauto.
Qed.

Lemma execute_future_by_sid db s :
  execute db query_future_by_sid (Sql.Positional [VInt s]) =
  Ok {| Sql.description := FUTURE_TABLE_FIELDS;
        Sql.fetched :=
          map (fun r => map (future_column r) FUTURE_TABLE_FIELDS)
              (filter (fun r => f_sid r = s) (futures db)) |}.
Proof.
  erewrite execute_futures;
    [|apply parse_query_future_by_sid|done|by vm_compute|done].
  sql_unfold. do 2 f_equal.
  rewrite isort_trivial. f_equal.
  apply list_filter_iff. intros r. future_columns r.
  rewrite !andb_true_iff, eval_cmp_int_eq. tauto.
Qed.

(** A fetched row is never an empty dict: it holds the sid. *)
Lemma equity_dict_nonempty r :
  dict_factory EQUITY_TABLE_FIELDS (map (equity_column r) EQUITY_TABLE_FIELDS)
  <> ∅.
Proof.
  intros H. apply (f_equal (fun m => m !! "sid")) in H.
  rewrite lookup_empty in H. vm_compute in H. done.
Qed.

Lemma future_dict_nonempty r :
  dict_factory FUTURE_TABLE_FIELDS (map (future_column r) FUTURE_TABLE_FIELDS)
  <> ∅.
Proof.
  intros H. apply (f_equal (fun m => m !! "sid")) in H.
  rewrite lookup_empty in H. vm_compute in H. done.
Qed.

(** The Equity built from a fetched row: the two window dates are rebuilt
    when they are not zero; [first_traded_nano] is passed on under that name
    and [first_traded] is left at its default. *)
Lemma rebuild_equity r :
  rbind (restore_date "start_date_nano" "start_date"
           (dict_factory EQUITY_TABLE_FIELDS
              (map (equity_column r) EQUITY_TABLE_FIELDS)))
        (fun data =>
           rbind (restore_date "end_date_nano" "end_date" data) new_Equity)
  = Ok (equity_of_row r).
Proof.
  destruct r as [s sym nm [sd|] [ed|] [ft|] ex];
    try destruct sd; try destruct ed; vm_compute; reflexivity.
Qed.

(** The Future built from a fetched row: all five dates are rebuilt when
    they are not zero. *)
Lemma rebuild_future r :
  rbind (restore_date "start_date_nano" "start_date"
           (dict_factory FUTURE_TABLE_FIELDS
              (map (future_column r) FUTURE_TABLE_FIELDS)))
    (fun data =>
     rbind (restore_date "end_date_nano" "end_date" data)
       (fun data =>
        rbind (restore_date "notice_date_nano" "notice_date" data)
          (fun data =>
           rbind (restore_date "first_traded_nano" "first_traded" data)
             (fun data =>
              rbind (restore_date "expiration_date_nano" "expiration_date"
                                  data)
                    new_Future))))
  = Ok (future_of_row r).
Proof.
  destruct r as [s sym nm [sd|] [ed|] [ft|] ex root [nd|] [xd|] cm];
    try destruct sd; try destruct ed; try destruct ft; try destruct nd;
    try destruct xd; vm_compute; reflexivity.
Qed.

Lemma equity_for_id_body_spec s st :
  equity_for_id_body s st =
  (Ok (equity_of_row <$> equity_row (conn st) s), st).
Proof.
  unfold equity_for_id_body, bind, run_query.
  rewrite execute_equity_by_sid.
  unfold fetchone_dict, fetchall_dicts, equity_row.
  cbn [Sql.fetched Sql.description].
  destruct (filter (fun r => e_sid r = s) (equities (conn st))) as [|r l];
    [done|].
  cbn [map head fmap option_fmap option_map].
  rewrite bool_decide_eq_false_2 by apply equity_dict_nonempty.
  pose proof (rebuild_equity r) as Hr. unfold lift, ret.
  destruct (restore_date "start_date_nano" "start_date" _) as [d1|];
    [|done]. cbn [rbind] in Hr.
  destruct (restore_date "end_date_nano" "end_date" d1) as [d2|];
    [|done]. cbn [rbind] in Hr. rewrite Hr. done.
Qed.

Lemma futures_contract_for_id_body_spec s st :
  futures_contract_for_id_body s st =
  (Ok (future_of_row <$> future_row (conn st) s), st).
Proof.
  unfold futures_contract_for_id_body, bind, run_query.
  rewrite execute_future_by_sid.
  unfold fetchone_dict, fetchall_dicts, future_row.
  cbn [Sql.fetched Sql.description].
  destruct (filter (fun r => f_sid r = s) (futures (conn st))) as [|r l];
    [done|].
  cbn [map head fmap option_fmap option_map].
  rewrite bool_decide_eq_false_2 by apply future_dict_nonempty.
  pose proof (rebuild_future r) as Hr. unfold lift, ret.
  destruct (restore_date "start_date_nano" "start_date" _) as [d1|];
    [|done]. cbn [rbind] in Hr.
  destruct (restore_date "end_date_nano" "end_date" d1) as [d2|];
    [|done]. cbn [rbind] in Hr.
  destruct (restore_date "notice_date_nano" "notice_date" d2) as [d3|];
    [|done]. cbn [rbind] in Hr.
  destruct (restore_date "first_traded_nano" "first_traded" d3) as [d4|];
    [|done]. cbn [rbind] in Hr.
  destruct (restore_date "expiration_date_nano" "expiration_date" d4)
    as [d5|]; [|done]. cbn [rbind] in Hr. rewrite Hr. done.
Qed.

(** A fetch through the memo table answers as the store does when the table
    is fresh, and leaves the table fresh and the store as it was. *)
Lemma equity_for_id_fresh s st :
  equity_memo_fresh st ->
  exists st',
    equity_for_id s st = (Ok (equity_of_row <$> equity_row (conn st) s), st')
    /\ conn st' = conn st
    /\ equity_memo_fresh st'.
Proof.
  intros Hfresh. unfold equity_for_id, lru_cache.
  destruct (equity_for_id_memo st !! s) as [v|] eqn:Hm.
  - exists st. rewrite (Hfresh _ _ Hm). done.
  - rewrite equity_for_id_body_spec. eexists. split; [done|].
    split; [done|]. intros s' v'. cbn [equity_for_id_memo
      set_equity_for_id_memo conn].
    destruct (decide (s = s')) as [->|Hne].
    + rewrite lookup_insert_eq. by intros [= <-].
    + rewrite lookup_insert_ne by done. apply Hfresh.
Qed.


(** With one row per sid, the row fetched for the sid of a row is that
    row. *)
Lemma head_filter_key {A} (key : A -> Z) (l : list A) (r : A) :
  NoDup (map key l) -> r ∈ l ->
  head (filter (fun x => key x = key r) l) = Some r.
Proof.
  induction l as [|x l IH]; intros Hnd Hin; [by inversion Hin|].
  cbn [map] in Hnd. apply NoDup_cons in Hnd as [Hx Hnd].
  rewrite filter_cons. apply elem_of_cons in Hin as [->|Hin].
  - by rewrite decide_True.
  - rewrite decide_False; [by apply IH|].
    intros Heq. apply Hx. rewrite Heq. apply list_elem_of_fmap. eauto.
Qed.

Lemma equity_row_unique db r :
  NoDup (map e_sid (equities db)) -> r ∈ equities db ->
  equity_row db (e_sid r) = Some r.
Proof. apply head_filter_key. Qed.


(* ===================================================================== *)
(** ** Futures chains *)
(* ===================================================================== *)

Lemma in_chainb_spec root_symbol as_of_date knowledge_date r :
  in_chainb root_symbol as_of_date knowledge_date r = true <->
  in_chain root_symbol as_of_date knowledge_date r.
Proof.
  unfold in_chainb, in_chain.
  rewrite !andb_true_iff, String.eqb_eq.
  destruct (f_expiration_date_nano r) as [x|],
           (f_start_date_nano r) as [s|];
    rewrite ?Z.leb_le; split.
  all: try (intros [[? ?] ?]; done).
  all: try (intros (? & (? & ? & ?) & (? & ? & ?)); done).
  - intros [[? ?] ?]. eauto 10.
  - intros (? & (? & [= <-] & ?) & (? & [= <-] & ?)). done.
Qed.




(** C7, as amended.  For every root symbol that no row of the futures table
    carries, [lookup_future_chain] returns the empty list and raises
    nothing; the finder is left as it was. *)
Theorem lookup_future_chain_unknown_root st root_symbol as_of_date
    knowledge_date :
  (forall r, r ∈ futures (conn st) -> f_root_symbol r <> root_symbol) ->
  lookup_future_chain root_symbol as_of_date knowledge_date st = (Ok [], st).
Proof.
  intros Hunknown.
  unfold lookup_future_chain, bind at 1, run_query.
  rewrite execute_query_future_chain. cbn [Sql.fetched].
  replace (chain_rows (conn st) root_symbol as_of_date knowledge_date)
    with (@nil FutureRow); [done|].
  symmetry. unfold chain_rows.
  induction (futures (conn st)) as [|r l IH]; [done|].
  rewrite filter_cons, decide_False.
  - apply IH. intros r' Hr'. apply Hunknown. by right.
  - rewrite in_chainb_spec. intros (Hroot & _).
    apply (Hunknown r); [left|done].
Qed.


Example lookup_future_chain_example :
  map (fmap sid)
      (match fst (lookup_future_chain "ES" (15 * DAY) (5 * DAY) three_contracts)
       with Ok l => l | Raise _ => [] end)
  = [Some 12; Some 13].
Proof. vm_compute. reflexivity. Qed.


(** C7 as stated fails: on a finder that holds no future at all the chain of
    the root ES is the empty list, and no [RootSymbolNotFound] is raised. *)
Lemma unknown_root_gives_empty_chain :
  futures (conn (new_AssetFinder true)) = []
  /\ fst (lookup_future_chain "ES" 0 0 (new_AssetFinder true)) = Ok []
  /\ fst (lookup_future_chain "ES" 0 0 (new_AssetFinder true))
     <> Raise (RootSymbolNotFound "ES").
Proof. split; [done|]. split; [by vm_compute|]. by vm_compute. Qed.

Lemma lookup_future_chain_unknown_root_witness :
  lookup_future_chain "NQ" (15 * DAY) (5 * DAY) three_contracts =
  (Ok [], three_contracts).
Proof.
  apply (lookup_future_chain_unknown_root three_contracts "NQ").
  intros r Hr. vm_compute in Hr.
  repeat (apply elem_of_cons in Hr as [->|Hr]; [discriminate|]).
  by apply elem_of_nil in Hr.
Defined.

(* ===================================================================== *)
(** ** Ingestion: the field filter *)
(* ===================================================================== *)


Lemma filter_fields_snoc kwargs kv e :
  filter_fields (kwargs ++ [kv]) e =
  let e' := filter_fields kwargs e in
  if accepted kv.1 kv.2 then <[kv.1 := kv.2]> e' else e'.
Proof. unfold filter_fields. by rewrite foldl_app. Qed.

(** A key whose values are all rejected keeps what the entry held. *)
Lemma filter_fields_frame kwargs (e : gmap string value) key :
  (forall v, (key, v) ∈ kwargs -> accepted key v = false) ->
  filter_fields kwargs e !! key = e !! key.
Proof.
  induction kwargs as [|[k v] kwargs IH] using rev_ind; intros Hrej; [done|].
  rewrite filter_fields_snoc. cbn [fst snd]. cbv zeta.
  assert (IH' : filter_fields kwargs e !! key = e !! key).
  { apply IH. intros v' Hv'. apply Hrej. set_solver. }
  destruct (accepted k v) eqn:Hacc; [|done].
  destruct (decide (k = key)) as [->|Hne].
  - rewrite Hrej in Hacc; [done|]. set_solver.
  - by rewrite lookup_insert_ne.
Qed.

(** An accepted value is written under its key. *)
Lemma filter_fields_accepts kwargs (e : gmap string value) key v :
  NoDup kwargs.*1 -> (key, v) ∈ kwargs -> accepted key v = true ->
  filter_fields kwargs e !! key = Some v.
Proof.
  induction kwargs as [|[k w] kwargs IH] using rev_ind;
    intros Hnd Hin Hacc; [by inversion Hin|].
  rewrite fmap_app in Hnd. apply NoDup_app in Hnd as (Hnd & Hdisj & _).
  rewrite filter_fields_snoc. cbn [fst snd]. cbv zeta.
  apply elem_of_app in Hin as [Hin|Hin].
  - assert (k <> key).
    { intros ->. apply (Hdisj key); [|set_solver].
      apply list_elem_of_fmap. by exists (key, v). }
    destruct (accepted k w); [rewrite lookup_insert_ne by done|]; by apply IH.
  - apply list_elem_of_singleton in Hin as [= <- <-].
    rewrite Hacc. apply lookup_insert_eq.
Qed.



(** On the sample: the zero is kept, the known symbol and exchange survive
    the empty string and the [None], the unknown field and the nan leave no
    trace. *)
Example filter_fields_sample :
  filter_fields sample_kwargs sample_entry =
  <["start_date_nano" := VInt 0]> sample_entry.
Proof. by vm_compute. Qed.

(** Through the whole call: a raw [start_date_nano] of zero reaches the
    table as the date zero. *)
Example insert_metadata_zero_start :
  map e_start_date_nano
      (equities (conn (insert_metadata (IdStr "XYZ") sample_kwargs
                                       (new_AssetFinder true)).2))
  = [Some 0].
Proof. by vm_compute. Qed.

(* ===================================================================== *)
(** ** Ingestion: the router *)
(* ===================================================================== *)

(** A call of [insert_metadata] leaves the tables as they were or appends
    one row to a table and one entry of its type to the router. *)
Lemma insert_metadata_conn ident kwargs st :
  let db' := conn (insert_metadata ident kwargs st).2 in
  db' = conn st
  \/ (exists a, db' = insert_equity a (conn st))
  \/ (exists a f, db' = insert_future a f (conn st)).
Proof.
  unfold insert_metadata.
  destruct (normalize_entry _ _ _ _ _) as [[asset_type|x] e].
  2:{ left. by destruct (metadata_cache st !! ident). }
  destruct (store_asset asset_type e (conn st)) as [db|x] eqn:Hs.
  2:{ left. by destruct (metadata_cache st !! ident). }
  cbn [snd conn set_metadata_cache set_conn].
  unfold store_asset in Hs. destruct asset_type as [| |t| |]; try done.
  destruct (String.eqb (lower t) "equity").
  - destruct (new_Equity e) as [asset|]; [|done]. cbn [rbind] in Hs.
    injection Hs as <-. eauto.
  - destruct (String.eqb (lower t) "future"); [|done].
    destruct (new_Future e) as [[a|a f]|]; try done. cbn [rbind] in Hs.
    injection Hs as <-. eauto.
Qed.

Lemma router_counts_insert_equity a db :
  router_counts db -> router_counts (insert_equity a db).
Proof.
  unfold router_counts, router_entries_of_type, equity_rows, future_rows.
  intros (He & Hf & Ht). cbn [insert_equity equities futures asset_router].
  split; [|split].
  - intros s. rewrite !filter_app, !length_app, He. f_equal.
    rewrite !filter_cons, !filter_nil. cbn [r_sid r_asset_type e_sid equity_row_of].
    destruct (decide (a_sid a = s)).
    + by rewrite decide_True.
    + rewrite decide_False; [done|tauto].
  - intros s. rewrite !filter_app, !length_app, Hf.
    rewrite !filter_cons, !filter_nil. cbn [r_sid r_asset_type].
    rewrite decide_False; [simpl; lia|]. intros [_ ?]. done.
  - apply Forall_app. split; [done|]. repeat constructor.
Qed.

Lemma router_counts_insert_future a f db :
  router_counts db -> router_counts (insert_future a f db).
Proof.
  unfold router_counts, router_entries_of_type, equity_rows, future_rows.
  intros (He & Hf & Ht). cbn [insert_future equities futures asset_router].
  split; [|split].
  - intros s. rewrite !filter_app, !length_app, He.
    rewrite !filter_cons, !filter_nil. cbn [r_sid r_asset_type].
    rewrite decide_False; [simpl; lia|]. intros [_ ?]. done.
  - intros s. rewrite !filter_app, !length_app, Hf. f_equal.
    rewrite !filter_cons, !filter_nil. cbn [r_sid r_asset_type f_sid future_row_of].
    destruct (decide (a_sid a = s)).
    + by rewrite decide_True.
    + rewrite decide_False; [done|tauto].
  - apply Forall_app. split; [done|]. constructor; [by right|constructor].
Qed.

Lemma router_counts_insert_metadata ident kwargs st :
  router_counts (conn st) ->
  router_counts (conn (insert_metadata ident kwargs st).2).
Proof.
  intros H. destruct (insert_metadata_conn ident kwargs st)
    as [-> | [[a ->] | (a & f & ->)]];
    auto using router_counts_insert_equity, router_counts_insert_future.
Qed.

Lemma router_counts_ingest calls st :
  router_counts (conn st) -> router_counts (conn (ingest calls st)).
Proof.
  revert st. induction calls as [|c calls IH]; intros st H; [done|].
  apply IH. by apply router_counts_insert_metadata.
Qed.

(** The entries of a sid split into those of the two types. *)
Lemma router_entries_split db s :
  Forall (fun e => r_asset_type e = "equity" \/ r_asset_type e = "future")
         (asset_router db) ->
  length (router_entries db s) =
  (length (router_entries_of_type db s "equity") +
   length (router_entries_of_type db s "future"))%nat.
Proof.
  unfold router_entries, router_entries_of_type.
  induction 1 as [|e l He _ IH]; [done|].
  rewrite !filter_cons. destruct (decide (r_sid e = s)) as [Hs|Hs].
  - destruct He as [He|He].
    + rewrite decide_True by done. rewrite decide_False.
      * simpl. lia.
      * rewrite He. intros [_ ?]. done.
    + rewrite decide_False.
      * rewrite decide_True by done. simpl. lia.
      * rewrite He. intros [_ ?]. done.
  - rewrite !decide_False by tauto. done.
Qed.

Lemma length_filter_pos {A} (P : A -> Prop) `{forall x, Decision (P x)}
    (l : list A) :
  (0 < length (filter P l))%nat <-> exists x, x ∈ l /\ P x.
Proof.
  split.
  - destruct (filter P l) as [|x l'] eqn:E; [simpl; lia|]. intros _.
    exists x. assert (Hx : x ∈ filter P l) by (rewrite E; left).
    apply list_elem_of_filter in Hx. tauto.
  - intros (x & Hx & HP).
    assert (Hin : x ∈ filter P l) by by apply list_elem_of_filter.
    destruct (filter P l); [by inversion Hin|simpl; lia].
Qed.

Lemma router_counts_equity_entry db r :
  router_counts db -> r ∈ equities db ->
  exists e, e ∈ asset_router db /\ r_sid e = e_sid r /\
            r_asset_type e = "equity".
Proof.
  intros (He & _ & _) Hr.
  assert (Hpos : (0 < length (router_entries_of_type db (e_sid r) "equity"))%nat).
  { rewrite He. apply length_filter_pos. eauto. }
  apply length_filter_pos in Hpos as (e & ? & ? & ?). eauto.
Qed.

Lemma router_counts_future_entry db r :
  router_counts db -> r ∈ futures db ->
  exists e, e ∈ asset_router db /\ r_sid e = f_sid r /\
            r_asset_type e = "future".
Proof.
  intros (_ & Hf & _) Hr.
  assert (Hpos : (0 < length (router_entries_of_type db (f_sid r) "future"))%nat).
  { rewrite Hf. apply length_filter_pos. eauto. }
  apply length_filter_pos in Hpos as (e & ? & ? & ?). eauto.
Qed.

(** A sid written once has a single router entry, of the type of the table
    that holds its row. *)
Lemma router_counts_single db s t :
  router_counts db ->
  (length (equity_rows db s) + length (future_rows db s) = 1)%nat ->
  (0 < length (router_entries_of_type db s t))%nat ->
  exists e, router_entries db s = [e] /\ r_asset_type e = t.
Proof.
  intros (He & Hf & Ht) Hone Hpos.
  pose proof (router_entries_split db s Ht) as Hsplit.
  rewrite He, Hf, Hone in Hsplit.
  destruct (router_entries db s) as [|e [|e' l]] eqn:E; try done.
  exists e. split; [done|].
  apply length_filter_pos in Hpos as (e' & Hin & Hs & Htype).
  assert (Hin' : e' ∈ router_entries db s)
    by (by apply list_elem_of_filter).
  rewrite E in Hin'. by apply list_elem_of_singleton in Hin' as ->.
Qed.

Lemma router_counts_empty : router_counts empty_database.
Proof. repeat split; constructor. Qed.

(** C8, as amended.  After every sequence of ingestion calls on a new
    finder the router holds, for each sid, as many entries of type equity as
    [equities] has rows of that sid, as many of type future as [futures]
    has, and no entry of another type.  So each sid present in a table has
    at least one router entry of the type of the table, and a sid written
    once has exactly one router entry, of that type. *)
Theorem ingest_router_counts allow calls :
  let db := conn (ingest calls (new_AssetFinder allow)) in
  router_counts db
  /\ (forall r, r ∈ equities db ->
        exists e, e ∈ asset_router db /\ r_sid e = e_sid r /\
                  r_asset_type e = "equity")
  /\ (forall r, r ∈ futures db ->
        exists e, e ∈ asset_router db /\ r_sid e = f_sid r /\
                  r_asset_type e = "future")
  /\ (forall r, r ∈ equities db ->
        (length (equity_rows db (e_sid r)) +
         length (future_rows db (e_sid r)) = 1)%nat ->
        exists e, router_entries db (e_sid r) = [e] /\
                  r_asset_type e = "equity")
  /\ (forall r, r ∈ futures db ->
        (length (equity_rows db (f_sid r)) +
         length (future_rows db (f_sid r)) = 1)%nat ->
        exists e, router_entries db (f_sid r) = [e] /\
                  r_asset_type e = "future").
Proof.
  intros db.
  assert (Hc : router_counts db).
  { apply router_counts_ingest, router_counts_empty. }
  split; [done|].
  split; [intros; by apply router_counts_equity_entry|].
  split; [intros; by apply router_counts_future_entry|].
  split.
  - intros r Hr Hone. apply router_counts_single; [done..|].
    destruct Hc as (He & _). rewrite He. apply length_filter_pos. eauto.
  - intros r Hr Hone. apply router_counts_single; [done..|].
    destruct Hc as (_ & Hf & _). rewrite Hf. apply length_filter_pos. eauto.
Qed.

(** C8 as stated fails: when the same identifier is ingested twice, the sid
    has two rows in [equities] and two router entries. *)
Lemma router_not_exact_after_reingestion :
  map e_sid (equities (conn ingested_twice)) = [1; 1]
  /\ map r_sid (asset_router (conn ingested_twice)) = [1; 1]
  /\ ~ router_exact (conn ingested_twice).
Proof.
  split; [by vm_compute|]. split; [by vm_compute|].
  intros [He _].
  destruct (equities (conn ingested_twice)) as [|r l] eqn:E;
    [by vm_compute in E|].
  destruct (He r) as (e & Hone & _); [left|].
  assert (Hs : e_sid r = 1).
  { vm_compute in E. by injection E as <- _. }
  rewrite Hs in Hone. vm_compute in Hone. discriminate Hone.
Qed.

(** The counts on the finder that ingested one identifier twice: two rows,
    two router entries of type equity for the sid. *)
Lemma ingest_router_counts_witness :
  let db := conn ingested_twice in
  router_counts db
  /\ (forall r, r ∈ equities db ->
        exists e, e ∈ asset_router db /\ r_sid e = e_sid r /\
                  r_asset_type e = "equity")
  /\ (forall r, r ∈ futures db ->
        exists e, e ∈ asset_router db /\ r_sid e = f_sid r /\
                  r_asset_type e = "future")
  /\ (forall r, r ∈ equities db ->
        (length (equity_rows db (e_sid r)) +
         length (future_rows db (e_sid r)) = 1)%nat ->
        exists e, router_entries db (e_sid r) = [e] /\
                  r_asset_type e = "equity")
  /\ (forall r, r ∈ futures db ->
        (length (equity_rows db (f_sid r)) +
         length (future_rows db (f_sid r)) = 1)%nat ->
        exists e, router_entries db (f_sid r) = [e] /\
                  r_asset_type e = "future").
Proof.
  exact (ingest_router_counts true
           [ (IdInt 1, [("symbol", VStr "A")]);
             (IdInt 1, [("symbol", VStr "A")]) ]).
Defined.

(* ===================================================================== *)
(** ** Symbol resolution against the store *)
(* ===================================================================== *)

(** A result row of [select sid ...] as a dict. *)
Lemma row_sid_dict s st :
  row_sid (dict_factory ["sid"] [VInt s]) st = (Ok s, st).
Proof.
  unfold row_sid, bind, lift, getitem, dict_factory. cbn [zip zip_with list_to_map uncurry foldr fst snd].
  by rewrite lookup_insert_eq.
Qed.

Lemma sid_dict_nonempty s : dict_factory ["sid"] [VInt s] <> ∅.
Proof. unfold dict_factory. simpl. apply insert_non_empty. Qed.

Lemma head_take_1 {A} (l : list A) : head (take 1 l) = head l.
Proof. by destruct l. Qed.

(** The branch with a date, statement by statement: one covering row, no
    covering row, several covering rows. *)
Lemma lookup_symbol_resolve_multiple_dated symbol d st :
  lookup_symbol_resolve_multiple symbol (Some d) st =
  match covering (conn st) symbol (normalize_date d) with
  | [r] => equity_for_id (e_sid r) st
  | [] =>
      match head (isort ends_ge
                    (started (conn st) symbol (normalize_date d))) with
      | Some r => equity_for_id (e_sid r) st
      | None => (Raise (SymbolNotFound (VStr symbol)), st)
      end
  | _ => (Raise (OperationalError "desclimit"), st)
  end.
Proof.
  unfold lookup_symbol_resolve_multiple. cbn [fmap option_fmap option_map].
  unfold bind at 1, run_query at 1. rewrite execute_query_exact.
  unfold fetchall_dicts. cbn [Sql.fetched Sql.description].
  destruct (covering (conn st) symbol (normalize_date d)) as [|r [|r' l]].
  - cbn [map]. unfold bind at 1, run_query. rewrite execute_query_latest_end.
    unfold fetchone_dict, fetchall_dicts. cbn [Sql.fetched Sql.description].
    rewrite map_map. rewrite <- (head_take_1 (isort _ _)).
    destruct (take 1 _) as [|r l]; [done|]. cbn [map head].
    rewrite bool_decide_eq_false_2 by apply sid_dict_nonempty.
    unfold bind. by rewrite row_sid_dict.
  - cbn [map]. unfold bind. by rewrite row_sid_dict.
  - cbn [map]. unfold bind at 1, run_query, execute.
    by rewrite parse_query_latest_start.
Qed.

(** The branch without a date: [fetchone] hands over the first row of the
    symbol, a dict of one key, whatever the number of rows; without a row
    it hands over [None], whose length cannot be taken. *)
Lemma lookup_symbol_resolve_multiple_undated symbol st :
  lookup_symbol_resolve_multiple symbol None st =
  match rows_of_symbol (conn st) symbol with
  | [] => (Raise TypeError, st)
  | r :: _ => equity_for_id (e_sid r) st
  end.
Proof.
  unfold lookup_symbol_resolve_multiple. cbn [fmap option_fmap option_map].
  unfold bind at 1, run_query at 1. rewrite execute_query_symbol.
  unfold fetchone_dict, fetchall_dicts. cbn [Sql.fetched Sql.description].
  destruct (rows_of_symbol (conn st) symbol) as [|r l]; [done|].
  cbn [map head].
  replace (size (dict_factory ["sid"] [VInt (e_sid r)])) with 1%nat.
  - cbn [Nat.eqb]. unfold bind. by rewrite row_sid_dict.
  - unfold dict_factory. simpl.
    rewrite map_size_insert_None by apply lookup_empty.
    by rewrite map_size_empty.
Qed.

(** C1, where the code departs from it.  Whenever the windows of two or more
    equities of the symbol contain the date, the third statement is sent;
    its text lacks a blank before [limit], SQLite rejects it, and the call
    raises [OperationalError] instead of returning the equity with the
    latest start. *)
Theorem lookup_symbol_overlapping_windows_raises st symbol d :
  (2 <= length (covering (conn st) symbol (normalize_date d)))%nat ->
  lookup_symbol_resolve_multiple symbol (Some d) st =
  (Raise (OperationalError "desclimit"), st).
Proof.
  intros Hlen. rewrite lookup_symbol_resolve_multiple_dated.
  destruct (covering (conn st) symbol (normalize_date d)) as [|r [|r' l]];
    simpl in Hlen; [lia|lia|done].
Qed.

Lemma lookup_symbol_overlapping_windows_raises_witness :
  lookup_symbol_resolve_multiple "A" (Some (DAY + 3600)) two_equities =
  (Raise (OperationalError "desclimit"), two_equities).
Proof.
  apply (lookup_symbol_overlapping_windows_raises two_equities "A" (DAY + 3600)).
  vm_compute. done.
Defined.

(** A per-sid fetch of an equity never raises. *)
Lemma equity_for_id_returns s st : exists v, fst (equity_for_id s st) = Ok v.
Proof.
  unfold equity_for_id, lru_cache.
  destruct (equity_for_id_memo st !! s); [eauto|].
  rewrite equity_for_id_body_spec. eauto.
Qed.

(** C4, where the code departs from it.  Without a date the call never
    raises [MultipleSymbolsFound] nor [SymbolNotFound]: it returns what the
    per-sid fetch gives for the first row of the symbol, or raises
    [TypeError] when the symbol has no row.  With the two equities of the
    symbol A it returns the first one; for the unknown symbol B it raises
    [TypeError]. *)
Theorem lookup_symbol_without_date_never_ambiguous :
  (forall st symbol,
      (exists v, fst (lookup_symbol_resolve_multiple symbol None st) = Ok v)
      \/ fst (lookup_symbol_resolve_multiple symbol None st) = Raise TypeError)
  /\ map e_sid (rows_of_symbol (conn two_equities) "A") = [1; 2]
  /\ sid <$> (match fst (lookup_symbol_resolve_multiple "A" None two_equities)
              with Ok v => v | Raise _ => None end) = Some 1
  /\ rows_of_symbol (conn two_equities) "B" = []
  /\ fst (lookup_symbol_resolve_multiple "B" None two_equities)
     = Raise TypeError.
Proof.
  split.
  - intros st symbol. rewrite lookup_symbol_resolve_multiple_undated.
    destruct (rows_of_symbol (conn st) symbol) as [|r l]; [by right|].
    left. apply equity_for_id_returns.
  - repeat split; by vm_compute.
Qed.

(** C3, where the code departs from it.  The first equity of the example
    was ingested with the start date zero (the epoch) and a first trade on
    day 1, and both are in its row.  The record that [equity_for_id] returns
    has neither: the test [if data['start_date_nano']] takes the integer
    zero for an absent date, and [first_traded_nano] is never turned into
    [first_traded] for an equity (it is for a future). *)
Theorem equity_for_id_loses_dates :
  map (fun r => (e_sid r, e_start_date_nano r, e_end_date_nano r,
                 e_first_traded_nano r))
      (equity_rows (conn two_equities) 1)
  = [(1, Some 0, Some (2 * DAY), Some DAY)]
  /\ fst (equity_for_id 1 two_equities) =
     Ok (Some (Equity {| a_sid := 1; a_symbol := "A"; a_asset_name := "";
                         a_start_date := None;
                         a_end_date := Some (2 * DAY);
                         a_first_traded := None;
                         a_exchange := "" |})).
Proof. split; by vm_compute. Qed.

(** The router statement, and the fetch of the type of a sid. *)
Lemma parse_query_asset_type :
  Sql.parse query_asset_type =
  Ok {| Sql.sel_cols := ["asset_type"]; Sql.sel_table := "asset_router";
        Sql.sel_where :=
          [ {| Sql.c_col := "sid"; Sql.c_op := Sql.OpEq;
               Sql.c_arg := Sql.PPos |} ];
        Sql.sel_order := []; Sql.sel_limit := None |}.
Proof. vm_compute. reflexivity. Qed.

Lemma execute_query_asset_type db s :
  execute db query_asset_type (Sql.Positional [VInt s]) =
  Ok {| Sql.description := ["asset_type"];
        Sql.fetched :=
          map (fun e => [VStr (r_asset_type e)]) (router_entries db s) |}.
Proof.
  unfold execute. rewrite parse_query_asset_type. cbn [rbind Sql.sel_table].
  cbn [String.eqb Ascii.eqb Bool.eqb].
  replace (Sql.check_columns _ _) with (Ok tt) by by vm_compute.
  cbn [rbind Sql.sel_where Sql.bind_params Sql.bind_positional Sql.c_arg
       Sql.bindable Sql.c_col Sql.c_op].
  sql_unfold. do 2 f_equal. rewrite isort_trivial. unfold router_entries.
  f_equal. apply list_filter_iff. intros e.
  change (router_column e "sid") with (VInt (r_sid e)).
  rewrite !andb_true_iff, eval_cmp_int_eq. tauto.
Qed.

Lemma asset_type_by_sid_unknown s st :
  router_entries (conn st) s = [] ->
  asset_type_by_sid_memo st !! s = None ->
  exists st', asset_type_by_sid s st = (Ok None, st').
Proof.
  intros Hr Hm. unfold asset_type_by_sid, lru_cache. rewrite Hm.
  unfold asset_type_by_sid_body, bind, run_query.
  rewrite execute_query_asset_type, Hr. cbn. eauto.
Qed.

(** C5, where the code departs from it.  An integer that has no router
    entry makes [retrieve_asset] raise [SidNotFound]; the handler of
    [_lookup_generic_scalar] catches [SymbolNotFound] only, so the exception
    leaves the batch call instead of the integer being appended to the
    missing list. *)
Theorem lookup_generic_unknown_sid_raises st z rest as_of_date :
  router_entries (conn st) z = [] ->
  asset_type_by_sid_memo st !! z = None ->
  exists st',
    lookup_generic (inr (OInt z :: rest)) as_of_date st =
    (Raise (SidNotFound z), st').
Proof.
  intros Hr Hm.
  destruct (asset_type_by_sid_unknown z st Hr Hm) as [st' Ht].
  exists st'. unfold lookup_generic. cbn [lookup_generic_loop].
  unfold bind at 1. unfold bind at 1.
  unfold _lookup_generic_scalar, try_except, bind at 1.
  unfold retrieve_asset, bind at 1. rewrite Ht.
  cbn. done.
Qed.

Lemma lookup_generic_unknown_sid_raises_witness :
  exists st',
    lookup_generic (inr [OInt 7; OInt 1; OStr "A"]) (Some DAY) two_equities =
    (Raise (SidNotFound 7), st').
Proof.
  apply (lookup_generic_unknown_sid_raises two_equities 7
           [OInt 1; OStr "A"] (Some DAY)).
  - by vm_compute.
  - by vm_compute.
Defined.

(** The same when the unknown integer comes after one that resolves. *)
Example lookup_generic_known_then_unknown :
  fst (lookup_generic (inr [OInt 1; OInt 7]) None two_equities)
  = Raise (SidNotFound 7).
Proof. by vm_compute. Qed.
(* ===================================================================== *)
(** ** Sorting with a comparison that may raise *)
(* ===================================================================== *)

Section SortBy.
Context {A : Type} (lt : A -> A -> result bool).

Lemma insert_by_perm x l s : insert_by lt x l = Ok s -> s ≡ₚ x :: l.
Proof.
  revert s. induction l as [|y l IH]; intros s; cbn [insert_by].
  - by intros [= <-].
  - destruct (lt y x) as [[|]|e]; cbn [rbind]; [|by intros [= <-]|done].
    destruct (insert_by lt x l) as [s'|e]; cbn [rbind]; [|done].
    intros [= <-]. rewrite (IH s' eq_refl). apply Permutation_swap.
Qed.

Lemma sort_by_perm l s : sort_by lt l = Ok s -> s ≡ₚ l.
Proof.
  revert s. induction l as [|x l IH]; intros s; cbn [sort_by].
  - by intros [= <-].
  - destruct (sort_by lt l) as [s'|e]; cbn [rbind]; [|done].
    intros H. apply insert_by_perm in H. by rewrite H, (IH s' eq_refl).
Qed.

(** A sort that raises has met a comparison that raises. *)
Lemma insert_by_raise x l e :
  insert_by lt x l = Raise e -> exists y, y ∈ l /\ lt y x = Raise e.
Proof.
  induction l as [|y l IH]; cbn [insert_by]; [done|].
  destruct (lt y x) as [[|]|e'] eqn:E; cbn [rbind].
  - destruct (insert_by lt x l) as [s'|e'']; cbn [rbind]; [done|].
    intros [= ->]. destruct (IH eq_refl) as (z & Hz & Hlt).
    exists z. split; [by right|done].
  - done.
  - intros [= ->]. exists y. split; [left|done].
Qed.

Lemma sort_by_raise l e :
  sort_by lt l = Raise e ->
  exists x y, x ∈ l /\ y ∈ l /\ lt x y = Raise e.
Proof.
  induction l as [|x l IH]; cbn [sort_by]; [done|].
  destruct (sort_by lt l) as [s|e'] eqn:E; cbn [rbind].
  - intros H. apply insert_by_raise in H as (y & Hy & Hlt).
    exists y, x. split; [|split; [left|done]].
    right. by rewrite <- (sort_by_perm l s E).
  - intros [= ->]. destruct (IH eq_refl) as (a & b & Ha & Hb & Hlt).
    exists a, b. split; [by right|]. split; [by right|done].
Qed.

(** Where no comparison raises, the sort is the stable sort of the order
    [not (y < x)]. *)
Lemma insert_by_pure (ltb : A -> A -> bool) x l :
  (forall y, y ∈ l -> lt y x = Ok (ltb y x)) ->
  insert_by lt x l = Ok (insert_sorted (fun a b => negb (ltb b a)) x l).
Proof.
  induction l as [|y l IH]; intros H; cbn [insert_by insert_sorted]; [done|].
  rewrite (H y) by left. cbn [rbind].
  destruct (ltb y x); cbn [negb]; [|done].
  rewrite IH; [done|]. intros z Hz. apply H. by right.
Qed.

Lemma sort_by_pure (ltb : A -> A -> bool) l :
  (forall x y, x ∈ l -> y ∈ l -> lt x y = Ok (ltb x y)) ->
  sort_by lt l = Ok (isort (fun a b => negb (ltb b a)) l).
Proof.
  induction l as [|x l IH]; intros H; cbn [sort_by isort]; [done|].
  rewrite IH by (intros a b Ha Hb; apply H; by right). cbn [rbind].
  apply insert_by_pure. intros y Hy. apply isort_elem_of in Hy.
  apply H; [by right|left].
Qed.

(** Two classes of elements that cannot be compared with one another: a
    list that holds elements of both cannot be sorted, in whatever order
    the comparisons are made, since an element of one class must be placed
    among those of the other.  The insertion sort meets such a pair too. *)
Lemma sort_by_mixed (c : A -> bool) l :
  (forall x y, x ∈ l -> y ∈ l -> c x <> c y -> lt x y = Raise TypeError) ->
  (forall x y e, x ∈ l -> y ∈ l -> lt x y = Raise e -> e = TypeError) ->
  (exists x y, x ∈ l /\ y ∈ l /\ c x <> c y) ->
  sort_by lt l = Raise TypeError.
Proof.
  induction l as [|x l IH]; intros Hmix Herr (u & v & Hu & Hv & Huv).
  { by inversion Hu. }
  assert (Herr' : forall a b e, a ∈ l -> b ∈ l -> lt a b = Raise e ->
                                e = TypeError).
  { intros a b e Ha Hb. apply Herr; by right. }
  assert (Hmix' : forall a b, a ∈ l -> b ∈ l -> c a <> c b ->
                              lt a b = Raise TypeError).
  { intros a b Ha Hb. apply Hmix; by right. }
  cbn [sort_by].
  destruct (sort_by lt l) as [s|e] eqn:E; cbn [rbind].
  2:{ apply sort_by_raise in E as (a & b & Ha & Hb & Hlt).
      by rewrite (Herr' a b e Ha Hb Hlt). }
  pose proof (sort_by_perm l s E) as Hperm.
  destruct (decide (Forall (fun y => c y = c x) l)) as [Hall|Hnot].
  - (* the rest is of the class of [x]: no pair is mixed *)
    exfalso. rewrite Forall_forall in Hall.
    apply elem_of_cons in Hu as [->|Hu]; apply elem_of_cons in Hv as [->|Hv].
    + done.
    + by rewrite (Hall v Hv) in Huv.
    + by rewrite (Hall u Hu) in Huv.
    + by rewrite (Hall u Hu), (Hall v Hv) in Huv.
  - apply not_Forall_Exists in Hnot; [|apply _].
    apply Exists_exists in Hnot as (y & Hy & Hyx).
    destruct (decide (Forall (fun z => c z = c y) l)) as [Hall|Hnot].
    + (* the rest is of one class, which is not that of [x] *)
      rewrite Forall_forall in Hall.
      destruct s as [|z s'].
      { apply Permutation_nil_l in Hperm. subst l. by inversion Hy. }
      assert (Hz : z ∈ l) by (rewrite <- Hperm; left).
      cbn [insert_by]. rewrite (Hmix z x); [reflexivity|by right|left|].
      rewrite (Hall z Hz). done.
    + (* the rest is mixed already *)
      apply not_Forall_Exists in Hnot; [|apply _].
      apply Exists_exists in Hnot as (z & Hz & Hzy).
      assert (E' : Ok s = Raise TypeError); [|done].
      apply IH; [done|done|]. by exists z, y.
Qed.

(** Where every comparison raises, a list of two elements or more cannot
    be sorted. *)
Lemma sort_by_refused l :
  (forall x y, x ∈ l -> y ∈ l -> lt x y = Raise TypeError) ->
  (2 <= length l)%nat ->
  sort_by lt l = Raise TypeError.
Proof.
  destruct l as [|x l]; [cbn; lia|]. intros H Hlen. cbn [sort_by].
  destruct (sort_by lt l) as [s|e] eqn:E; cbn [rbind].
  - pose proof (sort_by_perm l s E) as Hperm.
    destruct s as [|z s'].
    { apply Permutation_nil_l in Hperm. subst l. cbn in Hlen. lia. }
    assert (Hz : z ∈ l) by (rewrite <- Hperm; left).
    cbn [insert_by]. rewrite (H z x); [reflexivity|by right|left].
  - apply sort_by_raise in E as (a & b & Ha & Hb & Hlt).
    rewrite H in Hlt by (by right). by injection Hlt as <-.
Qed.

End SortBy.

(* ===================================================================== *)
(** ** The comparisons of the in-memory resolver *)
(* ===================================================================== *)

Lemma date_lt_error py3 a b e : date_lt py3 a b = Raise e -> e = TypeError.
Proof. destruct a, b, py3; cbn; congruence. Qed.

Lemma key_lt_error py3 a b e : key_lt py3 a b = Raise e -> e = TypeError.
Proof.
  unfold key_lt. repeat case_bool_decide; [done| |]; apply date_lt_error.
Qed.

Lemma by_end_elem_of i infos : i ∈ by_end infos <-> i ∈ infos.
Proof. apply isort_elem_of. Qed.

Lemma ends_sortable_dec py3 infos : Decision (ends_sortable py3 infos).
Proof. unfold ends_sortable. apply _. Qed.

Lemma starts_alike_dec l : Decision (starts_alike l).
Proof. unfold starts_alike. apply _. Qed.

Lemma sorted_ends_ok py3 infos :
  ends_sortable py3 infos ->
  sorted (date_lt py3) end_date infos = Ok (by_end infos).
Proof.
  intros Hs. unfold sorted, by_end.
  assert (Hpure :
    (forall x y, x ∈ infos -> y ∈ infos ->
       date_lt py3 (end_date x) (end_date y)
       = Ok (negb (date_le (end_date y) (end_date x)))) ->
    sort_by (fun x y => date_lt py3 (end_date x) (end_date y)) infos
    = Ok (isort (fun a b => date_le (end_date a) (end_date b)) infos)).
  { intros H.
    rewrite (sort_by_pure _
               (fun x y => negb (date_le (end_date y) (end_date x)))) by done.
    f_equal. apply isort_ext. intros a b. apply negb_involutive. }
  destruct Hs as [Hlen | [Hall | [-> Hall]]].
  - destruct infos as [|x [|y l]]; [done|done|cbn in Hlen; lia].
  - apply Hpure. rewrite Forall_forall in Hall. intros x y Hx Hy.
    destruct (Hall x Hx) as [ex ->], (Hall y Hy) as [ey ->]. cbn.
    by rewrite Z.ltb_antisym.
  - apply Hpure. rewrite Forall_forall in Hall. intros x y Hx Hy.
    by rewrite (Hall x Hx), (Hall y Hy).
Qed.

Lemma sorted_ends_refused py3 infos :
  ~ ends_sortable py3 infos ->
  sorted (date_lt py3) end_date infos = Raise TypeError.
Proof.
  intros Hs. unfold ends_sortable in Hs.
  assert (Hlen : (2 <= length infos)%nat).
  { destruct (decide (length infos <= 1)%nat); [tauto|lia]. }
  assert (Hsome : ~ Forall (fun i => is_Some (end_date i)) infos) by tauto.
  apply not_Forall_Exists in Hsome; [|apply _].
  apply Exists_exists in Hsome as (i & Hi & Hnone).
  assert (Hinone : end_date i = None).
  { cbn in Hnone. destruct (end_date i); [|done].
    exfalso. apply Hnone. by eexists. }
  unfold sorted.
  destruct (decide (Forall (fun j => end_date j = None) infos)) as [Hall|Hmix].
  - (* no end date at all *)
    assert (py3 = true) as -> by (destruct py3; [done|tauto]).
    apply sort_by_refused; [|done]. rewrite Forall_forall in Hall.
    intros x y Hx Hy. by rewrite (Hall x Hx), (Hall y Hy).
  - (* an absent end date beside a present one *)
    apply not_Forall_Exists in Hmix; [|apply _].
    apply Exists_exists in Hmix as (j & Hj & Hjsome). cbn in Hjsome.
    apply (sort_by_mixed _ (fun x => bool_decide (end_date x = None))).
    + intros x y _ _ Hxy.
      destruct (end_date x), (end_date y); cbn in *; try done.
    + intros x y e _ _. apply date_lt_error.
    + exists i, j. split; [done|]. split; [done|].
      rewrite bool_decide_eq_true_2 by done.
      by rewrite bool_decide_eq_false_2.
Qed.

Lemma filter_by_ended py3 d l :
  Forall (fun i => is_Some (end_date i)) l ->
  filter_by (fun i => date_lt py3 (end_date i) (Some d)) l
  = Ok (filter (fun i => ended d i = true) l).
Proof.
  induction 1 as [|x l [e He] _ IH]; [done|].
  assert (Hx : ended d x = (e <? d)) by (unfold ended; by rewrite He).
  cbn [filter_by]. rewrite He. cbn [date_lt rbind]. rewrite IH.
  cbn [rbind]. rewrite filter_cons, Hx.
  destruct (e <? d); [by rewrite decide_True|by rewrite decide_False].
Qed.

Lemma filter_by_absent_end py3 d l :
  (exists i, i ∈ l /\ end_date i = None) ->
  filter_by (fun i => date_lt py3 (end_date i) (Some d)) l
  = Raise TypeError.
Proof.
  induction l as [|x l IH]; intros (i & Hi & Hnone); [by inversion Hi|].
  cbn [filter_by]. destruct (end_date x) as [e|] eqn:He; [|done].
  cbn [date_lt rbind]. rewrite IH; [done|].
  apply elem_of_cons in Hi as [->|Hi]; [congruence|eauto].
Qed.

(** The order of the keys that can be compared. *)
Lemma lex_le_refl k : lex_le k k = true.
Proof. unfold lex_le. rewrite date_le_refl. simpl. apply date_le_refl. Qed.

Lemma lex_le_total a b : lex_le a b = true \/ lex_le b a = true.
Proof.
  unfold lex_le.
  destruct (date_le b.1 a.1) eqn:E1, (date_le a.1 b.1) eqn:E2; simpl; auto.
  apply date_le_total.
Qed.

Lemma lex_le_trans a b c :
  lex_le a b = true -> lex_le b c = true -> lex_le a c = true.
Proof.
  destruct a as [a1 a2], b as [b1 b2], c as [c1 c2].
  unfold lex_le. cbn [fst snd].
  destruct a1 as [x|], b1 as [y|], c1 as [z|]; simpl;
    repeat match goal with
           | |- context [?p <=? ?q] => destruct (Z.leb_spec p q); simpl
           end;
    try done; try lia; apply date_le_trans.
Qed.

Lemma key_lt_alike py3 x y :
  alike start_date x y -> alike end_date x y ->
  key_lt py3 (window_key x) (window_key y)
  = Ok (negb (lex_le (window_key y) (window_key x))).
Proof.
  unfold alike, key_lt, lex_le, window_key. cbn [fst snd].
  intros Hs He.
  destruct (start_date x) as [sx|], (start_date y) as [sy|];
    try (exfalso; apply (@is_Some_None Z); apply Hs; by eexists);
  destruct (end_date x) as [ex|], (end_date y) as [ey|];
    try (exfalso; apply (@is_Some_None Z); apply He; by eexists);
  repeat case_bool_decide; simplify_eq; cbn;
  repeat match goal with
         | |- context [?p <=? ?q] => destruct (Z.leb_spec p q); simpl
         | |- context [?p <? ?q] => destruct (Z.ltb_spec p q); simpl
         end;
  try done; try lia; try congruence;
  try (match goal with
       | H : Some ?a <> Some ?b |- _ => exfalso; apply H; f_equal; lia
       end).
Qed.

Lemma lex_le_window_le j i :
  alike start_date j i -> alike end_date j i ->
  lex_le (window_key j) (window_key i) = true -> window_le j i = true.
Proof.
  unfold alike, lex_le, window_le, window_key, alike_le. cbn [fst snd].
  intros Hs He.
  destruct (start_date j) as [sx|], (start_date i) as [sy|];
    try (exfalso; apply (@is_Some_None Z); apply Hs; by eexists);
  destruct (end_date j) as [ex|], (end_date i) as [ey|];
    try (exfalso; apply (@is_Some_None Z); apply He; by eexists);
  repeat case_bool_decide; simplify_eq; cbn;
  repeat match goal with
         | |- context [?p <=? ?q] => destruct (Z.leb_spec p q); simpl
         | |- context [?p <? ?q] => destruct (Z.ltb_spec p q); simpl
         end;
  try done; try lia; try congruence;
  try (match goal with
       | H : Some ?a <> Some ?b |- _ => exfalso; apply H; f_equal; lia
       end).
Qed.

Lemma Forall_alike (p : Asset -> option Z) l x y :
  Forall (fun i => is_Some (p i)) l \/ Forall (fun i => p i = None) l ->
  x ∈ l -> y ∈ l -> alike p x y.
Proof.
  unfold alike. rewrite !Forall_forall. intros [H|H] Hx Hy.
  - split; intros _; auto.
  - rewrite (H x Hx), (H y Hy). done.
Qed.

Lemma sorted_keys_ok py3 l :
  starts_alike l ->
  Forall (fun i => is_Some (end_date i)) l
  \/ Forall (fun i => end_date i = None) l ->
  sorted (key_lt py3) window_key l = Ok (by_window l).
Proof.
  intros Hs He. unfold sorted, by_window.
  rewrite (sort_by_pure _
             (fun x y => negb (lex_le (window_key y) (window_key x)))).
  - f_equal. apply isort_ext. intros a b. apply negb_involutive.
  - intros x y Hx Hy. apply key_lt_alike; by eapply Forall_alike.
Qed.

Lemma sorted_keys_mixed py3 l :
  ~ starts_alike l ->
  sorted (key_lt py3) window_key l = Raise TypeError.
Proof.
  intros Hs. unfold starts_alike in Hs.
  assert (Hsome : ~ Forall (fun i => is_Some (start_date i)) l) by tauto.
  assert (Hnone : ~ Forall (fun i => start_date i = None) l) by tauto.
  apply not_Forall_Exists in Hsome; [|apply _].
  apply Exists_exists in Hsome as (i & Hi & Hinone).
  apply not_Forall_Exists in Hnone; [|apply _].
  apply Exists_exists in Hnone as (j & Hj & Hjsome).
  unfold sorted.
  apply (sort_by_mixed _ (fun x => bool_decide (start_date x = None))).
  - intros x y _ _ Hxy. unfold key_lt, window_key. cbn [fst snd].
    destruct (start_date x), (start_date y); cbn in *; try done;
      by rewrite bool_decide_eq_false_2.
  - intros x y e _ _. apply key_lt_error.
  - exists i, j. split; [done|]. split; [done|].
    cbn in Hinone, Hjsome.
    rewrite (bool_decide_eq_false_2 (start_date j = None)) by done.
    rewrite bool_decide_eq_true_2; [done|].
    destruct (start_date i); [|done]. exfalso. apply Hinone. by eexists.
Qed.

(** The resolver, once the sort by end date has passed. *)
Lemma lookup_in_infos_refused py3 infos d :
  ~ ends_sortable py3 infos ->
  _lookup_symbol_in_infos py3 infos d = Raise TypeError.
Proof.
  intros H. unfold _lookup_symbol_in_infos.
  by rewrite sorted_ends_refused.
Qed.

Lemma lookup_in_infos_sorted py3 infos d :
  ends_sortable py3 infos ->
  _lookup_symbol_in_infos py3 infos d =
  match trading_at d (by_end infos) with
  | [c] => Ok (Some c, true)
  | [] =>
      let? ended :=
        filter_by (fun i => date_lt py3 (end_date i) (Some d))
                  (by_end infos) in
      Ok (last ended, false)
  | candidates =>
      let? best := sorted (key_lt py3) window_key candidates in
      Ok (last best, true)
  end.
Proof.
  intros H. unfold _lookup_symbol_in_infos.
  rewrite sorted_ends_ok by done. cbn [rbind]. unfold trading_at.
  by destruct (filter _ (by_end infos)) as [|c [|c' l]].
Qed.

Lemma trading_at_by_end d infos :
  trading_at d (by_end infos) ≡ₚ trading_at d infos.
Proof. unfold trading_at, by_end. by rewrite isort_perm. Qed.

Lemma trading_at_elem_of d infos i :
  i ∈ trading_at d infos <-> i ∈ infos /\ window_contains d i = true.
Proof. unfold trading_at. rewrite list_elem_of_filter. tauto. Qed.

(** The resolver raises nothing but [TypeError]. *)
Lemma lookup_in_infos_error py3 infos d e :
  _lookup_symbol_in_infos py3 infos d = Raise e -> e = TypeError.
Proof.
  destruct (ends_sortable_dec py3 infos) as [Hs|Hs].
  2:{ rewrite lookup_in_infos_refused by done. congruence. }
  rewrite lookup_in_infos_sorted by done.
  destruct (trading_at d (by_end infos)) as [|c [|c' l]].
  - destruct (filter_by _ _) as [r|e'] eqn:E; cbn [rbind]; [done|].
    intros [= <-]. clear -E. revert E.
    generalize (by_end infos). intros l.
    induction l as [|x l IH]; cbn [filter_by]; [done|].
    destruct (date_lt py3 (end_date x) (Some d)) as [b|e''] eqn:Hlt;
      cbn [rbind].
    + destruct (filter_by _ l) as [r|e'']; cbn [rbind]; [done|].
      intros [= <-]. by apply IH.
    + intros [= <-]. by apply date_lt_error in Hlt.
  - done.
  - destruct (sorted _ _ _) as [r|e'] eqn:E; cbn [rbind]; [done|].
    intros [= <-]. unfold sorted in E.
    apply sort_by_raise in E as (a & b & _ & _ & Hlt).
    by apply key_lt_error in Hlt.
Qed.

(* ===================================================================== *)
(** ** Fuzzy lookup *)
(* ===================================================================== *)

(** The first outcome that is not unresolved. *)
Lemma first_trading_cons o outcomes :
  first_trading (o :: outcomes)
  = match o with
    | Ok None => first_trading outcomes
    | _ => o
    end.
Proof.
  unfold first_trading. cbn [list_find].
  destruct o as [[a|]|e]; cbn [is_unresolved].
  - by rewrite decide_True.
  - rewrite decide_False by done.
    by destruct (list_find _ outcomes) as [[k o]|].
  - by rewrite decide_True.
Qed.

Lemma first_trading_at outcomes k o :
  outcomes !! k = Some o -> is_unresolved o = false ->
  (forall j o', (j < k)%nat -> outcomes !! j = Some o' -> o' = Ok None) ->
  first_trading outcomes = o.
Proof.
  revert k. induction outcomes as [|o0 outcomes IH]; intros k Hk Ho Hbefore.
  { by rewrite lookup_nil in Hk. }
  rewrite first_trading_cons. destruct k as [|k].
  - injection Hk as ->. by destruct o as [[a|]|e].
  - rewrite (Hbefore 0%nat o0) by (done || lia).
    apply (IH k); [done|done|].
    intros j o' Hj Ho'. apply (Hbefore (S j)); [lia|done].
Qed.

Lemma first_trading_unresolved outcomes :
  (forall o, o ∈ outcomes -> o = Ok None) -> first_trading outcomes = Ok None.
Proof.
  induction outcomes as [|o outcomes IH]; intros H; [done|].
  rewrite first_trading_cons, (H o) by left.
  apply IH. intros o' Ho'. apply H. by right.
Qed.

Lemma first_trading_error outcomes e :
  first_trading outcomes = Raise e -> Raise e ∈ outcomes.
Proof.
  induction outcomes as [|o outcomes IH]; [done|].
  rewrite first_trading_cons. destruct o as [[a|]|e']; [done| |].
  - intros H. right. by apply IH.
  - intros [= ->]. left.
Qed.

(** The loop returns the first outcome, in the order of the list, that is a
    trading match or an exception. *)
Lemma fuzzy_search_cons py3 cache as_of_date s symbols :
  fuzzy_search py3 cache as_of_date (s :: symbols) =
  match trading_match py3 cache as_of_date s with
  | Ok None => fuzzy_search py3 cache as_of_date symbols
  | outcome => outcome
  end.
Proof.
  cbn [fuzzy_search]. unfold trading_match.
  destruct (cache !! s) as [[|i infos]|]; [done| |done].
  by destruct (_lookup_symbol_in_infos py3 (i :: infos) as_of_date)
    as [[[a|] [|]]|e].
Qed.

Lemma fuzzy_search_first py3 cache as_of_date symbols :
  fuzzy_search py3 cache as_of_date symbols =
  first_trading (trading_match py3 cache as_of_date <$> symbols).
Proof.
  induction symbols as [|s symbols IH]; [done|].
  rewrite fuzzy_search_cons, fmap_cons, first_trading_cons, IH.
  by destruct (trading_match py3 cache as_of_date s) as [[a|]|e].
Qed.

Lemma trading_match_error py3 cache d s e :
  trading_match py3 cache d s = Raise e -> e = TypeError.
Proof.
  unfold trading_match. destruct (cache !! s) as [[|i infos]|]; [done| |done].
  destruct (_lookup_symbol_in_infos py3 (i :: infos) d) as [[r b]|e'] eqn:E;
    [done|].
  intros [= <-]. by apply lookup_in_infos_error in E.
Qed.

(** The symbols tried: the symbol itself, then the fuzzy string inserted at
    the positions [len - 1], [len - 2], ..., [1]. *)
Lemma fuzzy_symbols_order symbol fuzzy :
  fuzzy_symbols symbol fuzzy !! 0%nat = Some symbol
  /\ length (fuzzy_symbols symbol fuzzy) = S (String.length symbol - 1)
  /\ forall k, (1 <= k < String.length symbol)%nat ->
       fuzzy_symbols symbol fuzzy !! k =
       Some (insert_at symbol fuzzy (String.length symbol - k)).
Proof.
  unfold fuzzy_symbols, insertion_points. split; [done|]. split.
  - cbn [length]. by rewrite length_map, length_rev, length_seq.
  - intros k Hk. destruct k as [|k]; [lia|]. cbn [lookup list_lookup].
    rewrite (list_lookup_fmap (insert_at symbol fuzzy)).
    replace (rev (seq 1 (String.length symbol - 1)) !! k)
      with (Some (String.length symbol - S k)%nat); [done|].
    symmetry. rewrite rev_alt.
    change (rev_append ?l []) with (reverse l).
    rewrite reverse_lookup by (rewrite length_seq; lia).
    rewrite length_seq. rewrite lookup_seq_lt by lia. f_equal. lia.
Qed.

(** C10, as amended.  For every symbol, fuzzy string (not empty) and date,
    [lookup_symbol] works on the upper-cased symbol and on the date brought
    back to midnight.  On a first query it tries the upper-cased symbol,
    then the variants with the fuzzy string inserted at the positions
    [len - 1] down to [1], in that order, up to the first of them whose
    in-memory match is marked as trading, which it returns, or whose
    in-memory match raises (a [TypeError], when an absent date of a
    candidate meets a comparison), which leaves the call with nothing
    recorded; when every symbol tried gives no trading match it returns
    [None].  It records the outcome it returns, [None] included, under the
    key (upper-cased symbol, fuzzy string, midnight), and the same query
    asked again returns the recorded outcome and changes nothing. *)
Theorem lookup_symbol_fuzzy py3 st symbol fuzzy d :
  fuzzy <> "" ->
  let upper_symbol := upper symbol in
  let midnight := normalize_date d in
  let key := (upper_symbol, fuzzy, midnight) in
  let tried := fuzzy_symbols upper_symbol fuzzy in
  let matched := trading_match py3 (sym_cache st) midnight in
  let outcome := first_trading (matched <$> tried) in
  (* the symbols tried, in order *)
  tried !! 0%nat = Some upper_symbol
  /\ length tried = S (String.length upper_symbol - 1)
  /\ (forall k, (1 <= k < String.length upper_symbol)%nat ->
        tried !! k =
        Some (insert_at upper_symbol fuzzy (String.length upper_symbol - k)))
  (* the outcome: that of the first symbol that is not unresolved *)
  /\ (forall k s, tried !! k = Some s -> matched s <> Ok None ->
        (forall j s', (j < k)%nat -> tried !! j = Some s' ->
                      matched s' = Ok None) ->
        outcome = matched s)
  /\ ((forall s, s ∈ tried -> matched s = Ok None) -> outcome = Ok None)
  (* a recorded outcome is returned as it is *)
  /\ (forall cached, fuzzy_match st !! key = Some cached ->
        lookup_symbol py3 symbol d (Some fuzzy) st = (Ok cached, st))
  (* a first query searches; it records what it returns, and a second query
     reads the record; an exception leaves the finder as it was *)
  /\ (fuzzy_match st !! key = None ->
        match outcome with
        | Ok found =>
            let st' := set_fuzzy_match (<[key := found]> (fuzzy_match st)) st
            in
            lookup_symbol py3 symbol d (Some fuzzy) st = (Ok found, st')
            /\ lookup_symbol py3 symbol d (Some fuzzy) st' = (Ok found, st')
        | Raise e =>
            e = TypeError
            /\ lookup_symbol py3 symbol d (Some fuzzy) st = (Raise e, st)
        end).
Proof.
  intros Hfuzzy upper_symbol midnight key tried matched outcome.
  destruct (fuzzy_symbols_order upper_symbol fuzzy) as (H0 & Hlen & Hk).
  split; [done|]. split; [done|]. split; [done|].
  assert (Hcall : forall st0,
    lookup_symbol py3 symbol d (Some fuzzy) st0 =
    match fuzzy_match st0 !! key with
    | Some cached => (Ok cached, st0)
    | None =>
        match fuzzy_search py3 (sym_cache st0) midnight tried with
        | Ok f => (Ok f, set_fuzzy_match (<[key := f]> (fuzzy_match st0)) st0)
        | Raise e => (Raise e, st0)
        end
    end).
  { intros st0. unfold lookup_symbol.
    destruct fuzzy as [|c fuzzy']; [done|]. done. }
  split; [|split; [|split]].
  - intros k s Hs Hm Hbefore. unfold outcome.
    apply (first_trading_at _ k).
    + by rewrite list_lookup_fmap, Hs.
    + by destruct (matched s) as [[a|]|e].
    + intros j o' Hj Ho'. rewrite list_lookup_fmap in Ho'.
      destruct (tried !! j) as [s'|] eqn:Hs'; [|done].
      injection Ho' as <-. by apply (Hbefore j).
  - intros Hall. apply first_trading_unresolved. intros o Ho.
    apply list_elem_of_fmap in Ho as (s & -> & Hs). by apply Hall.
  - intros cached Hc. by rewrite Hcall, Hc.
  - intros Hnone. rewrite !Hcall, Hnone, fuzzy_search_first.
    fold matched. fold outcome. destruct outcome as [found|e] eqn:Ho.
    + cbv zeta. split; [done|]. rewrite Hcall.
      cbn [fuzzy_match set_fuzzy_match]. by rewrite lookup_insert_eq.
    + split; [|done]. unfold outcome in Ho.
      apply first_trading_error, list_elem_of_fmap in Ho as (s & Hs & _).
      symmetry in Hs. by apply trading_match_error in Hs.
Qed.

Lemma lookup_symbol_fuzzy_witness :
  let tried := fuzzy_symbols "CMCSA" "_" in
  let matched := trading_match true (sym_cache cmcs_finder) DAY in
  let outcome := first_trading (matched <$> tried) in
  tried !! 0%nat = Some "CMCSA"
  /\ length tried = 5%nat
  /\ (forall k, (1 <= k < 5)%nat ->
        tried !! k = Some (insert_at "CMCSA" "_" (5 - k)))
  /\ (forall k s, tried !! k = Some s -> matched s <> Ok None ->
        (forall j s', (j < k)%nat -> tried !! j = Some s' ->
                      matched s' = Ok None) ->
        outcome = matched s)
  /\ ((forall s, s ∈ tried -> matched s = Ok None) -> outcome = Ok None)
  /\ (forall cached,
        fuzzy_match cmcs_finder !! ("CMCSA", "_", DAY) = Some cached ->
        lookup_symbol true "cmcsa" (DAY + 60) (Some "_") cmcs_finder
        = (Ok cached, cmcs_finder))
  /\ (fuzzy_match cmcs_finder !! ("CMCSA", "_", DAY) = None ->
        match outcome with
        | Ok found =>
            let st' := set_fuzzy_match
                         (<[("CMCSA", "_", DAY) := found]>
                            (fuzzy_match cmcs_finder)) cmcs_finder in
            lookup_symbol true "cmcsa" (DAY + 60) (Some "_") cmcs_finder
            = (Ok found, st')
            /\ lookup_symbol true "cmcsa" (DAY + 60) (Some "_") st'
               = (Ok found, st')
        | Raise e =>
            e = TypeError
            /\ lookup_symbol true "cmcsa" (DAY + 60) (Some "_") cmcs_finder
               = (Raise e, cmcs_finder)
        end).
Proof.
  apply (lookup_symbol_fuzzy true cmcs_finder "cmcsa" "_" (DAY + 60)). done.
Defined.

(** The example of the docstring: [CMCSA] with the fuzzy string [_] is tried
    as [CMCSA], [CMCS_A], [CMC_SA], [CM_CSA], [C_MCSA], and resolves to the
    equity filed under [CMCS_A]. *)
Example fuzzy_symbols_cmcsa :
  fuzzy_symbols "CMCSA" "_" = ["CMCSA"; "CMCS_A"; "CMC_SA"; "CM_CSA"; "C_MCSA"].
Proof. by vm_compute. Qed.

Example lookup_symbol_cmcsa :
  forall py3,
    fst (lookup_symbol py3 "CMCSA" DAY (Some "_") cmcs_finder)
    = Ok (Some cmcs_a).
Proof. by intros [|]; vm_compute. Qed.

(** A candidate without an end date that starts after the date: the
    fallback compares its absent end with the date, and the lookup raises
    instead of going on to the next symbol; nothing is recorded. *)
Example lookup_symbol_open_end_raises :
  forall py3,
    lookup_symbol py3 "F" DAY (Some "_") open_end_finder
    = (Raise TypeError, open_end_finder).
Proof. by intros [|]; vm_compute. Qed.

(** C10 as stated fails: the symbol [a], as given, has candidates with a
    trading match on day 1, but the first symbol tried is [A], no symbol
    tried has candidates, and the lookup is unresolved. *)
Lemma fuzzy_lookup_tries_upper_case :
  trading_match true (sym_cache lower_case_finder) (normalize_date DAY) "a"
  = Ok (Some lower_case_equity)
  /\ first_trading
       (trading_match true (sym_cache lower_case_finder) (normalize_date DAY)
          <$> fuzzy_symbols "a" "_")
     = Ok (Some lower_case_equity)
  /\ fst (lookup_symbol true "a" DAY (Some "_") lower_case_finder) = Ok None
  /\ fst (lookup_symbol false "a" DAY (Some "_") lower_case_finder)
     = Ok None.
Proof. repeat split; by vm_compute. Qed.

(* ===================================================================== *)
(** ** The two resolvers side by side *)
(* ===================================================================== *)

(** C2 as stated fails.  An equity ingested without a start date is, for the
    in-memory resolver, a candidate whose window has no lower bound
    ([i.start_date is None or ...]): it is the one match on day 1.  The
    store compares the NULL start with the date, which no row passes, in
    the first statement as in the fallback: no match. *)
Lemma resolvers_disagree_on_open_start :
  same_windows (rows_of_symbol (conn open_start) "A") open_start_infos
  /\ memory_outcome false open_start_infos DAY = Found 1
  /\ memory_outcome true open_start_infos DAY = Found 1
  /\ store_outcome open_start "A" DAY = NoMatch.
Proof.
  split; [|repeat split; by vm_compute].
  vm_compute. repeat constructor.
Qed.

(** They also part when two windows contain the date (the in-memory
    resolver picks the latest start, the store raises on its third
    statement) ... *)
Example resolvers_disagree_on_overlap :
  same_windows (rows_of_symbol (conn two_equities) "A") two_equities_infos
  /\ memory_outcome true two_equities_infos DAY = Found 2
  /\ store_outcome two_equities "A" DAY
     = Failed (OperationalError "desclimit").
Proof.
  split; [|split; by vm_compute].
  vm_compute. repeat constructor.
Qed.

(** ... and when no window contains the date and two candidates end on the
    same latest day: the stable sorts leave the first of them first, the
    store takes the head of its descending order and the in-memory resolver
    the last of its ascending order. *)
Example resolvers_disagree_on_equal_ends :
  same_windows (rows_of_symbol (conn same_end) "B") same_end_infos
  /\ memory_outcome true same_end_infos (5 * DAY) = Found 2
  /\ store_outcome same_end "B" (5 * DAY) = Found 1.
Proof.
  split; [|split; by vm_compute].
  vm_compute. repeat constructor.
Qed.

(** They part as well on a window whose start is after its end: on a day
    between the two, the store finds no row that started, the in-memory
    resolver finds a candidate that ended. *)
Example resolvers_disagree_on_inverted_window :
  same_windows (rows_of_symbol (conn inverted_window) "D")
               inverted_window_infos
  /\ memory_outcome true inverted_window_infos (3 * DAY) = Found 1
  /\ store_outcome inverted_window "D" (3 * DAY) = NoMatch.
Proof.
  split; [|split; by vm_compute].
  vm_compute. repeat constructor.
Qed.

(** And they part on a date that is no midnight: the store brings the date
    back to midnight, the in-memory resolver takes it as it is given.  Two
    hours into day 2 the store answers for day 2, on which the first equity
    still trades; the in-memory resolver answers for the hour, at which only
    the second one trades. *)
Example resolvers_disagree_off_midnight :
  same_windows (rows_of_symbol (conn intraday_start) "E")
               intraday_start_infos
  /\ memory_outcome true intraday_start_infos (2 * DAY + 7200000000000)
     = Found 2
  /\ store_outcome intraday_start "E" (2 * DAY + 7200000000000) = Found 1.
Proof.
  split; [|split; by vm_compute].
  vm_compute. repeat constructor.
Qed.

(** Facts on lists related element by element. *)
Lemma Forall2_elem_of_left {A B} (P : A -> B -> Prop) l k x :
  Forall2 P l k -> x ∈ l -> exists y, y ∈ k /\ P x y.
Proof.
  induction 1 as [|a b l k Hab _ IH]; intros Hx; [by inversion Hx|].
  apply elem_of_cons in Hx as [->|Hx].
  - exists b. split; [left|done].
  - destruct (IH Hx) as (y & ? & ?). exists y. split; [by right|done].
Qed.

Lemma Forall2_elem_of_right {A B} (P : A -> B -> Prop) l k y :
  Forall2 P l k -> y ∈ k -> exists x, x ∈ l /\ P x y.
Proof.
  induction 1 as [|a b l k Hab _ IH]; intros Hy; [by inversion Hy|].
  apply elem_of_cons in Hy as [->|Hy].
  - exists a. split; [left|done].
  - destruct (IH Hy) as (x & ? & ?). exists x. split; [by right|done].
Qed.

Lemma NoDup_fmap_elem_inj {A B} (f : A -> B) (l : list A) x y :
  NoDup (f <$> l) -> x ∈ l -> y ∈ l -> f x = f y -> x = y.
Proof.
  induction l as [|a l IH]; intros Hnd Hx Hy Hf; [by inversion Hx|].
  rewrite fmap_cons in Hnd. apply NoDup_cons in Hnd as [Ha Hnd].
  apply elem_of_cons in Hx as [->|Hx]; apply elem_of_cons in Hy as [->|Hy].
  - done.
  - exfalso. apply Ha. rewrite Hf. apply list_elem_of_fmap. eauto.
  - exfalso. apply Ha. rewrite <- Hf. apply list_elem_of_fmap. eauto.
  - by apply IH.
Qed.

Lemma closed_pairs rows infos :
  same_windows rows infos -> Forall closed_window rows ->
  Forall2 closed_pair rows infos.
Proof.
  induction 1 as [|r i rows infos Hri _ IH]; intros Hc; [constructor|].
  apply Forall_cons in Hc as [Hr Hc]. constructor; [done|by apply IH].
Qed.

(** For a candidate that stands for a row with both dates, the tests of the
    two resolvers coincide. *)
Lemma closed_pair_contains d r i :
  closed_pair r i ->
  started_by d r && not_ended_at d r = true <-> window_contains d i = true.
Proof.
  intros [(_ & Hs & He) (s & e & Hrs & Hre & _)].
  unfold started_by, not_ended_at, window_contains.
  by rewrite Hs, He, Hrs, Hre.
Qed.

Lemma closed_pair_ended d r i :
  closed_pair r i -> ended_before d r <-> ended d i = true.
Proof.
  intros [(_ & _ & He) (s & e & _ & Hre & _)].
  unfold ended_before, ended. rewrite He, Hre.
  rewrite Z.ltb_lt. split.
  - by intros (e' & [= <-] & ?).
  - eauto.
Qed.

Lemma closed_pairs_ends rows infos :
  Forall2 closed_pair rows infos ->
  Forall (fun i => is_Some (end_date i)) infos.
Proof.
  induction 1 as [|r i rows infos Hri _ IH]; constructor; [|done].
  destruct Hri as [(_ & _ & He) (s & e & _ & Hre & _)].
  rewrite He, Hre. by eexists.
Qed.

(** When the window of a row does not contain the date, the row started by
    the date exactly when it ended before it. *)
Lemma started_iff_ended d r :
  closed_window r ->
  started_by d r && not_ended_at d r = false ->
  started_by d r = true <-> ended_before d r.
Proof.
  intros (s & e & Hs & He & Hse). unfold started_by, not_ended_at, ended_before.
  rewrite Hs, He, andb_false_iff, !Z.leb_gt, Z.leb_le. split.
  - intros Hle. exists e. split; [done|lia].
  - intros (e' & [= <-] & ?). lia.
Qed.

Lemma end_date_le_total (x y : Asset) :
  date_le (end_date x) (end_date y) = true
  \/ date_le (end_date y) (end_date x) = true.
Proof. apply date_le_total. Qed.

Lemma ends_ge_total x y : ends_ge x y = true \/ ends_ge y x = true.
Proof. apply date_le_total. Qed.

Lemma ends_ge_trans x y z :
  ends_ge x y = true -> ends_ge y z = true -> ends_ge x z = true.
Proof. unfold ends_ge. eauto using date_le_trans. Qed.

(** Without a covering row, the head of the store's descending order and
    the last of the in-memory ascending order are the same instrument. *)
Lemma fallback_choice_agrees d rows infos :
  Forall2 closed_pair rows infos ->
  NoDup (e_end_date_nano <$> rows) ->
  (forall r, r ∈ rows -> started_by d r && not_ended_at d r = false) ->
  e_sid <$> head (isort ends_ge (filter (fun r => started_by d r = true) rows))
  = sid <$> last (filter (fun i => ended d i = true) (by_end infos)).
Proof.
  intros Hpairs Hnd Hnone.
  set (F := filter (fun r => started_by d r = true) rows).
  set (G := filter (fun i => ended d i = true) (by_end infos)).
  assert (HF : forall r, r ∈ F <-> r ∈ rows /\ ended_before d r).
  { intros r. unfold F. rewrite list_elem_of_filter. split.
    - intros [Hs Hr]. split; [done|].
      destruct (Forall2_elem_of_left _ _ _ _ Hpairs Hr) as (i & _ & _ & Hc).
      by apply started_iff_ended; auto.
    - intros [Hr He]. split; [|done].
      destruct (Forall2_elem_of_left _ _ _ _ Hpairs Hr) as (i & _ & _ & Hc).
      by apply started_iff_ended; auto. }
  assert (HG : forall i, i ∈ G <-> i ∈ infos /\ ended d i = true).
  { intros i. unfold G. rewrite list_elem_of_filter, by_end_elem_of. tauto. }
  assert (HFG : forall r i, closed_pair r i -> r ∈ rows -> i ∈ infos ->
                            r ∈ F <-> i ∈ G).
  { intros r i Hp Hr Hi. rewrite HF, HG, (closed_pair_ended d r i Hp). tauto. }
  destruct (head (isort ends_ge F)) as [x|] eqn:Hx;
    destruct (last G) as [i|] eqn:Hi; cbn [fmap option_fmap option_map].
  - (* both find a row: it is the one with the latest end *)
    f_equal.
    apply isort_head_least in Hx as [HxF Hxmax];
      [|apply ends_ge_total|apply ends_ge_trans].
    assert (HiG : i ∈ G) by by apply last_Some_elem_of.
    assert (Himax : forall j, j ∈ G ->
                      date_le (end_date j) (end_date i) = true).
    { apply (sorted_last_greatest
               (fun a b => date_le (end_date a) (end_date b)) G).
      - intros a. apply date_le_refl.
      - apply sorted_filter, isort_sorted.
        + intros a b. apply date_le_total.
        + intros a b c. apply date_le_trans.
      - done. }
    destruct (proj1 (HG i) HiG) as [Hiinfos _].
    destruct (Forall2_elem_of_right _ _ _ _ Hpairs Hiinfos)
      as (ri & Hri & Hpi).
    destruct (proj1 (HF x) HxF) as [Hxrows _].
    destruct (Forall2_elem_of_left _ _ _ _ Hpairs Hxrows)
      as (ix & Hix & Hpx).
    assert (HriF : ri ∈ F) by by apply (HFG ri i).
    assert (HixG : ix ∈ G) by by apply (HFG x ix).
    specialize (Hxmax ri HriF). specialize (Himax ix HixG).
    unfold ends_ge in Hxmax.
    destruct Hpi as [(Hsid & _ & Hei) (si & ei & _ & Hrei & _)].
    destruct Hpx as [(_ & _ & Hex) (sx & ex & _ & Hrex & _)].
    rewrite Hex, Hei, Hrex, Hrei in Himax. rewrite Hrex, Hrei in Hxmax.
    simpl in Himax, Hxmax.
    assert (x = ri).
    { apply (NoDup_fmap_elem_inj e_end_date_nano rows); try done.
      rewrite Hrex, Hrei. f_equal. lia. }
    by subst.
  - (* the store finds a row, so its candidate ended before the date *)
    exfalso. apply head_Some_elem_of in Hx. apply isort_elem_of in Hx.
    destruct (proj1 (HF x) Hx) as [Hxrows _].
    destruct (Forall2_elem_of_left _ _ _ _ Hpairs Hxrows)
      as (ix & Hix & Hpx).
    assert (HixG : ix ∈ G) by by apply (HFG x ix).
    apply last_None in Hi. rewrite Hi in HixG. by inversion HixG.
  - (* a candidate ended before the date, so its row started by it *)
    exfalso. apply last_Some_elem_of in Hi.
    destruct (proj1 (HG i) Hi) as [Hiinfos _].
    destruct (Forall2_elem_of_right _ _ _ _ Hpairs Hiinfos)
      as (ri & Hri & Hpi).
    assert (HriF : ri ∈ F) by by apply (HFG ri i).
    apply head_None in Hx.
    apply (isort_elem_of ends_ge) in HriF. rewrite Hx in HriF.
    by inversion HriF.
  - done.
Qed.

(** With one row per sid and a fresh memo table, the fetch of the sid of a
    row returns the Equity built from that row. *)
Lemma equity_for_id_of_row st r :
  NoDup (e_sid <$> equities (conn st)) ->
  equity_memo_fresh st ->
  r ∈ equities (conn st) ->
  fst (equity_for_id (e_sid r) st) = Ok (Some (equity_of_row r)).
Proof.
  intros Hnd Hfresh Hr.
  destruct (equity_for_id_fresh (e_sid r) st Hfresh) as (st' & -> & _).
  cbn [fst]. by rewrite equity_row_unique.
Qed.

Lemma rows_of_symbol_elem_of db symbol r :
  r ∈ rows_of_symbol db symbol -> r ∈ equities db.
Proof. unfold rows_of_symbol. rewrite list_elem_of_filter. tauto. Qed.

(** X4.  The resolver that asks the store, on a store with one row per sid
    and a fresh memo table: when the window of exactly one equity of the
    symbol contains the day (both ends included), it returns the equity of
    that row. *)
Lemma lookup_symbol_one_window st symbol d r :
  NoDup (e_sid <$> equities (conn st)) ->
  equity_memo_fresh st ->
  covering (conn st) symbol (normalize_date d) = [r] ->
  fst (lookup_symbol_resolve_multiple symbol (Some d) st)
  = Ok (Some (equity_of_row r)).
Proof.
  intros Hnd Hfresh Hcov. rewrite lookup_symbol_resolve_multiple_dated, Hcov.
  apply equity_for_id_of_row; [done..|].
  apply (rows_of_symbol_elem_of _ symbol).
  assert (Hin : r ∈ covering (conn st) symbol (normalize_date d))
    by (rewrite Hcov; left).
  apply list_elem_of_filter in Hin. tauto.
Qed.

(** X5.  On such a store, when no window contains the day, it returns the
    equity of a row of the symbol that started on or before the day and
    whose end is the latest among those (a row without an end counting as
    the earliest), or raises [SymbolNotFound] when no row of the symbol
    started by then. *)
Lemma lookup_symbol_no_window st symbol d :
  NoDup (e_sid <$> equities (conn st)) ->
  equity_memo_fresh st ->
  covering (conn st) symbol (normalize_date d) = [] ->
  (exists r,
      fst (lookup_symbol_resolve_multiple symbol (Some d) st)
      = Ok (Some (equity_of_row r))
      /\ r ∈ started (conn st) symbol (normalize_date d)
      /\ forall r', r' ∈ started (conn st) symbol (normalize_date d) ->
                    date_le (e_end_date_nano r') (e_end_date_nano r) = true)
  \/ (fst (lookup_symbol_resolve_multiple symbol (Some d) st)
       = Raise (SymbolNotFound (VStr symbol))
       /\ started (conn st) symbol (normalize_date d) = []).
Proof.
  intros Hnd Hfresh Hcov. rewrite lookup_symbol_resolve_multiple_dated, Hcov.
  destruct (head (isort ends_ge (started (conn st) symbol (normalize_date d))))
    as [x|] eqn:Hx.
  - left. exists x.
    apply isort_head_least in Hx as [Hin Hmax];
      [|apply ends_ge_total|apply ends_ge_trans].
    split; [|done]. apply equity_for_id_of_row; [done..|].
    apply list_elem_of_filter in Hin as [_ Hin].
    by apply rows_of_symbol_elem_of in Hin.
  - right. split; [done|]. apply head_None in Hx.
    apply (f_equal length) in Hx. rewrite isort_length in Hx.
    by destruct (started _ _ _).
Qed.

(** C2, as amended.  Take the candidates of the rows of a symbol, in order,
    and a date that is a midnight (as [lookup_symbol] hands it to both
    resolvers), and assume that every window has both dates with the start
    not after the end, that no two rows of the symbol end on the same date,
    that the store has one row per sid and the memo table is fresh, and that
    at most one window contains the date.  Then the resolver that asks the
    store and the resolver that works on the candidates select the same
    instrument, or both report no match. *)
Theorem resolvers_agree py3 st symbol d infos :
  normalize_date d = d ->
  same_windows (rows_of_symbol (conn st) symbol) infos ->
  Forall closed_window (rows_of_symbol (conn st) symbol) ->
  NoDup (e_end_date_nano <$> rows_of_symbol (conn st) symbol) ->
  NoDup (e_sid <$> equities (conn st)) ->
  equity_memo_fresh st ->
  (length (covering (conn st) symbol d) <= 1)%nat ->
  store_outcome st symbol d = memory_outcome py3 infos d.
Proof.
  intros Hmid Hsame Hclosed Hends Hsids Hfresh Hone.
  pose proof (closed_pairs _ _ Hsame Hclosed) as Hpairs.
  pose proof (closed_pairs_ends _ _ Hpairs) as Hsome.
  unfold store_outcome, memory_outcome.
  rewrite lookup_symbol_resolve_multiple_dated, Hmid.
  rewrite lookup_in_infos_sorted by (right; by left).
  set (contains := fun i : Asset => window_contains d i = true).
  assert (Hcand : trading_at d (by_end infos) ≡ₚ filter contains infos)
    by apply trading_at_by_end.
  assert (Hcov : Forall2 closed_pair (covering (conn st) symbol d)
                         (filter contains infos)).
  { unfold covering. apply Forall2_filter; [|done].
    intros r i Hp. by apply closed_pair_contains. }
  destruct (covering (conn st) symbol d) as [|r [|r' l]] eqn:Ecov.
  - (* no window contains the date *)
    apply Forall2_nil_inv_l in Hcov. rewrite Hcov in Hcand.
    apply Permutation_nil_r in Hcand. rewrite Hcand.
    rewrite filter_by_ended
      by (unfold by_end; by rewrite isort_perm).
    cbn [rbind fst].
    assert (Hnone : forall r, r ∈ rows_of_symbol (conn st) symbol ->
                      started_by d r && not_ended_at d r = false).
    { intros r Hr. apply not_true_is_false. intros Hc.
      assert (Hin : r ∈ covering (conn st) symbol d)
        by (by apply list_elem_of_filter).
      rewrite Ecov in Hin. by inversion Hin. }
    pose proof (fallback_choice_agrees d _ _ Hpairs Hends Hnone) as Hagree.
    fold (started (conn st) symbol d) in Hagree.
    destruct (head (isort ends_ge (started (conn st) symbol d)))
      as [x|] eqn:Hx.
    + assert (Hxin : x ∈ equities (conn st)).
      { apply head_Some_elem_of, isort_elem_of in Hx.
        apply list_elem_of_filter in Hx as [_ Hx].
        by apply rows_of_symbol_elem_of in Hx. }
      rewrite equity_for_id_of_row by done.
      destruct (last _) as [i|]; [|done].
      cbn in Hagree. injection Hagree as Hagree.
      by rewrite <- Hagree.
    + cbn [fst]. by destruct (last _).
  - (* one window contains the date *)
    apply Forall2_cons_inv_l in Hcov as (i & k & Hp & Hk & Hi).
    apply Forall2_nil_inv_l in Hk as ->. rewrite Hi in Hcand.
    apply Permutation_singleton_r in Hcand. rewrite Hcand. cbn [fst].
    assert (Hrin : r ∈ equities (conn st)).
    { apply (rows_of_symbol_elem_of _ symbol).
      assert (Hin : r ∈ covering (conn st) symbol d) by (rewrite Ecov; left).
      apply list_elem_of_filter in Hin. tauto. }
    rewrite equity_for_id_of_row by done.
    destruct Hp as [(Hsid & _) _]. by rewrite Hsid.
  - simpl in Hone. lia.
Qed.

(** On the two equities with disjoint windows, between the windows: both
    resolvers fall back on the equity that ended last. *)
Lemma resolvers_agree_witness :
  store_outcome disjoint_windows "C" (3 * DAY)
  = memory_outcome true disjoint_windows_infos (3 * DAY).
Proof.
  apply (resolvers_agree true disjoint_windows "C" (3 * DAY)
           disjoint_windows_infos).
  - reflexivity.
  - vm_compute. repeat constructor.
  - vm_compute. repeat constructor.
    + exists 0, 172800000000000. done.
    + exists 345600000000000, 518400000000000. done.
  - compute_done.
  - compute_done.
  - intros s v H. vm_compute in H. discriminate H.
  - vm_compute. lia.
Defined.

Example both_resolvers_between_windows :
  store_outcome disjoint_windows "C" (3 * DAY) = Found 1
  /\ memory_outcome true disjoint_windows_infos (3 * DAY) = Found 1
  /\ store_outcome disjoint_windows "C" (5 * DAY) = Found 2
  /\ memory_outcome true disjoint_windows_infos (5 * DAY) = Found 2.
Proof. repeat split; by vm_compute. Qed.
(* ===================================================================== *)
(** ** The in-memory resolver *)
(* ===================================================================== *)

Lemma last_isort_greatest {A} (le : A -> A -> bool) (l : list A) x :
  (forall a b, le a b = true \/ le b a = true) ->
  (forall a b c, le a b = true -> le b c = true -> le a c = true) ->
  last (isort le l) = Some x ->
  x ∈ l /\ forall y, y ∈ l -> le y x = true.
Proof.
  intros Htotal Htrans Hlast. split.
  - apply last_Some_elem_of in Hlast. by apply isort_elem_of in Hlast.
  - intros y Hy. apply (sorted_last_greatest le (isort le l)).
    + intros a. by destruct (Htotal a a).
    + by apply isort_sorted.
    + done.
    + by apply isort_elem_of.
Qed.

(** Where the sort by end date has passed on two candidates or more, the
    candidates have an end date, all of them or none. *)
Lemma ends_sortable_alike py3 infos :
  ends_sortable py3 infos -> (2 <= length infos)%nat ->
  Forall (fun i => is_Some (end_date i)) infos
  \/ Forall (fun i => end_date i = None) infos.
Proof. intros [H|[H|[_ H]]] Hlen; [lia|by left|by right]. Qed.

Lemma Forall_trading_at (P : Asset -> Prop) d infos :
  Forall P infos -> Forall P (trading_at d infos).
Proof.
  rewrite !Forall_forall. intros H i Hi.
  apply trading_at_elem_of in Hi as [Hi _]. by apply H.
Qed.

Lemma starts_alike_perm l k : l ≡ₚ k -> starts_alike l -> starts_alike k.
Proof. intros Hp [H|H]; [left|right]; by rewrite <- Hp. Qed.

(** The branch of two candidates or more. *)
Lemma lookup_in_infos_best py3 infos d :
  ends_sortable py3 infos ->
  trading_at d infos <> [] ->
  starts_alike (trading_at d infos) ->
  exists i,
    _lookup_symbol_in_infos py3 infos d = Ok (Some i, true)
    /\ i ∈ trading_at d infos
    /\ forall j, j ∈ trading_at d infos -> window_le j i = true.
Proof.
  intros Hs Hne Hstarts. rewrite lookup_in_infos_sorted by done.
  pose proof (trading_at_by_end d infos) as Hperm.
  destruct (trading_at d (by_end infos)) as [|c [|c' l]] eqn:E.
  - apply Permutation_nil_l in Hperm. by rewrite <- Hperm in Hne.
  - apply Permutation_singleton_l in Hperm. rewrite <- Hperm.
    exists c. split; [done|]. split; [left|].
    intros j Hj. apply list_elem_of_singleton in Hj as ->.
    unfold window_le. rewrite bool_decide_eq_true_2 by done.
    unfold alike_le. destruct (end_date c); [lia|done].
  - assert (Hlen : (2 <= length infos)%nat).
    { apply Permutation_length in Hperm. cbn [length] in Hperm.
      assert (length (trading_at d infos) <= length infos)%nat
        by apply length_filter.
      lia. }
    assert (Hends : Forall (fun i => is_Some (end_date i)) (c :: c' :: l)
                    \/ Forall (fun i => end_date i = None) (c :: c' :: l)).
    { destruct (ends_sortable_alike py3 infos Hs Hlen) as [H|H];
        [left|right]; rewrite Hperm; by apply Forall_trading_at. }
    assert (Hst : starts_alike (c :: c' :: l)).
    { eapply starts_alike_perm; [|done]. by symmetry. }
    rewrite sorted_keys_ok by done. cbn [rbind].
    destruct (last (by_window (c :: c' :: l))) as [i|] eqn:Hl.
    + apply last_isort_greatest in Hl as [Hi Hmax];
        [|intros a b; apply lex_le_total
         |intros a b c0; apply lex_le_trans].
      exists i. split; [done|]. split; [by rewrite <- Hperm|].
      intros j Hj. rewrite <- Hperm in Hj.
      apply lex_le_window_le; [| |by apply Hmax].
      * by apply (Forall_alike start_date (c :: c' :: l)).
      * by apply (Forall_alike end_date (c :: c' :: l)).
    + apply last_None in Hl. apply (f_equal length) in Hl.
      unfold by_window in Hl. rewrite isort_length in Hl. done.
Qed.

(** X1.  The in-memory resolver and the dates it can compare.  The sort by
    end date raises [TypeError] unless there is at most one candidate, or
    every candidate has an end date, or none has one and the interpreter
    orders [None] against [None].  When it passes and the window of some
    candidate contains the date (an absent start or end being no bound),
    the resolver raises [TypeError] if some of these candidates have a
    start date and others have none; otherwise it marks its match as
    trading, and the match is one of these candidates, whose window is the
    latest: the latest start and, for equal starts, the latest end.  It
    never marks a match as trading when no window contains the date. *)
Theorem in_memory_trading_match py3 infos d :
  (~ ends_sortable py3 infos ->
   _lookup_symbol_in_infos py3 infos d = Raise TypeError)
  /\ (ends_sortable py3 infos -> trading_at d infos <> [] ->
      (starts_alike (trading_at d infos) ->
       exists i,
         _lookup_symbol_in_infos py3 infos d = Ok (Some i, true)
         /\ i ∈ infos /\ window_contains d i = true
         /\ forall j, j ∈ infos -> window_contains d j = true ->
                      window_le j i = true)
      /\ (~ starts_alike (trading_at d infos) ->
          _lookup_symbol_in_infos py3 infos d = Raise TypeError))
  /\ (forall r, _lookup_symbol_in_infos py3 infos d = Ok (r, true) ->
                exists i, i ∈ infos /\ window_contains d i = true).
Proof.
  split; [apply lookup_in_infos_refused|]. split.
  - intros Hs Hne. split.
    + intros Hst.
      destruct (lookup_in_infos_best py3 infos d Hs Hne Hst)
        as (i & Hres & Hi & Hmax).
      exists i. split; [done|]. apply trading_at_elem_of in Hi.
      split; [tauto|]. split; [tauto|].
      intros j Hj Hw. apply Hmax. by apply trading_at_elem_of.
    + intros Hst. rewrite lookup_in_infos_sorted by done.
      pose proof (trading_at_by_end d infos) as Hperm.
      destruct (trading_at d (by_end infos)) as [|c [|c' l]] eqn:E.
      * apply Permutation_nil_l in Hperm. by rewrite <- Hperm in Hne.
      * exfalso. apply Hst. apply Permutation_singleton_l in Hperm.
        rewrite <- Hperm. unfold starts_alike.
        destruct (start_date c) as [s|] eqn:Hc; [left|right];
          repeat constructor; [by eexists|done].
      * rewrite sorted_keys_mixed; [done|].
        intros H. apply Hst. by eapply starts_alike_perm.
  - intros r Hres.
    destruct (ends_sortable_dec py3 infos) as [Hs|Hs].
    2:{ by rewrite lookup_in_infos_refused in Hres. }
    rewrite lookup_in_infos_sorted in Hres by done.
    destruct (trading_at d (by_end infos)) as [|c l] eqn:E.
    + by destruct (filter_by _ _).
    + exists c. apply trading_at_elem_of.
      rewrite <- trading_at_by_end, E. left.
Qed.

Lemma fallback_latest_end py3 infos d :
  ends_sortable py3 infos ->
  (forall i, i ∈ infos -> window_contains d i = false) ->
  ((exists i, i ∈ infos /\ end_date i = None) ->
   _lookup_symbol_in_infos py3 infos d = Raise TypeError)
  /\ (Forall (fun i => is_Some (end_date i)) infos ->
      exists r,
        _lookup_symbol_in_infos py3 infos d = Ok (r, false)
        /\ match r with
           | Some i =>
               i ∈ infos /\ ended d i = true
               /\ forall j, j ∈ infos -> ended d j = true ->
                            ends_le j i = true
           | None => forall j, j ∈ infos -> ended d j = false
           end).
Proof.
  intros Hs Hnone. rewrite lookup_in_infos_sorted by done.
  assert (Hno : trading_at d (by_end infos) = []).
  { destruct (trading_at d (by_end infos)) as [|c l] eqn:E; [done|].
    assert (Hc : c ∈ trading_at d infos)
      by (rewrite <- trading_at_by_end, E; left).
    apply trading_at_elem_of in Hc as [Hc Hw].
    by rewrite (Hnone c Hc) in Hw. }
  rewrite Hno. split.
  - intros (i & Hi & Hend). rewrite filter_by_absent_end; [done|].
    exists i. by rewrite by_end_elem_of.
  - intros Hsome.
    rewrite filter_by_ended by (unfold by_end; by rewrite isort_perm).
    cbn [rbind]. eexists. split; [done|].
    set (G := filter (fun i => ended d i = true) (by_end infos)).
    assert (HG : forall i, i ∈ G <-> i ∈ infos /\ ended d i = true).
    { intros i. unfold G.
      rewrite list_elem_of_filter, by_end_elem_of. tauto. }
    destruct (last G) as [i|] eqn:Hl.
    + assert (Hi : i ∈ G) by by apply last_Some_elem_of.
      apply HG in Hi. split; [tauto|]. split; [tauto|].
      intros j Hj Hlt.
      assert (Hle : date_le (end_date j) (end_date i) = true).
      { apply (sorted_last_greatest
                 (fun a b => date_le (end_date a) (end_date b)) G).
        - intros a. apply date_le_refl.
        - apply sorted_filter, isort_sorted.
          + intros a b. apply date_le_total.
          + intros a b c. apply date_le_trans.
        - done.
        - by apply HG. }
      rewrite Forall_forall in Hsome.
      destruct (Hsome j Hj) as [ej Hej], (Hsome i (proj1 Hi)) as [ei Hei].
      unfold ends_le. by rewrite Hej, Hei in Hle |- *.
    + apply last_None in Hl. intros j Hj. apply not_true_is_false.
      intros Hlt. assert (Hin : j ∈ G) by (by apply HG).
      rewrite Hl in Hin. by inversion Hin.
Qed.

(** X2.  When no window contains the date (and the sort by end date has
    passed), the in-memory resolver compares the end date of every
    candidate with the date.  If a candidate has no end date this raises
    [TypeError]; if all have one, the resolver marks its answer as not
    trading and answers with a candidate that ended before the date and
    whose end date is the latest of these, or with [None] when no candidate
    ended before the date. *)
Theorem in_memory_fallback py3 infos d :
  ends_sortable py3 infos ->
  (forall i, i ∈ infos -> window_contains d i = false) ->
  ((exists i, i ∈ infos /\ end_date i = None) ->
   _lookup_symbol_in_infos py3 infos d = Raise TypeError)
  /\ (Forall (fun i => is_Some (end_date i)) infos ->
      exists r,
        _lookup_symbol_in_infos py3 infos d = Ok (r, false)
        /\ match r with
           | Some i =>
               i ∈ infos /\ ended d i = true
               /\ forall j, j ∈ infos -> ended d j = true ->
                            ends_le j i = true
           | None => forall j, j ∈ infos -> ended d j = false
           end).
Proof. apply fallback_latest_end. Qed.

(** X3.  The sentence of the docstring: if no entry started on or before
    the date, the answer is [(None, False)].  It holds for candidates that
    have both dates with the start not after the end. *)
Theorem in_memory_nothing_started py3 infos d :
  (forall i, i ∈ infos ->
     exists s e, start_date i = Some s /\ end_date i = Some e /\
                 s <= e /\ d < s) ->
  _lookup_symbol_in_infos py3 infos d = Ok (None, false).
Proof.
  intros Hlate.
  assert (Hsome : Forall (fun i => is_Some (end_date i)) infos).
  { rewrite Forall_forall. intros i Hi.
    destruct (Hlate i Hi) as (s & e & _ & -> & _). by eexists. }
  assert (Hnone : forall i, i ∈ infos -> window_contains d i = false).
  { intros i Hi. destruct (Hlate i Hi) as (s & e & Hs & He & Hse & Hds).
    unfold window_contains. rewrite Hs, He.
    apply andb_false_iff. left. apply Z.leb_gt. lia. }
  destruct (fallback_latest_end py3 infos d) as [_ Hres];
    [right; by left|done|].
  destruct (Hres Hsome) as ([i|] & -> & Hr); [|done].
  exfalso. destruct Hr as (Hi & Hlt & _).
  destruct (Hlate i Hi) as (s & e & Hs & He & Hse & Hds).
  unfold ended in Hlt. rewrite He in Hlt. apply Z.ltb_lt in Hlt. lia.
Qed.

Ltac each_elem H tac :=
  repeat (apply elem_of_cons in H as [->|H]; [tac|]);
  try (by apply elem_of_nil in H).

Lemma in_memory_fallback_witness :
  ((exists i, i ∈ disjoint_windows_infos /\ end_date i = None) ->
   _lookup_symbol_in_infos true disjoint_windows_infos (3 * DAY)
   = Raise TypeError)
  /\ (Forall (fun i => is_Some (end_date i)) disjoint_windows_infos ->
      exists r,
        _lookup_symbol_in_infos true disjoint_windows_infos (3 * DAY)
        = Ok (r, false)
        /\ match r with
           | Some i =>
               i ∈ disjoint_windows_infos /\ ended (3 * DAY) i = true
               /\ forall j, j ∈ disjoint_windows_infos ->
                            ended (3 * DAY) j = true ->
                            ends_le j i = true
           | None =>
               forall j, j ∈ disjoint_windows_infos ->
                         ended (3 * DAY) j = false
           end).
Proof.
  apply (in_memory_fallback true disjoint_windows_infos (3 * DAY)).
  - right. left. repeat constructor; by eexists.
  - intros i Hi. unfold disjoint_windows_infos in Hi.
    each_elem Hi ltac:(vm_compute; reflexivity).
Defined.

Lemma in_memory_nothing_started_witness :
  _lookup_symbol_in_infos true disjoint_windows_infos (- DAY)
  = Ok (None, false).
Proof.
  apply (in_memory_nothing_started true disjoint_windows_infos (- DAY)).
  intros i Hi. unfold disjoint_windows_infos in Hi.
  each_elem Hi ltac:(eexists _, _; repeat split; vm_compute; congruence).
Defined.

(** The two candidates of the symbol A on day 1, when both trade: the one
    that started last. *)
Example in_memory_overlap :
  forall py3,
    _lookup_symbol_in_infos py3 two_equities_infos DAY
    = Ok (nth_error two_equities_infos 1, true).
Proof. by intros [|]; vm_compute. Qed.

(** Where the code raises.  One candidate without an end date that starts
    after the date: the fallback compares [None] with the date.  Two
    candidates of which one has no end date: the sort by end date compares
    [None] with a Timestamp.  Two trading candidates of which one has no
    start date: the sort by start date does.  Two candidates without end
    dates: the sort passes on Python 2 only. *)
Example in_memory_refusals :
  (forall py3,
      _lookup_symbol_in_infos py3 open_end_late_infos DAY = Raise TypeError)
  /\ (forall py3,
        _lookup_symbol_in_infos py3 mixed_ends_infos DAY = Raise TypeError)
  /\ (forall py3,
        _lookup_symbol_in_infos py3 mixed_starts_infos DAY
        = Raise TypeError)
  /\ _lookup_symbol_in_infos true no_ends_infos DAY = Raise TypeError
  /\ _lookup_symbol_in_infos false no_ends_infos DAY
     = Ok (nth_error no_ends_infos 1, true).
Proof. repeat split; try intros [|]; by vm_compute. Qed.

(** One candidate with an open window is returned without any comparison
    of an absent date. *)
Example in_memory_open_window :
  forall py3,
    _lookup_symbol_in_infos py3 open_start_infos DAY
    = Ok (head open_start_infos, true).
Proof. by intros [|]; vm_compute. Qed.

(* ===================================================================== *)
(** ** The resolver that asks the store: the working branches *)
(* ===================================================================== *)

Lemma lookup_symbol_one_window_witness :
  fst (lookup_symbol_resolve_multiple "C" (Some (5 * DAY)) disjoint_windows)
  = Ok (Some (equity_of_row
                {| e_sid := 2; e_symbol := "C"; e_asset_name := "";
                   e_start_date_nano := Some (4 * DAY);
                   e_end_date_nano := Some (6 * DAY);
                   e_first_traded_nano := None; e_exchange := "" |})).
Proof.
  apply (lookup_symbol_one_window disjoint_windows "C" (5 * DAY)).
  - compute_done.
  - intros s v H. vm_compute in H. discriminate H.
  - vm_compute. reflexivity.
Defined.

Lemma lookup_symbol_no_window_witness :
  (exists r,
      fst (lookup_symbol_resolve_multiple "C" (Some (3 * DAY))
                                          disjoint_windows)
      = Ok (Some (equity_of_row r))
      /\ r ∈ started (conn disjoint_windows) "C" (normalize_date (3 * DAY))
      /\ forall r',
           r' ∈ started (conn disjoint_windows) "C"
                        (normalize_date (3 * DAY)) ->
           date_le (e_end_date_nano r') (e_end_date_nano r) = true)
  \/ (fst (lookup_symbol_resolve_multiple "C" (Some (3 * DAY))
                                          disjoint_windows)
      = Raise (SymbolNotFound (VStr "C"))
      /\ started (conn disjoint_windows) "C" (normalize_date (3 * DAY)) = []).
Proof.
  apply (lookup_symbol_no_window disjoint_windows "C" (3 * DAY)).
  - compute_done.
  - intros s v H. vm_compute in H. discriminate H.
  - vm_compute. reflexivity.
Defined.

(* ===================================================================== *)
(** ** Lookup by symbol without a fuzzy string *)
(* ===================================================================== *)

Lemma normalize_date_idempotent d :
  normalize_date (normalize_date d) = normalize_date d.
Proof.
  unfold normalize_date.
  assert (H : (d - d mod NANOS_PER_DAY) mod NANOS_PER_DAY = 0).
  { pose proof (Z.div_mod d NANOS_PER_DAY) as Hd.
    replace (d - d mod NANOS_PER_DAY)
      with (d / NANOS_PER_DAY * NANOS_PER_DAY)
      by (unfold NANOS_PER_DAY in *; lia).
    apply Z_mod_mult. }
  rewrite H. lia.
Qed.

Lemma lookup_symbol_resolve_multiple_midnight symbol d st :
  lookup_symbol_resolve_multiple symbol (Some (normalize_date d)) st =
  lookup_symbol_resolve_multiple symbol (Some d) st.
Proof.
  rewrite !lookup_symbol_resolve_multiple_dated.
  by rewrite normalize_date_idempotent.
Qed.

(** X6.  Without a fuzzy string ([None] or the empty string),
    [lookup_symbol] answers for the upper-cased symbol what
    [lookup_symbol_resolve_multiple] answers for it on that date, except
    that [SymbolNotFound] becomes the answer [None]; any other exception of
    the resolver leaves the call. *)
Theorem lookup_symbol_without_fuzzy py3 st symbol d fuzzy :
  fuzzy = None \/ fuzzy = Some "" ->
  lookup_symbol py3 symbol d fuzzy st =
  match lookup_symbol_resolve_multiple (upper symbol) (Some d) st with
  | (Raise (SymbolNotFound _), st') => (Ok None, st')
  | answer => answer
  end.
Proof.
  intros Hfuzzy.
  assert (Hcall : lookup_symbol py3 symbol d fuzzy st =
            try_except
              (lookup_symbol_resolve_multiple (upper symbol)
                 (Some (normalize_date d)))
              is_SymbolNotFound (fun _ => ret None) st).
  { by destruct Hfuzzy as [-> | ->]. }
  rewrite Hcall. unfold try_except.
  rewrite lookup_symbol_resolve_multiple_midnight.
  destruct (lookup_symbol_resolve_multiple (upper symbol) (Some d) st)
    as [[v|x] st']; [done|].
  by destruct x.
Qed.

Lemma lookup_symbol_without_fuzzy_witness :
  lookup_symbol true "c" (- DAY) None disjoint_windows =
  match lookup_symbol_resolve_multiple (upper "c") (Some (- DAY))
                                       disjoint_windows with
  | (Raise (SymbolNotFound _), st') => (Ok None, st')
  | answer => answer
  end.
Proof.
  apply (lookup_symbol_without_fuzzy true disjoint_windows "c" (- DAY) None).
  by left.
Defined.

(** Before the first window of the symbol the lookup is unresolved, and on
    overlapping windows the failure of the third statement leaves the
    call. *)
Example lookup_symbol_unresolved :
  fst (lookup_symbol true "c" (- DAY) None disjoint_windows) = Ok None
  /\ fst (lookup_symbol true "a" DAY None two_equities)
     = Raise (OperationalError "desclimit").
Proof. split; by vm_compute. Qed.

(* ===================================================================== *)
(** ** The router and [retrieve_asset] *)
(* ===================================================================== *)

Lemma asset_type_by_sid_body_spec s st :
  asset_type_by_sid_body s st =
  (Ok (r_asset_type <$> head (router_entries (conn st) s)), st).
Proof.
  unfold asset_type_by_sid_body, bind, run_query.
  rewrite execute_query_asset_type.
  unfold fetchone_dict, fetchall_dicts. cbn [Sql.fetched Sql.description].
  destruct (router_entries (conn st) s) as [|e l]; [done|].
  cbn [map head fmap option_fmap option_map]. unfold lift, getitem, dict_factory.
  cbn [zip zip_with list_to_map uncurry foldr fst snd].
  by rewrite lookup_insert_eq.
Qed.


Lemma asset_type_by_sid_first_call s st :
  asset_type_by_sid_memo st !! s = None ->
  asset_type_by_sid s st =
  (Ok (r_asset_type <$> head (router_entries (conn st) s)),
   set_asset_type_by_sid_memo
     (<[s := r_asset_type <$> head (router_entries (conn st) s)]>
        (asset_type_by_sid_memo st)) st).
Proof.
  intros Hm. unfold asset_type_by_sid, lru_cache.
  by rewrite Hm, asset_type_by_sid_body_spec.
Qed.



(* ===================================================================== *)
(** ** Ingestion and retrieval *)
(* ===================================================================== *)

(** [store_asset] builds the asset, then makes its two inserts. *)
Lemma store_asset_build t e db :
  store_asset t e db =
  match build_asset t e with
  | Ok x => Ok (insert_asset x db)
  | Raise err => Raise err
  end.
Proof.
  unfold store_asset, build_asset. destruct t as [| |t| |]; try done.
  destruct (String.eqb (lower t) "equity").
  - unfold new_Equity. by destruct (asset_fields_of e).
  - destruct (String.eqb (lower t) "future"); [|done].
    unfold new_Future. destruct (asset_fields_of e) as [a|]; [|done].
    cbn [rbind].
    destruct (kw_string e "root_symbol"); [|done]. cbn [rbind].
    destruct (kw_date e "notice_date"); [|done]. cbn [rbind].
    destruct (kw_date e "expiration_date"); [|done]. cbn [rbind].
    by destruct (kw_float e "contract_multiplier").
Qed.

(** The whole of [insert_metadata]: normalize the entry, build the asset,
    insert it and record the entry; a failure on the way writes back only
    to an entry that was in the cache. *)
Lemma insert_metadata_equation ident kwargs st :
  insert_metadata ident kwargs st =
  let cached := metadata_cache st !! ident in
  let mutated (e : gmap string value) :=
    match cached with
    | Some _ => set_metadata_cache (<[ident := e]> (metadata_cache st)) st
    | None => st
    end in
  match normalize_entry ident (allow_sid_assignment st)
                        (size (metadata_cache st)) kwargs
                        (default ∅ cached) with
  | (Raise err, e) => (Raise err, mutated e)
  | (Ok t, e) =>
      match build_asset t e with
      | Raise err => (Raise err, mutated e)
      | Ok x =>
          (Ok tt,
           set_metadata_cache (<[ident := e]> (metadata_cache st))
                              (set_conn (insert_asset x (conn st)) st))
      end
  end.
Proof.
  unfold insert_metadata. cbv zeta.
  destruct (normalize_entry _ _ _ _ _) as [[t|err] e]; [|done].
  rewrite store_asset_build. by destruct (build_asset t e).
Qed.

(** The sid and the type of a built asset are those of the entry. *)
Lemma asset_fields_of_sid e a :
  asset_fields_of e = Ok a -> e !! "sid" = Some (VInt (a_sid a)).
Proof.
  unfold asset_fields_of, kw_sid.
  destruct (e !! "sid") as [[|z| | |]|]; try done. cbn [rbind].
  destruct (kw_string e "symbol"); [|done]. cbn [rbind].
  destruct (kw_string e "asset_name"); [|done]. cbn [rbind].
  destruct (kw_date e "start_date"); [|done]. cbn [rbind].
  destruct (kw_date e "end_date"); [|done]. cbn [rbind].
  destruct (kw_date e "first_traded"); [|done]. cbn [rbind].
  destruct (kw_string e "exchange"); [|done]. cbn [rbind].
  by intros [= <-].
Qed.

Lemma build_asset_sid t e x :
  build_asset t e = Ok x -> e !! "sid" = Some (VInt (sid x)).
Proof.
  unfold build_asset. destruct t as [| |t| |]; try done.
  destruct (String.eqb (lower t) "equity").
  - unfold new_Equity. destruct (asset_fields_of e) as [a|] eqn:Ha; [|done].
    intros [= <-]. by apply asset_fields_of_sid.
  - destruct (String.eqb (lower t) "future"); [|done].
    unfold new_Future. destruct (asset_fields_of e) as [a|] eqn:Ha; [|done].
    cbn [rbind].
    destruct (kw_string e "root_symbol"); [|done]. cbn [rbind].
    destruct (kw_date e "notice_date"); [|done]. cbn [rbind].
    destruct (kw_date e "expiration_date"); [|done]. cbn [rbind].
    destruct (kw_float e "contract_multiplier"); [|done]. cbn [rbind].
    intros [= <-]. by apply asset_fields_of_sid.
Qed.

(** After the inserts for an asset whose sid the store did not know,
    [retrieve_asset] finds the type in the router and the row in the table
    of that type. *)
Lemma retrieve_after_insert st x st1 :
  unknown_sid st (sid x) ->
  conn st1 = insert_asset x (conn st) ->
  asset_type_by_sid_memo st1 = asset_type_by_sid_memo st ->
  equity_for_id_memo st1 = equity_for_id_memo st ->
  futures_contract_for_id_memo st1 = futures_contract_for_id_memo st ->
  exists st2,
    retrieve_asset (inr (sid x)) false st1 = (Ok (Some (as_stored x)), st2).
Proof.
  intros (Hr & He & Hf & Hm1 & Hm2 & Hm3) Hconn Ht1 Ht2 Ht3.
  unfold retrieve_asset, bind at 1.
  rewrite asset_type_by_sid_first_call by (by rewrite Ht1).
  rewrite Hconn. unfold router_entries, equity_rows, future_rows in *.
  destruct x as [a|a f]; cbn [insert_asset insert_equity insert_future
                               asset_router sid fields] in *.
  - rewrite filter_app, Hr, filter_cons, decide_True by done.
    cbn [app filter head fmap option_fmap option_map r_asset_type].
    unfold bind. unfold equity_for_id, lru_cache.
    cbn [equity_for_id_memo set_asset_type_by_sid_memo].
    rewrite Ht2, Hm2, equity_for_id_body_spec.
    cbn [conn set_asset_type_by_sid_memo]. rewrite Hconn.
    unfold equity_row. cbn [insert_equity equities].
    rewrite filter_app, He, filter_cons, decide_True by done.
    cbn. eauto.
  - rewrite filter_app, Hr, filter_cons, decide_True by done.
    cbn [app filter head fmap option_fmap option_map r_asset_type].
    unfold bind. unfold futures_contract_for_id, lru_cache.
    cbn [futures_contract_for_id_memo set_asset_type_by_sid_memo].
    rewrite Ht3, Hm3, futures_contract_for_id_body_spec.
    cbn [conn set_asset_type_by_sid_memo]. rewrite Hconn.
    unfold future_row. cbn [insert_future futures].
    rewrite filter_app, Hf, filter_cons, decide_True by done.
    cbn. eauto.
Qed.

Lemma restored_nonzero o : o <> Some 0 -> restored o = o.
Proof. destruct o as [[| |]|]; done. Qed.

Lemma as_stored_survives x : survives_storage x -> as_stored x = x.
Proof.
  destruct x as [a|a f]; unfold survives_storage, as_stored, equity_of_row,
    future_of_row; cbn.
  - intros (Hs & He & Hf). destruct a; cbn in *.
    rewrite !restored_nonzero by done. by subst.
  - intros (Hs & He & Hf & Hn & Hx). destruct a, f; cbn in *.
    by rewrite !restored_nonzero by done.
Qed.

(** X9.  Round trip of ingestion and retrieval.  When [insert_metadata]
    returns, it has built an asset whose sid is the one recorded in the
    cached entry and has added its row and router entry; if the store knew
    nothing of that sid before, [retrieve_asset] on that sid returns the
    asset as stored, which is the asset itself as soon as none of its dates
    is the epoch and, for an equity, it has no first trade. *)
Theorem ingest_then_retrieve ident kwargs st st' :
  insert_metadata ident kwargs st = (Ok tt, st') ->
  exists x e,
    metadata_cache st' !! ident = Some e
    /\ e !! "sid" = Some (VInt (sid x))
    /\ conn st' = insert_asset x (conn st)
    /\ (unknown_sid st (sid x) ->
        (exists st'', retrieve_asset (inr (sid x)) false st'
                      = (Ok (Some (as_stored x)), st''))
        /\ (survives_storage x -> as_stored x = x)).
Proof.
  rewrite insert_metadata_equation. cbv zeta.
  destruct (normalize_entry _ _ _ _ _) as [[t|err] e]; [|done].
  destruct (build_asset t e) as [x|err] eqn:Hx; [|done].
  intros [= <-]. exists x, e.
  cbn [metadata_cache set_metadata_cache conn set_conn].
  split; [apply lookup_insert_eq|].
  split; [by eapply build_asset_sid|]. split; [done|].
  intros Hunknown. split; [|apply as_stored_survives].
  by apply (retrieve_after_insert st).
Qed.

Lemma ingest_then_retrieve_witness :
  exists x e,
    metadata_cache
      (insert_metadata (IdInt 9) [("symbol", VStr "Z"); ("start_date", VInt DAY)]
                       two_equities).2 !! IdInt 9 = Some e
    /\ e !! "sid" = Some (VInt (sid x))
    /\ conn (insert_metadata (IdInt 9)
               [("symbol", VStr "Z"); ("start_date", VInt DAY)]
               two_equities).2
       = insert_asset x (conn two_equities)
    /\ (unknown_sid two_equities (sid x) ->
        (exists st'',
            retrieve_asset (inr (sid x)) false
              (insert_metadata (IdInt 9)
                 [("symbol", VStr "Z"); ("start_date", VInt DAY)]
                 two_equities).2
            = (Ok (Some (as_stored x)), st''))
        /\ (survives_storage x -> as_stored x = x)).
Proof.
  apply (ingest_then_retrieve (IdInt 9)
           [("symbol", VStr "Z"); ("start_date", VInt DAY)] two_equities).
  vm_compute. reflexivity.
Defined.

Example round_trip_of_sid_nine :
  fst (retrieve_asset (inr 9) false
         (insert_metadata (IdInt 9)
            [("symbol", VStr "Z"); ("start_date", VInt DAY)] two_equities).2)
  = Ok (Some (Equity {| a_sid := 9; a_symbol := "Z"; a_asset_name := "";
                        a_start_date := Some DAY; a_end_date := None;
                        a_first_traded := None; a_exchange := "" |})).
Proof. by vm_compute. Qed.

(* ===================================================================== *)
(** ** The memo tables and ingestion *)
(* ===================================================================== *)

(** A call of [insert_metadata], returning or raising, leaves the three memo
    tables, the in-memory candidates and the fuzzy matches as they were. *)
Lemma insert_metadata_memos ident kwargs st :
  let st' := (insert_metadata ident kwargs st).2 in
  asset_type_by_sid_memo st' = asset_type_by_sid_memo st
  /\ equity_for_id_memo st' = equity_for_id_memo st
  /\ futures_contract_for_id_memo st' = futures_contract_for_id_memo st
  /\ sym_cache st' = sym_cache st
  /\ fuzzy_match st' = fuzzy_match st
  /\ allow_sid_assignment st' = allow_sid_assignment st.
Proof.
  rewrite insert_metadata_equation. cbv zeta.
  destruct (normalize_entry _ _ _ _ _) as [[t|err] e].
  - destruct (build_asset t e); [done|].
    by destruct (metadata_cache st !! ident).
  - by destruct (metadata_cache st !! ident).
Qed.

Lemma ingest_memos calls st :
  asset_type_by_sid_memo (ingest calls st) = asset_type_by_sid_memo st
  /\ equity_for_id_memo (ingest calls st) = equity_for_id_memo st
  /\ futures_contract_for_id_memo (ingest calls st)
     = futures_contract_for_id_memo st.
Proof.
  revert st. induction calls as [|[i kw] calls IH]; intros st; [done|].
  change (ingest ((i, kw) :: calls) st)
    with (ingest calls (insert_metadata i kw st).2).
  destruct (IH (insert_metadata i kw st).2) as (-> & -> & ->).
  destruct (insert_metadata_memos i kw st) as (-> & -> & -> & _). done.
Qed.

(** X10.  Ingestion never refreshes a memo table.  Once a sid was asked for
    while it had no router entry, the recorded [None] survives every
    sequence of ingestion calls: [retrieve_asset] keeps raising
    [SidNotFound] for that sid (and keeps returning [None] with
    [default_none]), ingested or not, and changes nothing. *)
Theorem stale_memo_hides_asset st s calls :
  asset_type_by_sid_memo st !! s = Some None ->
  retrieve_asset (inr s) false (ingest calls st)
  = (Raise (SidNotFound s), ingest calls st)
  /\ retrieve_asset (inr s) true (ingest calls st)
     = (Ok None, ingest calls st).
Proof.
  intros Hm. destruct (ingest_memos calls st) as (Ht & _).
  unfold retrieve_asset, bind, asset_type_by_sid, lru_cache.
  rewrite Ht, Hm. done.
Qed.

Lemma stale_memo_hides_asset_witness :
  retrieve_asset (inr 5) false
    (ingest [(IdInt 5, [("symbol", VStr "E")])] asked_too_early)
  = (Raise (SidNotFound 5),
     ingest [(IdInt 5, [("symbol", VStr "E")])] asked_too_early)
  /\ retrieve_asset (inr 5) true
       (ingest [(IdInt 5, [("symbol", VStr "E")])] asked_too_early)
     = (Ok None, ingest [(IdInt 5, [("symbol", VStr "E")])] asked_too_early).
Proof.
  apply (stale_memo_hides_asset asked_too_early 5
           [(IdInt 5, [("symbol", VStr "E")])]).
  vm_compute. reflexivity.
Defined.

(** The row and the router entry of sid 5 are there all the same. *)
Example stale_memo_row_present :
  map e_sid (equities (conn (ingest [(IdInt 5, [("symbol", VStr "E")])]
                                    asked_too_early))) = [5]
  /\ map r_asset_type
       (router_entries (conn (ingest [(IdInt 5, [("symbol", VStr "E")])]
                                     asked_too_early)) 5) = ["equity"].
Proof. split; by vm_compute. Qed.

(* ===================================================================== *)
(** ** The entry that ingestion normalizes *)
(* ===================================================================== *)

Lemma rename_field_other old new (e : gmap string value) k :
  k <> old -> k <> new -> rename_field old new e !! k = e !! k.
Proof.
  intros. unfold rename_field. destruct (e !! old); [|done].
  by rewrite lookup_insert_ne, lookup_delete_ne.
Qed.

Lemma rename_field_old old new (e : gmap string value) :
  old <> new -> rename_field old new e !! old = None.
Proof.
  intros. unfold rename_field. destruct (e !! old) eqn:E; [|done].
  by rewrite lookup_insert_ne, lookup_delete_eq.
Qed.

Lemma pd_Timestamp_is_timestamp v ts : pd_Timestamp v = Ok ts -> is_timestamp ts.
Proof.
  unfold is_timestamp. destruct v as [| | |[|]|]; cbn; intros [= <-]; eauto.
Qed.

Lemma to_timestamp_ok k (e e' : gmap string value) :
  to_timestamp k e = (Ok tt, e') ->
  (forall k', k' <> k -> e' !! k' = e !! k')
  /\ match e !! k with
     | Some v => exists ts, pd_Timestamp v = Ok ts /\ e' !! k = Some ts
     | None => e' !! k = None
     end.
Proof.
  unfold to_timestamp. destruct (e !! k) as [v|] eqn:E.
  - destruct (pd_Timestamp v) as [ts|] eqn:Hts; [|done]. intros [= <-].
    split.
    + intros k' Hk'. by rewrite lookup_insert_ne.
    + exists ts. by rewrite lookup_insert_eq.
  - intros [= <-]. by rewrite E.
Qed.

Lemma normalize_entry_ok ident allow n kwargs (e0 : gmap string value) t e :
  normalize_entry ident allow n kwargs e0 = (Ok t, e) ->
  exists e2,
    assign_sid ident allow n (filter_fields kwargs e0) = (Ok tt, e2)
    /\ (forall k, k ∉ date_keys -> k <> "asset_type" ->
                  e !! k = aliased ident e2 !! k)
    /\ (forall k, k ∈ date_keys ->
          match aliased ident e2 !! k with
          | Some v => exists ts, pd_Timestamp v = Ok ts /\ e !! k = Some ts
          | None => e !! k = None
          end)
    /\ e !! "asset_type" = None
    /\ t = default (VStr "equity") (aliased ident e2 !! "asset_type").
Proof.
  unfold normalize_entry, bind, modify.
  destruct (assign_sid ident allow n (filter_fields kwargs e0))
    as [[[]|err] e2] eqn:Hsid; [|done].
  fold (aliased ident e2). set (e3 := aliased ident e2).
  destruct (to_timestamp "start_date" e3) as [[[]|?] e4] eqn:H1; [|done].
  destruct (to_timestamp "end_date" e4) as [[[]|?] e5] eqn:H2; [|done].
  destruct (to_timestamp "notice_date" e5) as [[[]|?] e6] eqn:H3; [|done].
  destruct (to_timestamp "expiration_date" e6) as [[[]|?] e7] eqn:H4; [|done].
  apply to_timestamp_ok in H1 as [H1o H1k], H2 as [H2o H2k],
    H3 as [H3o H3k], H4 as [H4o H4k].
  unfold pop_asset_type. intros Hpop. exists e2. split; [done|].
  assert (He : e = delete "asset_type" e7
               /\ t = default (VStr "equity") (e7 !! "asset_type")).
  { destruct (e7 !! "asset_type") eqn:E; injection Hpop as <- <-; [done|].
    split; [|done]. symmetry. by apply delete_id. }
  destruct He as [-> ->].
  split; [|split; [|split]].
  - intros k Hk Hka. rewrite lookup_delete_ne by done.
    rewrite H4o, H3o, H2o, H1o; [done|..];
      intros ->; apply Hk; unfold date_keys; compute_done.
  - intros k Hk. unfold date_keys in Hk.
    rewrite lookup_delete_ne
      by (intros <-; apply (bool_decide_pack _) in Hk; by vm_compute in Hk).
    apply elem_of_cons in Hk as [->|Hk].
    { rewrite H4o, H3o, H2o by done. exact H1k. }
    apply elem_of_cons in Hk as [->|Hk].
    { rewrite H4o, H3o by done. rewrite H1o in H2k by done. exact H2k. }
    apply elem_of_cons in Hk as [->|Hk].
    { rewrite H4o by done. rewrite H2o, H1o in H3k by done. exact H3k. }
    apply list_elem_of_singleton in Hk as ->.
    rewrite H3o, H2o, H1o in H4k by done. exact H4k.
  - apply lookup_delete_eq.
  - by rewrite H4o, H3o, H2o, H1o.
Qed.

Lemma rename_field_new old new (e : gmap string value) :
  rename_field old new e !! new
  = match e !! old with Some v => Some v | None => e !! new end.
Proof.
  unfold rename_field. destruct (e !! old); [|done].
  by rewrite lookup_insert_eq.
Qed.

Lemma default_symbol_other ident (e : gmap string value) k :
  k <> "symbol" -> default_symbol ident e !! k = e !! k.
Proof.
  intros. unfold default_symbol.
  destruct (e !! "symbol"), ident; try done. by rewrite lookup_insert_ne.
Qed.

Lemma default_symbol_symbol ident (e : gmap string value) v :
  e !! "symbol" = Some v -> default_symbol ident e !! "symbol" = Some v.
Proof. intros H. unfold default_symbol. by rewrite H. Qed.

Lemma default_symbol_string s (e : gmap string value) :
  default_symbol (IdStr s) e !! "symbol"
  = Some (default (VStr s) (e !! "symbol")).
Proof.
  unfold default_symbol. destruct (e !! "symbol") eqn:E; [done|].
  by rewrite lookup_insert_eq.
Qed.

Lemma company_name_alias_other (e : gmap string value) k :
  k <> "company_name" -> k <> "asset_name" ->
  company_name_alias e !! k = e !! k.
Proof.
  intros. unfold company_name_alias. destruct (e !! "company_name"); [|done].
  destruct (delete "company_name" e !! "asset_name").
  - by rewrite lookup_delete_ne.
  - by rewrite lookup_insert_ne, lookup_delete_ne.
Qed.

Lemma company_name_alias_old (e : gmap string value) :
  company_name_alias e !! "company_name" = None.
Proof.
  unfold company_name_alias. destruct (e !! "company_name") eqn:E; [|done].
  destruct (delete "company_name" e !! "asset_name").
  - by rewrite lookup_delete_eq.
  - by rewrite lookup_insert_ne, lookup_delete_eq.
Qed.

Lemma company_name_alias_asset_name (e : gmap string value) :
  company_name_alias e !! "asset_name"
  = match e !! "asset_name" with
    | Some w => Some w
    | None => e !! "company_name"
    end.
Proof.
  unfold company_name_alias. destruct (e !! "company_name") eqn:E.
  - rewrite lookup_delete_ne by done.
    destruct (e !! "asset_name") eqn:E'.
    + by rewrite lookup_delete_ne.
    + by rewrite lookup_insert_eq.
  - by destruct (e !! "asset_name").
Qed.

Ltac alias_other :=
  repeat first [ rewrite rename_field_other by done
               | rewrite company_name_alias_other by done
               | rewrite default_symbol_other by done ].

Lemma aliased_sid ident (e : gmap string value) :
  aliased ident e !! "sid" = e !! "sid".
Proof. unfold aliased. by alias_other. Qed.

Lemma aliased_asset_type ident (e : gmap string value) :
  aliased ident e !! "asset_type" = e !! "asset_type".
Proof. unfold aliased. by alias_other. Qed.

Lemma aliased_alias_keys ident (e : gmap string value) k :
  k ∈ alias_keys -> k <> "asset_type" -> aliased ident e !! k = None.
Proof.
  intros Hk Hne. unfold alias_keys in Hk. unfold aliased.
  repeat (apply elem_of_cons in Hk as [->|Hk];
          [by repeat first [ apply rename_field_old; done
                           | apply company_name_alias_old
                           | rewrite rename_field_other by done
                           | rewrite company_name_alias_other by done
                           | rewrite default_symbol_other by done ]|]).
  by apply elem_of_nil in Hk.
Qed.

Lemma aliased_symbol_of_file_name ident (e : gmap string value) v :
  e !! "file_name" = Some v -> aliased ident e !! "symbol" = Some v.
Proof.
  intros H. unfold aliased.
  rewrite !rename_field_other by done.
  rewrite company_name_alias_other by done.
  apply default_symbol_symbol. by rewrite rename_field_new, H.
Qed.

Lemma aliased_symbol_of_string s (e : gmap string value) :
  is_Some (aliased (IdStr s) e !! "symbol").
Proof.
  unfold aliased. rewrite !rename_field_other by done.
  rewrite company_name_alias_other by done.
  by rewrite default_symbol_string.
Qed.

Lemma aliased_symbol_default s (e : gmap string value) :
  e !! "file_name" = None ->
  aliased (IdStr s) e !! "symbol" = Some (default (VStr s) (e !! "symbol")).
Proof.
  intros H. unfold aliased. rewrite !rename_field_other by done.
  rewrite company_name_alias_other by done.
  by rewrite default_symbol_string, rename_field_new, H.
Qed.

Lemma aliased_asset_name ident (e : gmap string value) v :
  e !! "company_name" = Some v ->
  aliased ident e !! "asset_name" = Some (default v (e !! "asset_name")).
Proof.
  intros H. unfold aliased. rewrite !rename_field_other by done.
  rewrite company_name_alias_asset_name.
  rewrite !default_symbol_other, !rename_field_other by done.
  rewrite H. by destruct (e !! "asset_name").
Qed.

Lemma aliased_plain ident (e : gmap string value) k :
  k ∈ ["root_symbol"; "first_traded"; "exchange"; "contract_multiplier"] ->
  aliased ident e !! k = e !! k.
Proof.
  intros Hk. unfold aliased.
  repeat (apply elem_of_cons in Hk as [->|Hk]; [by alias_other|]).
  by apply elem_of_nil in Hk.
Qed.

Lemma assign_sid_ok ident allow n (e1 e2 : gmap string value) :
  assign_sid ident allow n e1 = (Ok tt, e2) ->
  e2 !! "sid" = Some (resolved_sid ident n e1)
  /\ (forall k, k <> "sid" -> e2 !! k = e1 !! k)
  /\ (e1 !! "sid" = None ->
      match ident with IdStr _ => allow = true | IdInt _ => True end).
Proof.
  unfold assign_sid, resolved_sid.
  destruct (e1 !! "sid") as [v|] eqn:E.
  - intros [= <-]. by rewrite E.
  - destruct ident as [z|s].
    + intros [= <-]. rewrite lookup_insert_eq. split; [done|].
      split; [|done]. intros k Hk. by rewrite lookup_insert_ne.
    + destruct allow; [|done]. intros [= <-]. rewrite lookup_insert_eq.
      split; [done|]. split; [|done]. intros k Hk.
      by rewrite lookup_insert_ne.
Qed.

(* ===================================================================== *)
(** ** What a call of [insert_metadata] does *)
(* ===================================================================== *)

Lemma rename_field_absent old new (e : gmap string value) :
  e !! old = None -> rename_field old new e = e.
Proof. intros H. unfold rename_field. by rewrite H. Qed.

Lemma build_asset_fields t e x :
  build_asset t e = Ok x -> asset_fields_of e = Ok (fields x).
Proof.
  unfold build_asset. destruct t as [| |t| |]; try done.
  destruct (String.eqb (lower t) "equity").
  - unfold new_Equity. destruct (asset_fields_of e); [|done].
    by intros [= <-].
  - destruct (String.eqb (lower t) "future"); [|done].
    unfold new_Future. destruct (asset_fields_of e) as [a|]; [|done].
    cbn [rbind].
    destruct (kw_string e "root_symbol"); [|done]. cbn [rbind].
    destruct (kw_date e "notice_date"); [|done]. cbn [rbind].
    destruct (kw_date e "expiration_date"); [|done]. cbn [rbind].
    destruct (kw_float e "contract_multiplier"); [|done]. cbn [rbind].
    by intros [= <-].
Qed.

Lemma build_asset_type t e x :
  build_asset t e = Ok x -> exists s, t = VStr s /\ lower s = router_type x.
Proof.
  unfold build_asset. destruct t as [| |t| |]; try done.
  destruct (String.eqb (lower t) "equity") eqn:E.
  - apply String.eqb_eq in E. unfold new_Equity.
    destruct (asset_fields_of e); [|done]. intros [= <-]. eauto.
  - destruct (String.eqb (lower t) "future") eqn:E'; [|done].
    apply String.eqb_eq in E'.
    unfold new_Future. destruct (asset_fields_of e) as [a|]; [|done].
    cbn [rbind].
    destruct (kw_string e "root_symbol"); [|done]. cbn [rbind].
    destruct (kw_date e "notice_date"); [|done]. cbn [rbind].
    destruct (kw_date e "expiration_date"); [|done]. cbn [rbind].
    destruct (kw_float e "contract_multiplier"); [|done]. cbn [rbind].
    intros [= <-]. eauto.
Qed.

(** A successful call, step by step. *)
Lemma insert_metadata_ok ident kwargs st st' :
  insert_metadata ident kwargs st = (Ok tt, st') ->
  exists t e x,
    normalize_entry ident (allow_sid_assignment st)
      (size (metadata_cache st)) kwargs
      (default ∅ (metadata_cache st !! ident)) = (Ok t, e)
    /\ build_asset t e = Ok x
    /\ st' = set_metadata_cache (<[ident := e]> (metadata_cache st))
               (set_conn (insert_asset x (conn st)) st).
Proof.
  rewrite insert_metadata_equation. cbv zeta.
  destruct (normalize_entry _ _ _ _ _) as [[t|err] e]; [|done].
  destruct (build_asset t e) as [x|err] eqn:Hx; [|done].
  intros [= <-]. by exists t, e, x.
Qed.

Lemma normalize_entry_settled ident allow n kwargs (e0 : gmap string value)
    t e :
  normalize_entry ident allow n kwargs e0 = (Ok t, e) -> settled ident e.
Proof.
  intros H. apply normalize_entry_ok in H
    as (e2 & Hsid & Hother & Hdates & Htype & _).
  apply assign_sid_ok in Hsid as (Hsid & _ & _).
  assert (Hnd : forall k, k ∈ alias_keys -> k ∉ date_keys).
  { intros k Hk Hd. unfold alias_keys in Hk.
    repeat (apply elem_of_cons in Hk as [->|Hk];
            [apply (bool_decide_pack _) in Hd; by vm_compute in Hd|]).
    by apply elem_of_nil in Hk. }
  split; [split; [|split]|].
  - rewrite Hother, aliased_sid, Hsid by (done || compute_done). eauto.
  - intros k Hk. destruct (decide (k = "asset_type")) as [->|Hne]; [done|].
    rewrite Hother by auto. by apply aliased_alias_keys.
  - intros k v Hk Hv. specialize (Hdates k Hk).
    destruct (aliased ident e2 !! k) as [w|]; [|congruence].
    destruct Hdates as (ts & Hts & Hlk). rewrite Hlk in Hv.
    injection Hv as <-. by eapply pd_Timestamp_is_timestamp.
  - destruct ident as [z|s]; [done|].
    rewrite Hother by (done || compute_done).
    apply aliased_symbol_of_string.
Qed.

(** X11.  A successful call of [insert_metadata] files under the identifier
    an entry that holds a sid, none of the alias fields and no asset type,
    whose four date fields are Timestamps (or None), and which has a symbol
    if the identifier is a string; it touches no other entry of the cache.
    The sid is the first of: the sid of the entry after the field filter
    (a sid given now, else the sid recorded before), the identifier itself
    if it is an integer, the number of identifiers in the cache. *)
Theorem insert_metadata_settles ident kwargs st st' :
  insert_metadata ident kwargs st = (Ok tt, st') ->
  exists e,
    metadata_cache st' !! ident = Some e
    /\ settled ident e
    /\ e !! "sid"
       = Some (resolved_sid ident (size (metadata_cache st))
                 (filter_fields kwargs
                    (default ∅ (metadata_cache st !! ident))))
    /\ (forall i, i <> ident ->
          metadata_cache st' !! i = metadata_cache st !! i).
Proof.
  intros H. apply insert_metadata_ok in H as (t & e & x & Hn & _ & ->).
  exists e. cbn [metadata_cache set_metadata_cache].
  split; [apply lookup_insert_eq|].
  split; [by eapply normalize_entry_settled|].
  split; [|intros i Hi; by rewrite lookup_insert_ne].
  apply normalize_entry_ok in Hn as (e2 & Hsid & Hother & _).
  apply assign_sid_ok in Hsid as (Hsid & _ & _).
  rewrite Hother, aliased_sid by (done || compute_done). done.
Qed.

Lemma insert_metadata_settles_witness :
  exists e,
    metadata_cache
      (insert_metadata (IdStr "B") [("file_name", VStr "F")] two_equities).2
      !! IdStr "B" = Some e
    /\ settled (IdStr "B") e
    /\ e !! "sid" = Some (VInt 2)
    /\ (forall i, i <> IdStr "B" ->
          metadata_cache
            (insert_metadata (IdStr "B") [("file_name", VStr "F")]
               two_equities).2 !! i
          = metadata_cache two_equities !! i).
Proof.
  apply (insert_metadata_settles (IdStr "B") [("file_name", VStr "F")]
           two_equities).
  vm_compute. reflexivity.
Defined.

(** A settled entry is a fixed point of the statements that work on the
    entry, and the type popped from it is the default. *)
Lemma to_timestamp_fixed k (e : gmap string value) :
  (forall v, e !! k = Some v -> is_timestamp v) ->
  to_timestamp k e = (Ok tt, e).
Proof.
  intros H. unfold to_timestamp. destruct (e !! k) as [v|] eqn:E; [|done].
  destruct (H v eq_refl) as [->|[ns ->]]; cbn; by rewrite insert_id.
Qed.

Lemma normalize_entry_fixed ident allow n (e : gmap string value) :
  settled ident e ->
  normalize_entry ident allow n [] e = (Ok (VStr "equity"), e).
Proof.
  intros [([v Hsid] & Halias & Hdates) Hsym].
  assert (Hk : forall k, k ∈ alias_keys -> e !! k = None) by done.
  unfold normalize_entry, bind, modify. cbn [filter_fields foldl].
  unfold assign_sid. rewrite Hsid.
  rewrite (rename_field_absent "file_name") by (apply Hk; compute_done).
  assert (default_symbol ident e = e) as ->.
  { unfold default_symbol. destruct ident as [z|s]; [by destruct (e !! "symbol")|].
    by destruct Hsym as [w ->]. }
  assert (company_name_alias e = e) as ->.
  { unfold company_name_alias.
    by rewrite (Hk "company_name") by compute_done. }
  rewrite (rename_field_absent "start_date_nano"),
    (rename_field_absent "end_date_nano"),
    (rename_field_absent "notice_date_nano"),
    (rename_field_absent "expiration_date_nano")
    by (apply Hk; compute_done).
  cbv beta iota.
  repeat (rewrite to_timestamp_fixed
            by (intros w; apply Hdates; compute_done);
          cbv beta iota).
  unfold pop_asset_type. by rewrite (Hk "asset_type") by compute_done.
Qed.

Lemma build_asset_equity e : build_asset (VStr "equity") e = new_Equity e.
Proof. reflexivity. Qed.

Lemma set_metadata_cache_same st :
  set_metadata_cache (metadata_cache st) st = st.
Proof. by destruct st. Qed.

(** X12.  Ingesting an identifier again without any field writes an
    equity.  After any successful call for an identifier, a call for the
    same identifier with no keyword (as [consume_identifiers] makes for an
    identifier that is no Asset) succeeds, leaves the cache as it is and
    appends a row to [equities] (and its router entry) with the fields of
    the asset written first, also when that asset was a future: the type
    was popped from the entry when it was first used. *)
Theorem reingest_appends_equity ident kwargs st st1 :
  insert_metadata ident kwargs st = (Ok tt, st1) ->
  exists x,
    conn st1 = insert_asset x (conn st)
    /\ insert_metadata ident [] st1
       = (Ok tt, set_conn (insert_equity (fields x) (conn st1)) st1).
Proof.
  intros H. apply insert_metadata_ok in H as (t & e & x & Hn & Hx & ->).
  exists x. split; [done|].
  rewrite insert_metadata_equation. cbv zeta.
  cbn [metadata_cache set_metadata_cache conn set_conn allow_sid_assignment].
  rewrite lookup_insert_eq. cbn [default from_option]. unfold id.
  rewrite normalize_entry_fixed by (by eapply normalize_entry_settled).
  apply build_asset_fields in Hx.
  rewrite build_asset_equity. unfold new_Equity. rewrite Hx.
  cbn [rbind insert_asset]. by rewrite insert_insert_eq.
Qed.

Lemma reingest_appends_equity_witness :
  exists x,
    conn three_contracts
    = insert_asset x
        (conn (ingest
                 [ (IdInt 11, [("asset_type", VStr "future");
                               ("root_symbol", VStr "ES");
                               ("symbol", VStr "ESF");
                               ("start_date", VInt DAY);
                               ("expiration_date", VInt (10 * DAY))]);
                   (IdInt 13, [("asset_type", VStr "future");
                               ("root_symbol", VStr "ES");
                               ("symbol", VStr "ESH");
                               ("start_date", VInt DAY);
                               ("expiration_date", VInt (30 * DAY))]) ]
                 (new_AssetFinder true)))
    /\ insert_metadata (IdInt 12) [] three_contracts
       = (Ok tt,
          set_conn (insert_equity (fields x) (conn three_contracts))
                   three_contracts).
Proof.
  apply (reingest_appends_equity (IdInt 12)
           [("asset_type", VStr "future"); ("root_symbol", VStr "ES");
            ("symbol", VStr "ESG"); ("start_date", VInt DAY);
            ("expiration_date", VInt (20 * DAY))]).
  vm_compute. reflexivity.
Defined.

Lemma normalize_entry_raises_unassigned s n kwargs (e0 : gmap string value) :
  filter_fields kwargs e0 !! "sid" = None ->
  normalize_entry (IdStr s) false n kwargs e0
  = (Raise (SidAssignmentError (IdStr s)), filter_fields kwargs e0).
Proof.
  intros H. unfold normalize_entry, bind, modify, assign_sid. by rewrite H.
Qed.

(** X13.  Without sid assignment, a string identifier needs a sid.  On a
    finder built with [allow_sid_assignment=False], a call for a string
    identifier that the cache does not hold, with no accepted [sid] among
    the keywords, raises [SidAssignmentError] for that identifier and
    changes nothing: no row, no cache entry. *)
Theorem insert_metadata_sid_assignment_disabled s kwargs st :
  allow_sid_assignment st = false ->
  metadata_cache st !! IdStr s = None ->
  filter_fields kwargs ∅ !! "sid" = None ->
  insert_metadata (IdStr s) kwargs st
  = (Raise (SidAssignmentError (IdStr s)), st).
Proof.
  intros Hallow Hfresh Hsid. rewrite insert_metadata_equation. cbv zeta.
  rewrite Hallow, Hfresh. cbn [default from_option].
  by rewrite normalize_entry_raises_unassigned.
Qed.

Lemma insert_metadata_sid_assignment_disabled_witness :
  insert_metadata (IdStr "A") [("symbol", VStr "A"); ("sid", VNone)]
                  (new_AssetFinder false)
  = (Raise (SidAssignmentError (IdStr "A")), new_AssetFinder false).
Proof.
  apply (insert_metadata_sid_assignment_disabled "A"
           [("symbol", VStr "A"); ("sid", VNone)] (new_AssetFinder false));
    reflexivity.
Defined.

(** X14.  A call that raises writes nothing to the store.  Whatever the
    error, the three tables, the memo tables and the entries of the other
    identifiers are as before; an identifier that the cache did not hold is
    not added, so that the finder is unchanged.  (The entry of an
    identifier that the cache holds is the dict that the call works on: it
    keeps what the call did to it before the error.) *)
Theorem insert_metadata_failure ident kwargs st err st' :
  insert_metadata ident kwargs st = (Raise err, st') ->
  conn st' = conn st
  /\ asset_type_by_sid_memo st' = asset_type_by_sid_memo st
  /\ equity_for_id_memo st' = equity_for_id_memo st
  /\ futures_contract_for_id_memo st' = futures_contract_for_id_memo st
  /\ (forall i, i <> ident ->
        metadata_cache st' !! i = metadata_cache st !! i)
  /\ (metadata_cache st !! ident = None -> st' = st).
Proof.
  rewrite insert_metadata_equation. cbv zeta.
  destruct (normalize_entry _ _ _ _ _) as [[t|err'] e].
  - destruct (build_asset t e) as [x|err'']; [done|].
    destruct (metadata_cache st !! ident); intros [= <- <-];
      cbn [conn set_metadata_cache metadata_cache asset_type_by_sid_memo
           equity_for_id_memo futures_contract_for_id_memo];
      repeat split; try done; intros i Hi; by rewrite lookup_insert_ne.
  - destruct (metadata_cache st !! ident); intros [= <- <-];
      cbn [conn set_metadata_cache metadata_cache asset_type_by_sid_memo
           equity_for_id_memo futures_contract_for_id_memo];
      repeat split; try done; intros i Hi; by rewrite lookup_insert_ne.
Qed.

Lemma insert_metadata_failure_witness :
  conn (insert_metadata (IdInt 1) [("asset_type", VStr "bond")]
          two_equities).2 = conn two_equities
  /\ asset_type_by_sid_memo
       (insert_metadata (IdInt 1) [("asset_type", VStr "bond")]
          two_equities).2 = asset_type_by_sid_memo two_equities
  /\ equity_for_id_memo
       (insert_metadata (IdInt 1) [("asset_type", VStr "bond")]
          two_equities).2 = equity_for_id_memo two_equities
  /\ futures_contract_for_id_memo
       (insert_metadata (IdInt 1) [("asset_type", VStr "bond")]
          two_equities).2 = futures_contract_for_id_memo two_equities
  /\ (forall i, i <> IdInt 1 ->
        metadata_cache
          (insert_metadata (IdInt 1) [("asset_type", VStr "bond")]
             two_equities).2 !! i
        = metadata_cache two_equities !! i)
  /\ (metadata_cache two_equities !! IdInt 1 = None ->
      (insert_metadata (IdInt 1) [("asset_type", VStr "bond")]
         two_equities).2 = two_equities).
Proof.
  apply (insert_metadata_failure (IdInt 1) [("asset_type", VStr "bond")]
           two_equities (InvalidAssetType "bond")).
  vm_compute. reflexivity.
Defined.

(** A failing call for a cached identifier has changed the cached entry:
    the symbol A of sid 1 has become Z, though no row was written. *)
Example failed_call_changes_cached_entry :
  (insert_metadata (IdInt 1) [("asset_type", VStr "bond");
                              ("symbol", VStr "Z")] two_equities).1
  = Raise (InvalidAssetType "bond")
  /\ (metadata_cache two_equities !! IdInt 1) ≫= (fun e => e !! "symbol")
     = Some (VStr "A")
  /\ (metadata_cache
        (insert_metadata (IdInt 1) [("asset_type", VStr "bond");
                                    ("symbol", VStr "Z")] two_equities).2
        !! IdInt 1) ≫= (fun e => e !! "symbol")
     = Some (VStr "Z").
Proof. vm_compute. done. Qed.

Lemma normalize_entry_type ident allow n kwargs (e0 : gmap string value) t e :
  normalize_entry ident allow n kwargs e0 = (Ok t, e) ->
  t = default (VStr "equity") (filter_fields kwargs e0 !! "asset_type").
Proof.
  intros H. apply normalize_entry_ok in H as (e2 & Hsid & _ & _ & _ & ->).
  apply assign_sid_ok in Hsid as (_ & Hother & _).
  by rewrite aliased_asset_type, Hother.
Qed.

(** X15.  The table is chosen by the [asset_type] field alone, compared
    without regard to case, and defaults to equity.  When a call succeeds it
    has inserted one asset: an Equity when the entry after the field filter
    holds no [asset_type], else an asset of the kind that the text of the
    field names once lower-cased.  So a call whose [asset_type] is no text,
    or text other than equity and future in any case, never succeeds. *)
Theorem insert_metadata_dispatch ident kwargs st st' :
  insert_metadata ident kwargs st = (Ok tt, st') ->
  exists x,
    conn st' = insert_asset x (conn st)
    /\ match filter_fields kwargs (default ∅ (metadata_cache st !! ident))
             !! "asset_type" with
       | None => router_type x = "equity"
       | Some (VStr t) => lower t = router_type x
       | Some _ => False
       end.
Proof.
  intros H. apply insert_metadata_ok in H as (t & e & x & Hn & Hx & ->).
  exists x. split; [done|].
  apply normalize_entry_type in Hn.
  apply build_asset_type in Hx as (s & -> & Hs).
  destruct (filter_fields _ _ !! "asset_type") as [v|];
    cbn [default from_option] in Hn; unfold id in Hn.
  - subst v. exact Hs.
  - injection Hn as ->. rewrite <- Hs. reflexivity.
Qed.

Lemma insert_metadata_dispatch_witness :
  exists x,
    conn (insert_metadata (IdInt 7) [("asset_type", VStr "FuTuRe")]
            two_equities).2
    = insert_asset x (conn two_equities)
    /\ match filter_fields [("asset_type", VStr "FuTuRe")]
               (default ∅ (metadata_cache two_equities !! IdInt 7))
             !! "asset_type" with
       | None => router_type x = "equity"
       | Some (VStr t) => lower t = router_type x
       | Some _ => False
       end.
Proof.
  apply (insert_metadata_dispatch (IdInt 7) [("asset_type", VStr "FuTuRe")]
           two_equities).
  vm_compute. reflexivity.
Defined.

Example mixed_case_type_is_a_future :
  futures (conn (insert_metadata (IdInt 7) [("asset_type", VStr "FuTuRe")]
                   two_equities).2)
  = [ {| f_sid := 7; f_symbol := ""; f_asset_name := "";
         f_start_date_nano := None; f_end_date_nano := None;
         f_first_traded_nano := None; f_exchange := "";
         f_root_symbol := ""; f_notice_date_nano := None;
         f_expiration_date_nano := None;
         f_contract_multiplier := FNum 1 1 |} ].
Proof. vm_compute. reflexivity. Qed.

Lemma asset_fields_of_symbol e a v :
  asset_fields_of e = Ok a -> e !! "symbol" = Some v ->
  v = VStr (a_symbol a).
Proof.
  unfold asset_fields_of. destruct (kw_sid e); [|done]. cbn [rbind].
  unfold kw_string at 1. intros H Hv. rewrite Hv in H.
  destruct v; try done. cbn [rbind] in H.
  destruct (kw_string e "asset_name"); [|done]. cbn [rbind] in H.
  destruct (kw_date e "start_date"); [|done]. cbn [rbind] in H.
  destruct (kw_date e "end_date"); [|done]. cbn [rbind] in H.
  destruct (kw_date e "first_traded"); [|done]. cbn [rbind] in H.
  destruct (kw_string e "exchange"); [|done]. cbn [rbind] in H.
  by injection H as <-.
Qed.

Lemma asset_fields_of_asset_name e a v :
  asset_fields_of e = Ok a -> e !! "asset_name" = Some v ->
  v = VStr (a_asset_name a).
Proof.
  unfold asset_fields_of. destruct (kw_sid e); [|done]. cbn [rbind].
  destruct (kw_string e "symbol"); [|done]. cbn [rbind].
  unfold kw_string at 1. intros H Hv. rewrite Hv in H.
  destruct v; try done. cbn [rbind] in H.
  destruct (kw_date e "start_date"); [|done]. cbn [rbind] in H.
  destruct (kw_date e "end_date"); [|done]. cbn [rbind] in H.
  destruct (kw_date e "first_traded"); [|done]. cbn [rbind] in H.
  destruct (kw_string e "exchange"); [|done]. cbn [rbind] in H.
  by injection H as <-.
Qed.

(** X16.  The compatibility fields win.  When a call succeeds, the asset it
    has inserted takes its symbol from [file_name] if the entry after the
    field filter holds one, whatever [symbol] says; for a string identifier
    without [file_name] the symbol is the [symbol] field, else the
    identifier.  Its name is the [asset_name] field if there is one, else
    [company_name]. *)
Theorem insert_metadata_aliases ident kwargs st st' :
  insert_metadata ident kwargs st = (Ok tt, st') ->
  exists x,
    conn st' = insert_asset x (conn st)
    /\ (forall v,
          filter_fields kwargs (default ∅ (metadata_cache st !! ident))
            !! "file_name" = Some v ->
          v = VStr (a_symbol (fields x)))
    /\ (forall s,
          ident = IdStr s ->
          filter_fields kwargs (default ∅ (metadata_cache st !! ident))
            !! "file_name" = None ->
          default (VStr s)
            (filter_fields kwargs (default ∅ (metadata_cache st !! ident))
               !! "symbol")
          = VStr (a_symbol (fields x)))
    /\ (forall v,
          filter_fields kwargs (default ∅ (metadata_cache st !! ident))
            !! "company_name" = Some v ->
          default v
            (filter_fields kwargs (default ∅ (metadata_cache st !! ident))
               !! "asset_name")
          = VStr (a_asset_name (fields x))).
Proof.
  intros H. apply insert_metadata_ok in H as (t & e & x & Hn & Hx & ->).
  exists x. split; [done|].
  apply build_asset_fields in Hx.
  apply normalize_entry_ok in Hn as (e2 & Hsid & Hother & _).
  apply assign_sid_ok in Hsid as (_ & Hsame & _).
  split; [|split].
  - intros v Hv. apply (asset_fields_of_symbol e); [done|].
    rewrite Hother by (done || compute_done).
    apply aliased_symbol_of_file_name. by rewrite Hsame.
  - intros s -> Hnone. apply (asset_fields_of_symbol e); [done|].
    rewrite Hother by (done || compute_done).
    rewrite aliased_symbol_default by (by rewrite Hsame).
    by rewrite Hsame.
  - intros v Hv. apply (asset_fields_of_asset_name e); [done|].
    rewrite Hother by (done || compute_done).
    rewrite (aliased_asset_name _ _ v) by (by rewrite Hsame).
    by rewrite Hsame.
Qed.

Lemma insert_metadata_aliases_witness :
  exists x,
    conn (insert_metadata (IdStr "B")
            [("symbol", VStr "S"); ("file_name", VStr "F");
             ("company_name", VStr "C")] two_equities).2
    = insert_asset x (conn two_equities)
    /\ (forall v,
          filter_fields [("symbol", VStr "S"); ("file_name", VStr "F");
                         ("company_name", VStr "C")]
            (default ∅ (metadata_cache two_equities !! IdStr "B"))
            !! "file_name" = Some v ->
          v = VStr (a_symbol (fields x)))
    /\ (forall s,
          IdStr "B" = IdStr s ->
          filter_fields [("symbol", VStr "S"); ("file_name", VStr "F");
                         ("company_name", VStr "C")]
            (default ∅ (metadata_cache two_equities !! IdStr "B"))
            !! "file_name" = None ->
          default (VStr s)
            (filter_fields [("symbol", VStr "S"); ("file_name", VStr "F");
                            ("company_name", VStr "C")]
               (default ∅ (metadata_cache two_equities !! IdStr "B"))
               !! "symbol")
          = VStr (a_symbol (fields x)))
    /\ (forall v,
          filter_fields [("symbol", VStr "S"); ("file_name", VStr "F");
                         ("company_name", VStr "C")]
            (default ∅ (metadata_cache two_equities !! IdStr "B"))
            !! "company_name" = Some v ->
          default v
            (filter_fields [("symbol", VStr "S"); ("file_name", VStr "F");
                            ("company_name", VStr "C")]
               (default ∅ (metadata_cache two_equities !! IdStr "B"))
               !! "asset_name")
          = VStr (a_asset_name (fields x))).
Proof.
  apply (insert_metadata_aliases (IdStr "B")
           [("symbol", VStr "S"); ("file_name", VStr "F");
            ("company_name", VStr "C")] two_equities).
  vm_compute. reflexivity.
Defined.

Example file_name_replaces_symbol :
  equities (conn (insert_metadata (IdStr "B")
                    [("symbol", VStr "S"); ("file_name", VStr "F");
                     ("company_name", VStr "C")]
                    (new_AssetFinder true)).2)
  = [ {| e_sid := 0; e_symbol := "F"; e_asset_name := "C";
         e_start_date_nano := None; e_end_date_nano := None;
         e_first_traded_nano := None; e_exchange := "" |} ].
Proof. vm_compute. reflexivity. Qed.

Lemma filter_fields_app k1 k2 (e : gmap string value) :
  filter_fields (k1 ++ k2) e = filter_fields k2 (filter_fields k1 e).
Proof. apply foldl_app. Qed.

(** X17.  The nanosecond aliases of the two dates of a future are dead.
    [notice_date_nano] and [expiration_date_nano] are popped like the
    aliases of the start and the end date, but they are no members of
    [ASSET_FIELDS]: the field filter drops them, so a keyword of that name,
    wherever it stands among the keywords, changes nothing in the call. *)
Theorem insert_metadata_ignores_future_nanos ident k1 key v k2 st :
  key = "notice_date_nano" \/ key = "expiration_date_nano" ->
  insert_metadata ident (k1 ++ (key, v) :: k2) st
  = insert_metadata ident (k1 ++ k2) st.
Proof.
  intros Hkey. unfold insert_metadata, normalize_entry, bind, modify.
  rewrite !filter_fields_app.
  assert (forall e0, filter_fields ((key, v) :: k2) e0 = filter_fields k2 e0)
    as ->; [|done].
  intros e0. unfold filter_fields. cbn [foldl fst snd].
  assert (accepted key v = false) as ->; [|done].
  unfold accepted. destruct Hkey as [-> | ->];
    by replace (bool_decide (_ ∈ ASSET_FIELDS)) with false
      by (vm_compute; reflexivity).
Qed.

Lemma insert_metadata_ignores_future_nanos_witness :
  insert_metadata (IdInt 3)
    ([("asset_type", VStr "future")]
       ++ ("expiration_date_nano", VInt DAY) :: [("symbol", VStr "X")])
    two_equities
  = insert_metadata (IdInt 3)
      ([("asset_type", VStr "future")] ++ [("symbol", VStr "X")])
      two_equities.
Proof.
  apply (insert_metadata_ignores_future_nanos (IdInt 3)
           [("asset_type", VStr "future")] "expiration_date_nano"
           (VInt DAY) [("symbol", VStr "X")] two_equities).
  by right.
Defined.

(* ===================================================================== *)
(** ** The consumers of identifiers and metadata *)
(* ===================================================================== *)

(** One identifier that the cache does not hold, without any field. *)
Lemma insert_metadata_bare ident st :
  metadata_cache st !! ident = None ->
  match ident with IdStr _ => allow_sid_assignment st = true | _ => True end ->
  insert_metadata ident [] st
  = (Ok tt,
     set_metadata_cache
       (<[ident := bare_entry ident (size (metadata_cache st))]>
          (metadata_cache st))
       (set_conn
          (insert_equity (bare_asset ident (size (metadata_cache st)))
                         (conn st)) st)).
Proof.
  intros Hfresh Hallow. unfold insert_metadata. rewrite Hfresh.
  cbn [default from_option].
  destruct ident as [z|s].
  - reflexivity.
  - rewrite Hallow. reflexivity.
Qed.

Lemma consume_fresh ids st :
  NoDup ids ->
  (forall i, i ∈ ids -> metadata_cache st !! i = None) ->
  allow_sid_assignment st = true ->
  exists st',
    consume_identifiers (inr <$> ids) st = (Ok tt, st')
    /\ equities (conn st')
       = equities (conn st)
         ++ imap (fun k i =>
                    equity_row_of
                      (bare_asset i (size (metadata_cache st) + k)%nat))
                 ids
    /\ futures (conn st') = futures (conn st)
    /\ size (metadata_cache st')
       = (size (metadata_cache st) + length ids)%nat.
Proof.
  revert st. induction ids as [|i ids IH]; intros st Hnd Hfresh Hallow.
  - exists st. cbn. rewrite app_nil_r. repeat split; lia.
  - apply NoDup_cons in Hnd as [Hi Hnd].
    cbn [fmap list_fmap consume_identifiers]. unfold bind.
    rewrite insert_metadata_bare;
      [|apply Hfresh; left|by destruct i].
    set (st1 := set_metadata_cache _ _).
    destruct (IH st1) as (st' & Hrun & Heq & Hfut & Hsize); [done|..].
    + intros j Hj. unfold st1. cbn [metadata_cache set_metadata_cache].
      rewrite lookup_insert_ne by (intros ->; done).
      apply Hfresh. by right.
    + done.
    + assert (Hs1 : size (metadata_cache st1)
                    = S (size (metadata_cache st))).
      { unfold st1. cbn [metadata_cache set_metadata_cache].
        rewrite map_size_insert_None; [done|]. apply Hfresh. left. }
      exists st'. split; [done|]. split; [|split].
      * rewrite Heq. unfold st1 at 1.
        cbn [conn set_metadata_cache set_conn insert_equity equities].
        rewrite <- app_assoc. f_equal. cbn [app]. rewrite imap_cons.
        rewrite Nat.add_0_r. f_equal.
        apply imap_ext. intros k j _. unfold compose. cbn beta. rewrite Hs1.
        by replace (S (size (metadata_cache st)) + k)%nat
          with (size (metadata_cache st) + S k)%nat by lia.
      * rewrite Hfut. done.
      * rewrite Hsize, Hs1. cbn [length]. lia.
Qed.

(** X18.  [consume_identifiers] numbers new symbols in the order it meets
    them.  For distinct identifiers that are no Assets and that the cache
    does not hold, on a finder that assigns sids, the call succeeds and
    appends one row to [equities] per identifier, in order, and none to
    [futures]: the row of an integer has that sid and no symbol, the row of
    a string has the string as symbol and as sid the number of identifiers
    in the cache when its turn comes, whatever sids the store holds
    already. *)
Theorem consume_identifiers_fresh ids st :
  NoDup ids ->
  (forall i, i ∈ ids -> metadata_cache st !! i = None) ->
  allow_sid_assignment st = true ->
  exists st',
    consume_identifiers (inr <$> ids) st = (Ok tt, st')
    /\ equities (conn st')
       = equities (conn st)
         ++ imap (fun k i =>
                    equity_row_of
                      (bare_asset i (size (metadata_cache st) + k)%nat))
                 ids
    /\ futures (conn st') = futures (conn st)
    /\ size (metadata_cache st')
       = (size (metadata_cache st) + length ids)%nat.
Proof. apply consume_fresh. Qed.

Lemma consume_identifiers_fresh_witness :
  exists st',
    consume_identifiers (inr <$> [IdStr "B"; IdInt 7; IdStr "C"])
                        two_equities = (Ok tt, st')
    /\ equities (conn st')
       = equities (conn two_equities)
         ++ imap (fun k i =>
                    equity_row_of
                      (bare_asset i
                         (size (metadata_cache two_equities) + k)%nat))
                 [IdStr "B"; IdInt 7; IdStr "C"]
    /\ futures (conn st') = futures (conn two_equities)
    /\ size (metadata_cache st')
       = (size (metadata_cache two_equities)
          + length [IdStr "B"; IdInt 7; IdStr "C"])%nat.
Proof.
  apply (consume_identifiers_fresh [IdStr "B"; IdInt 7; IdStr "C"]
           two_equities).
  - compute_done.
  - intros i Hi.
    repeat (apply elem_of_cons in Hi as [->|Hi]; [by vm_compute|]).
    by apply elem_of_nil in Hi.
  - reflexivity.
Defined.

(** X19.  [clear_metadata] restarts the numbering.  After the cache is
    cleared, distinct new symbols are numbered from 0 again, whatever the
    store holds: with an equity of sid 0 in the store, the store then holds
    two rows of sid 0.  Nothing but the cache is cleared. *)
Theorem clear_metadata_restarts_sids ids st :
  NoDup ids ->
  allow_sid_assignment st = true ->
  exists st',
    (do! clear_metadata in consume_identifiers (inr <$> ids)) st
    = (Ok tt, st')
    /\ equities (conn st')
       = equities (conn st)
         ++ imap (fun k i => equity_row_of (bare_asset i k)) ids
    /\ futures (conn st') = futures (conn st).
Proof.
  intros Hnd Hallow. unfold bind, clear_metadata, modify.
  destruct (consume_fresh ids (set_metadata_cache ∅ st))
    as (st' & Hrun & Heq & Hfut & _); [done|done|done|].
  exists st'. split; [done|]. split; [|done].
  rewrite Heq. reflexivity.
Qed.

Lemma clear_metadata_restarts_sids_witness :
  exists st',
    (do! clear_metadata in
     consume_identifiers (inr <$> [IdStr "B"; IdStr "C"])) two_equities
    = (Ok tt, st')
    /\ equities (conn st')
       = equities (conn two_equities)
         ++ imap (fun k i => equity_row_of (bare_asset i k))
                 [IdStr "B"; IdStr "C"]
    /\ futures (conn st') = futures (conn two_equities).
Proof.
  apply (clear_metadata_restarts_sids [IdStr "B"; IdStr "C"] two_equities).
  - compute_done.
  - reflexivity.
Defined.

Example sid_given_twice_after_clear :
  e_sid <$> equities
    (conn ((do! clear_metadata in
            consume_identifiers (inr <$> [IdStr "B"; IdStr "C"]))
             two_equities).2)
  = [1; 2; 0; 1].
Proof. vm_compute. reflexivity. Qed.

(** Every consumer runs a sequence of calls of [insert_metadata] and stops
    at the first that raises. *)
Lemma ingest_cons i kw calls st :
  ingest ((i, kw) :: calls) st = ingest calls (insert_metadata i kw st).2.
Proof. reflexivity. Qed.

Lemma _insert_metadata_dict_runs items st :
  exists calls, (_insert_metadata_dict items st).2 = ingest calls st.
Proof.
  revert st. induction items as [|[i kw] items IH]; intros st.
  - by exists [].
  - cbn [_insert_metadata_dict]. unfold bind.
    destruct (insert_metadata i kw st) as [[[]|err] st1] eqn:E.
    + destruct (IH st1) as [calls ->]. exists ((i, kw) :: calls).
      by rewrite ingest_cons, E.
    + exists [(i, kw)]. by rewrite ingest_cons, E.
Qed.

Lemma _insert_metadata_dataframe_runs rows st :
  exists calls, (_insert_metadata_dataframe rows st).2 = ingest calls st.
Proof.
  revert st. induction rows as [|[i kw] rows IH]; intros st.
  - by exists [].
  - cbn [_insert_metadata_dataframe]. unfold bind.
    destruct (insert_metadata i kw st) as [[[]|err] st1] eqn:E.
    + destruct (IH st1) as [calls ->]. exists ((i, kw) :: calls).
      by rewrite ingest_cons, E.
    + exists [(i, kw)]. by rewrite ingest_cons, E.
Qed.

Lemma _insert_metadata_readable_runs shared rows st :
  exists calls,
    (_insert_metadata_readable shared rows st).2 = ingest calls st.
Proof.
  revert st. induction rows as [|row rows IH]; intros st.
  - by exists [].
  - cbn [_insert_metadata_readable].
    destruct (row_identifier shared row) as [i|]; [|by exists []].
    unfold bind.
    destruct (insert_metadata i (parse_row shared row) st)
      as [[[]|err] st1] eqn:E.
    + destruct (IH st1) as [calls ->].
      exists ((i, parse_row shared row) :: calls).
      by rewrite ingest_cons, E.
    + exists [(i, parse_row shared row)]. by rewrite ingest_cons, E.
Qed.

Lemma consume_identifiers_runs ids st :
  exists calls, (consume_identifiers ids st).2 = ingest calls st.
Proof.
  revert st. induction ids as [|[x|i] ids IH]; intros st.
  - by exists [].
  - cbn [consume_identifiers]. unfold bind.
    destruct (insert_metadata _ _ st) as [[[]|err] st1] eqn:E.
    + destruct (IH st1) as [calls ->]. eexists (_ :: calls).
      by rewrite ingest_cons, E.
    + eexists [_]. by rewrite ingest_cons, E.
  - cbn [consume_identifiers]. unfold bind.
    destruct (insert_metadata i [] st) as [[[]|err] st1] eqn:E.
    + destruct (IH st1) as [calls ->]. exists ((i, []) :: calls).
      by rewrite ingest_cons, E.
    + exists [(i, [])]. by rewrite ingest_cons, E.
Qed.

Lemma consume_metadata_runs shared src st :
  exists calls, (consume_metadata shared src st).2 = ingest calls st.
Proof.
  destruct src as [items|rows|rows|]; cbn [consume_metadata].
  - apply _insert_metadata_dict_runs.
  - apply _insert_metadata_dataframe_runs.
  - apply _insert_metadata_readable_runs.
  - by exists [].
Qed.

(** X20.  What the router holds is kept by every consumer, whether it
    returns or raises.  If, per sid, the router holds as many entries of
    each type as the table of that type has rows (as on a new finder), it
    still does after [consume_metadata] of a dict, a DataFrame, a readable
    or an object of another kind, and after [consume_identifiers]; and
    no consumer writes to a memo table, so that an answer recorded for a
    sid before is still the one given afterwards. *)
Theorem consumers_keep_router_counts shared src ids st :
  router_counts (conn st) ->
  (router_counts (conn (consume_metadata shared src st).2)
   /\ asset_type_by_sid_memo (consume_metadata shared src st).2
      = asset_type_by_sid_memo st)
  /\ (router_counts (conn (consume_identifiers ids st).2)
      /\ asset_type_by_sid_memo (consume_identifiers ids st).2
         = asset_type_by_sid_memo st).
Proof.
  intros H. split.
  - destruct (consume_metadata_runs shared src st) as [calls ->].
    split; [by apply router_counts_ingest|apply ingest_memos].
  - destruct (consume_identifiers_runs ids st) as [calls ->].
    split; [by apply router_counts_ingest|apply ingest_memos].
Qed.

Lemma consumers_keep_router_counts_witness :
  (router_counts
     (conn (consume_metadata true
              (FromDict [(IdInt 1, [("symbol", VStr "A")]);
                         (IdStr "B", [("asset_type", VStr "bond")]);
                         (IdInt 3, [])])
              (new_AssetFinder true)).2)
   /\ asset_type_by_sid_memo
        (consume_metadata true
           (FromDict [(IdInt 1, [("symbol", VStr "A")]);
                      (IdStr "B", [("asset_type", VStr "bond")]);
                      (IdInt 3, [])])
           (new_AssetFinder true)).2
      = asset_type_by_sid_memo (new_AssetFinder true))
  /\ (router_counts
        (conn (consume_identifiers [inr (IdInt 1); inr (IdInt 1)]
                 (new_AssetFinder true)).2)
      /\ asset_type_by_sid_memo
           (consume_identifiers [inr (IdInt 1); inr (IdInt 1)]
              (new_AssetFinder true)).2
         = asset_type_by_sid_memo (new_AssetFinder true)).
Proof.
  apply (consumers_keep_router_counts true
           (FromDict [(IdInt 1, [("symbol", VStr "A")]);
                      (IdStr "B", [("asset_type", VStr "bond")]);
                      (IdInt 3, [])])
           [inr (IdInt 1); inr (IdInt 1)] (new_AssetFinder true)).
  apply router_counts_empty.
Defined.

(** The batch of the witness stops at its second item: the first is
    written, the third is not. *)
Example batch_stops_at_first_error :
  consume_metadata true
    (FromDict [(IdInt 1, [("symbol", VStr "A")]);
               (IdStr "B", [("asset_type", VStr "bond")]);
               (IdInt 3, [])])
    (new_AssetFinder true)
  = (Raise (InvalidAssetType "bond"),
     (insert_metadata (IdInt 1) [("symbol", VStr "A")]
        (new_AssetFinder true)).2).
Proof. vm_compute. reflexivity. Qed.

Lemma _insert_metadata_readable_app shared rows1 rows2 st :
  _insert_metadata_readable shared (rows1 ++ rows2) st
  = match _insert_metadata_readable shared rows1 st with
    | (Ok _, st1) => _insert_metadata_readable shared rows2 st1
    | (Raise err, st1) => (Raise err, st1)
    end.
Proof.
  revert st. induction rows1 as [|row rows1 IH]; intros st; [done|].
  cbn [app _insert_metadata_readable].
  destruct (row_identifier shared row) as [i|]; [|done].
  unfold bind.
  destruct (insert_metadata i (parse_row shared row) st) as [[[]|err] st1];
    [apply IH|done].
Qed.

(** X21.  A row of a readable without a usable identifier ends the batch.
    When the rows before it were consumed and the row has neither a [sid]
    nor a [symbol] that passes the test of the parser, the call raises
    [ConsumeAssetMetaDataError]; the rows before it stay written and the
    rows after it are not looked at. *)
Theorem readable_row_without_identifier shared rows1 row rows2 st st1 :
  _insert_metadata_readable shared rows1 st = (Ok tt, st1) ->
  kept_cell shared row "sid" = None ->
  kept_cell shared row "symbol" = None ->
  consume_metadata shared (FromReadable (rows1 ++ row :: rows2)) st
  = (Raise ConsumeAssetMetaDataError, st1).
Proof.
  intros Hrun Hsid Hsym. cbn [consume_metadata].
  rewrite _insert_metadata_readable_app, Hrun.
  cbn [_insert_metadata_readable]. unfold row_identifier.
  fold (kept_cell shared row "sid"). fold (kept_cell shared row "symbol").
  by rewrite Hsid, Hsym.
Qed.

Lemma readable_row_without_identifier_witness :
  consume_metadata true
    (FromReadable
       ([ {[ "sid" := CInt 4; "symbol" := CStr "D" ]} ]
          ++ {[ "sid" := CInt 0; "symbol" := CStr "";
                "asset_name" := CStr "E" ]}
          :: [ {[ "sid" := CInt 6 ]} ]))
    two_equities
  = (Raise ConsumeAssetMetaDataError,
     (insert_metadata (IdInt 4) [("sid", VInt 4); ("symbol", VStr "D")]
        two_equities).2).
Proof.
  apply (readable_row_without_identifier true
           [ {[ "sid" := CInt 4; "symbol" := CStr "D" ]} ]
           {[ "sid" := CInt 0; "symbol" := CStr "";
              "asset_name" := CStr "E" ]}
           [ {[ "sid" := CInt 6 ]} ] two_equities);
    vm_compute; reflexivity.
Defined.

(** *** The parser of a readable and the field filter *)

Lemma omap_keys_sublist {A} (f : string -> option A) (l : list string) :
  (omap (fun k => (fun v => (k, v)) <$> f k) l).*1 `sublist_of` l.
Proof.
  induction l as [|k l IH]; [done|]. cbn [omap list_omap].
  destruct (f k); cbn [fmap option_fmap option_map list_fmap fst];
    by constructor.
Qed.

Lemma omap_pointwise {A B} (f g : A -> option B) (l : list A) :
  (forall x, f x = g x) -> omap f l = omap g l.
Proof.
  intros H. induction l as [|x l IH]; [done|].
  cbn [omap list_omap]. by rewrite H, IH.
Qed.

Lemma parse_row_omap shared row :
  parse_row shared row
  = omap (fun k => (fun v => (k, v))
                     <$> (cell_value <$> kept_cell shared row k))
         ASSET_FIELDS.
Proof.
  unfold parse_row. apply omap_pointwise. intros k. unfold kept_cell.
  destruct (row !! k) as [c|]; [|done].
  by destruct (passes_placeholder_test shared c).
Qed.

Lemma parse_row_NoDup shared row : NoDup (parse_row shared row).*1.
Proof.
  rewrite parse_row_omap. apply (sublist_NoDup _ ASSET_FIELDS).
  - compute_done.
  - apply (omap_keys_sublist
             (fun k => cell_value <$> kept_cell shared row k)).
Qed.

Lemma parse_row_elem_of shared row k v :
  (k, v) ∈ parse_row shared row
  <-> k ∈ ASSET_FIELDS
      /\ exists c, kept_cell shared row k = Some c /\ v = cell_value c.
Proof.
  rewrite parse_row_omap, list_elem_of_omap. split.
  - intros (k' & Hk' & Hv).
    destruct (kept_cell shared row k') as [c|] eqn:E; [|done].
    cbn in Hv. injection Hv as <- <-. eauto.
  - intros (Hk & c & Hc & ->). exists k. split; [done|]. by rewrite Hc.
Qed.

Lemma kept_cell_accepted shared row k c :
  k ∈ ASSET_FIELDS -> kept_cell shared row k = Some c ->
  accepted k (cell_value c) = true.
Proof.
  intros Hk. unfold kept_cell. destruct (row !! k) as [c'|]; [|done].
  destruct (passes_placeholder_test shared c') eqn:Hp; [|done].
  intros [= <-]. unfold passes_placeholder_test in Hp.
  apply andb_true_iff in Hp as [Ht _].
  unfold accepted. rewrite bool_decide_eq_true_2 by done.
  destruct c' as [z|s]; [done|]. by destruct s.
Qed.

(** X22.  What a row of a readable writes into the entry.  The parser keeps
    a cell of a known field when it is true (not 0, not the empty text),
    and the field filter of [insert_metadata] accepts whatever the parser
    keeps: after the filter the entry holds, under each known field, the
    kept cell of the row, and what it held before where the row has no
    kept cell; no other key is touched.  So a sid of 0 in a row is never
    written, though the filter itself accepts 0. *)
Theorem readable_row_fields shared row (e : gmap string value) k :
  filter_fields (parse_row shared row) e !! k
  = match kept_cell shared row k with
    | Some c => if decide (k ∈ ASSET_FIELDS) then Some (cell_value c)
                else e !! k
    | None => e !! k
    end.
Proof.
  destruct (kept_cell shared row k) as [c|] eqn:Hc.
  - destruct (decide (k ∈ ASSET_FIELDS)) as [Hk|Hk].
    + apply filter_fields_accepts.
      * apply parse_row_NoDup.
      * apply parse_row_elem_of. eauto.
      * by eapply kept_cell_accepted.
    + apply filter_fields_frame. intros v Hv.
      apply parse_row_elem_of in Hv as [? _]. done.
  - apply filter_fields_frame. intros v Hv.
    apply parse_row_elem_of in Hv as (_ & c & Hc' & _). congruence.
Qed.

Example zero_sid_of_a_row_is_dropped :
  kept_cell true {[ "sid" := CInt 0; "symbol" := CStr "A" ]} "sid" = None
  /\ row_identifier true {[ "sid" := CInt 0; "symbol" := CStr "A" ]}
     = Some (IdStr "A")
  /\ accepted "sid" (VInt 0) = true.
Proof. vm_compute. done. Qed.

(* ===================================================================== *)
(** ** Generic lookup *)
(* ===================================================================== *)

Lemma asset_type_by_sid_returns s st :
  exists t st', asset_type_by_sid s st = (Ok t, st').
Proof.
  unfold asset_type_by_sid, lru_cache.
  destruct (asset_type_by_sid_memo st !! s); [eauto|].
  rewrite asset_type_by_sid_body_spec. eauto.
Qed.

Lemma equity_for_id_total s st :
  exists r st', equity_for_id s st = (Ok r, st').
Proof.
  unfold equity_for_id, lru_cache.
  destruct (equity_for_id_memo st !! s); [eauto|].
  rewrite equity_for_id_body_spec. eauto.
Qed.

Lemma futures_contract_for_id_total s st :
  exists r st', futures_contract_for_id s st = (Ok r, st').
Proof.
  unfold futures_contract_for_id, lru_cache.
  destruct (futures_contract_for_id_memo st !! s); [eauto|].
  rewrite futures_contract_for_id_body_spec. eauto.
Qed.

(** Without [default_none], [retrieve_asset] returns an asset or raises
    [SidNotFound]: it never returns [None] and raises nothing else. *)
Lemma retrieve_asset_strict z st :
  (exists a st', retrieve_asset (inr z) false st = (Ok (Some a), st'))
  \/ (exists st', retrieve_asset (inr z) false st
                  = (Raise (SidNotFound z), st')).
Proof.
  unfold retrieve_asset, bind.
  destruct (asset_type_by_sid_returns z st) as (t & st1 & ->).
  match goal with
  | |- context [match ?m st1 with _ => _ end] =>
      assert (exists r st2, m st1 = (Ok r, st2)) as (r & st2 & ->)
  end.
  { repeat case_match;
      first [ apply equity_for_id_total
            | apply futures_contract_for_id_total
            | by eexists _, _ ]. }
  destruct r; unfold ret, raise; eauto.
Qed.

Lemma _lookup_generic_scalar_step obj d m0 x0 st r st' :
  _lookup_generic_scalar obj d m0 x0 st = (Ok r, st') ->
  (exists m, r = (m0 ++ [m], x0))
  \/ (r = (m0, x0 ++ [obj]) /\ is_text obj).
Proof.
  unfold _lookup_generic_scalar, try_except.
  destruct obj as [a|z|s|].
  - intros [= <- <-]. eauto.
  - unfold bind at 1.
    destruct (retrieve_asset_strict z st) as [(a & st1 & ->)|(st1 & ->)].
    + intros [= <- <-]. eauto.
    + done.
  - unfold bind.
    destruct (lookup_symbol_resolve_multiple s d st) as [[a|err] st1].
    + intros [= <- <-]. eauto.
    + destruct (is_SymbolNotFound err); [|done].
      intros [= <- <-]. by right.
  - done.
Qed.

Lemma lookup_generic_loop_inv objs d m0 x0 st m1 x1 st' :
  lookup_generic_loop objs d m0 x0 st = (Ok (m1, x1), st') ->
  exists ms xs,
    m1 = m0 ++ ms /\ x1 = x0 ++ xs
    /\ (length ms + length xs = length objs)%nat
    /\ Forall is_text xs
    /\ xs `sublist_of` objs.
Proof.
  revert m0 x0 st. induction objs as [|obj objs IH]; intros m0 x0 st.
  - intros [= <- <- <-]. exists [], []. by rewrite !app_nil_r.
  - cbn [lookup_generic_loop]. unfold bind at 1.
    destruct (_lookup_generic_scalar obj d m0 x0 st) as [[[m x]|err] st1]
      eqn:E; [|done].
    intros H. apply IH in H as (ms & xs & -> & -> & Hlen & Htext & Hsub).
    apply _lookup_generic_scalar_step in E as [[a [= -> ->]]|[[= -> ->] Hobj]].
    + exists (a :: ms), xs. rewrite <- app_assoc. cbn [app length].
      repeat split; [lia|done|by apply sublist_cons].
    + exists ms, (obj :: xs). rewrite <- app_assoc. cbn [app length].
      repeat split; [lia|by constructor|by apply sublist_skip].
Qed.

(** X23.  What a batch call of [lookup_generic] returns, when it returns.
    Every object of the input is either matched or missing: the two lists
    together are as long as the input.  The missing list holds only text,
    in the order of the input: an integer or an object of another kind is
    never reported as missing (a sid that the store does not know makes the
    call raise, and so does an object that is no AssetConvertible). *)
Theorem lookup_generic_batch objs d st matches missing st' :
  lookup_generic (inr objs) d st = (Ok (inr matches, missing), st') ->
  (length matches + length missing = length objs)%nat
  /\ Forall is_text missing
  /\ missing `sublist_of` objs.
Proof.
  cbn [lookup_generic]. unfold bind.
  destruct (lookup_generic_loop objs d [] [] st) as [[[m x]|err] st1] eqn:E;
    [|done].
  intros [= <- <- <-].
  apply lookup_generic_loop_inv in E as (ms & xs & -> & -> & ? & ? & ?).
  done.
Qed.

Lemma lookup_generic_batch_witness :
  exists matches st',
    lookup_generic (inr [OInt 1; OStr "B"; OInt 2]) (Some DAY) two_equities
    = (Ok (inr matches, [OStr "B"]), st')
    /\ (length matches + length [OStr "B"]
        = length [OInt 1; OStr "B"; OInt 2])%nat
    /\ Forall is_text [OStr "B"]
    /\ [OStr "B"] `sublist_of` [OInt 1; OStr "B"; OInt 2].
Proof.
  eexists _, _. split; [vm_compute; reflexivity|].
  eapply (lookup_generic_batch [OInt 1; OStr "B"; OInt 2] (Some DAY)
            two_equities).
  vm_compute. reflexivity.
Defined.

(** X24.  A scalar call of [lookup_generic] never reports a missing value.
    When it returns, it returns the one match and an empty missing list;
    an object that cannot be resolved makes it raise. *)
Theorem lookup_generic_scalar_never_missing x d st r missing st' :
  lookup_generic (inl x) d st = (Ok (r, missing), st') ->
  missing = [] /\ exists m, r = inl m.
Proof.
  intros H.
  assert (Hrun :
    (let! (matches, missing) := _lookup_generic_scalar x d [] [] in
     match matches with
     | m :: _ => ret (inl m, missing)
     | [] =>
         match x with
         | OInt z => raise (SidNotFound z)
         | OStr s => raise (SymbolNotFound (VStr s))
         | _ => raise TypeError
         end
     end) st = (Ok (r, missing), st')).
  { by destruct x. }
  clear H. unfold bind in Hrun.
  destruct (_lookup_generic_scalar x d [] [] st) as [[[m xs]|err] st1] eqn:E;
    [|done].
  apply _lookup_generic_scalar_step in E as [[a [= -> ->]]|[[= -> ->] Hx]].
  - injection Hrun as <- <- <-. eauto.
  - by destruct x.
Qed.

Lemma lookup_generic_scalar_never_missing_witness :
  [] = ([] : list pyobject)
  /\ exists m,
       (inl (Some (Equity {| a_sid := 1; a_symbol := "A";
                             a_asset_name := "";
                             a_start_date := None;
                             a_end_date := Some (2 * DAY);
                             a_first_traded := None; a_exchange := "" |}))
          : option Asset + list (option Asset))
       = inl m.
Proof.
  eapply (lookup_generic_scalar_never_missing (OInt 1) None two_equities).
  vm_compute. reflexivity.
Defined.

(* ===================================================================== *)
(** ** What ingestion does not reach *)
(* ===================================================================== *)

Lemma asset_type_by_sid_records s st t st' :
  asset_type_by_sid s st = (Ok t, st') ->
  asset_type_by_sid_memo st' !! s = Some t
  /\ equity_for_id_memo st' = equity_for_id_memo st
  /\ futures_contract_for_id_memo st' = futures_contract_for_id_memo st.
Proof.
  unfold asset_type_by_sid, lru_cache.
  destruct (asset_type_by_sid_memo st !! s) as [v|] eqn:E.
  - by intros [= <- <-].
  - rewrite asset_type_by_sid_body_spec. intros [= <- <-].
    cbn [asset_type_by_sid_memo set_asset_type_by_sid_memo
         equity_for_id_memo futures_contract_for_id_memo].
    by rewrite lookup_insert_eq.
Qed.

Lemma equity_for_id_records s st r st' :
  equity_for_id s st = (Ok r, st') ->
  equity_for_id_memo st' !! s = Some r
  /\ asset_type_by_sid_memo st' = asset_type_by_sid_memo st.
Proof.
  unfold equity_for_id, lru_cache.
  destruct (equity_for_id_memo st !! s) as [v|] eqn:E.
  - by intros [= <- <-].
  - rewrite equity_for_id_body_spec. intros [= <- <-].
    cbn [asset_type_by_sid_memo set_equity_for_id_memo equity_for_id_memo].
    by rewrite lookup_insert_eq.
Qed.

Lemma futures_contract_for_id_records s st r st' :
  futures_contract_for_id s st = (Ok r, st') ->
  futures_contract_for_id_memo st' !! s = Some r
  /\ asset_type_by_sid_memo st' = asset_type_by_sid_memo st.
Proof.
  unfold futures_contract_for_id, lru_cache.
  destruct (futures_contract_for_id_memo st !! s) as [v|] eqn:E.
  - by intros [= <- <-].
  - rewrite futures_contract_for_id_body_spec. intros [= <- <-].
    cbn [asset_type_by_sid_memo set_futures_contract_for_id_memo
         futures_contract_for_id_memo].
    by rewrite lookup_insert_eq.
Qed.

(** The three ways of the dispatch of [retrieve_asset] on the type. *)
Lemma retrieve_asset_dispatch (t : option string) :
  t = Some "equity" \/ t = Some "future"
  \/ forall z,
       match t with
       | Some "equity" => equity_for_id z
       | Some "future" => futures_contract_for_id z
       | _ => ret None
       end = ret None.
Proof.
  destruct t as [s|]; [|by right; right].
  destruct (decide (s = "equity")) as [->|Hne]; [by left|].
  destruct (decide (s = "future")) as [->|Hnf]; [by right; left|].
  right; right. intros z. repeat case_match; try done; by subst.
Qed.

Lemma retrieve_asset_recorded z st a :
  (exists t,
      asset_type_by_sid_memo st !! z = Some (Some t)
      /\ ((t = "equity" /\ equity_for_id_memo st !! z = Some (Some a))
          \/ (t = "future"
              /\ futures_contract_for_id_memo st !! z = Some (Some a)))) ->
  forall default_none,
    retrieve_asset (inr z) default_none st = (Ok (Some a), st).
Proof.
  intros (t & Ht & [[-> He]|[-> Hf]]) default_none;
    unfold retrieve_asset, bind, asset_type_by_sid, lru_cache; rewrite Ht.
  - unfold equity_for_id, lru_cache. by rewrite He.
  - unfold futures_contract_for_id, lru_cache. by rewrite Hf.
Qed.

Lemma retrieve_asset_records z default_none st a st1 :
  retrieve_asset (inr z) default_none st = (Ok (Some a), st1) ->
  exists t,
    asset_type_by_sid_memo st1 !! z = Some (Some t)
    /\ ((t = "equity" /\ equity_for_id_memo st1 !! z = Some (Some a))
        \/ (t = "future"
            /\ futures_contract_for_id_memo st1 !! z = Some (Some a))).
Proof.
  unfold retrieve_asset, bind.
  destruct (asset_type_by_sid z st) as [[t|err] sta] eqn:Et; [|done].
  apply asset_type_by_sid_records in Et as (Ht & _ & _).
  destruct (retrieve_asset_dispatch t) as [->|[->|Hnone]].
  - destruct (equity_for_id z sta) as [[r|err] stb] eqn:Ee; [|done].
    apply equity_for_id_records in Ee as (He & Hsame).
    destruct r as [a'|]; [|by destruct default_none].
    intros [= <- <-]. exists "equity". rewrite Hsame. eauto.
  - destruct (futures_contract_for_id z sta) as [[r|err] stb] eqn:Ef;
      [|done].
    apply futures_contract_for_id_records in Ef as (Hf & Hsame).
    destruct r as [a'|]; [|by destruct default_none].
    intros [= <- <-]. exists "future". rewrite Hsame. eauto.
  - rewrite Hnone. unfold ret. by destruct default_none.
Qed.

(** X25.  An asset once retrieved is frozen.  When [retrieve_asset] has
    returned an asset for a sid, it returns that same asset for the sid
    after any sequence of ingestion calls, and changes nothing: metadata
    ingested later for the sid, though written to the store, is not seen,
    because the answers of the three per-sid fetches are memoized and
    ingestion does not reset them. *)
Theorem retrieved_asset_is_frozen z default_none st a st1 calls default_none' :
  retrieve_asset (inr z) default_none st = (Ok (Some a), st1) ->
  retrieve_asset (inr z) default_none' (ingest calls st1)
  = (Ok (Some a), ingest calls st1).
Proof.
  intros H. apply retrieve_asset_records in H.
  apply retrieve_asset_recorded.
  destruct (ingest_memos calls st1) as (-> & -> & ->). done.
Qed.

Lemma retrieved_asset_is_frozen_witness :
  retrieve_asset (inr 2) true
    (ingest [(IdInt 2, [("symbol", VStr "Z")])]
       (retrieve_asset (inr 2) false two_equities).2)
  = (Ok (Some (Equity {| a_sid := 2; a_symbol := "A"; a_asset_name := "";
                         a_start_date := Some DAY;
                         a_end_date := Some (3 * DAY);
                         a_first_traded := None; a_exchange := "" |})),
     ingest [(IdInt 2, [("symbol", VStr "Z")])]
       (retrieve_asset (inr 2) false two_equities).2).
Proof.
  apply (retrieved_asset_is_frozen 2 false two_equities).
  vm_compute. reflexivity.
Defined.

Lemma ingest_candidates calls st :
  sym_cache (ingest calls st) = sym_cache st
  /\ fuzzy_match (ingest calls st) = fuzzy_match st.
Proof.
  revert st. induction calls as [|[i kw] calls IH]; intros st; [done|].
  rewrite ingest_cons. destruct (IH (insert_metadata i kw st).2) as (-> & ->).
  destruct (insert_metadata_memos i kw st) as (_ & _ & _ & -> & -> & _).
  done.
Qed.

Lemma fuzzy_search_empty py3 d symbols :
  fuzzy_search py3 ∅ d symbols = Ok None.
Proof.
  induction symbols as [|s symbols IH]; [done|].
  cbn [fuzzy_search]. by rewrite lookup_empty.
Qed.

(** X26.  Fuzzy lookup finds nothing on a finder that the module has
    filled.  No statement of the module writes to [sym_cache], the only
    place where fuzzy lookup searches: while it is empty and no fuzzy match
    is recorded other than [None] (as on a new finder), a lookup with a
    fuzzy string returns [None] after any sequence of ingestion calls,
    whatever the store holds, and leaves the two caches in that state. *)
Theorem fuzzy_lookup_finds_nothing py3 st calls symbol d fuzzy :
  sym_cache st = ∅ ->
  (forall k v, fuzzy_match st !! k = Some v -> v = None) ->
  fuzzy <> "" ->
  (lookup_symbol py3 symbol d (Some fuzzy) (ingest calls st)).1 = Ok None
  /\ sym_cache
       (lookup_symbol py3 symbol d (Some fuzzy) (ingest calls st)).2 = ∅
  /\ (forall k v,
        fuzzy_match
          (lookup_symbol py3 symbol d (Some fuzzy) (ingest calls st)).2
          !! k = Some v ->
        v = None).
Proof.
  intros Hsym Hfuzzy Hne.
  destruct (ingest_candidates calls st) as (Hs & Hf).
  rewrite Hsym in Hs. rewrite <- Hf in Hfuzzy.
  destruct fuzzy as [|c fuzzy]; [done|]. unfold lookup_symbol.
  destruct (fuzzy_match (ingest calls st) !! _) as [cached|] eqn:E.
  - cbn [fst snd]. apply Hfuzzy in E as ->. done.
  - rewrite Hs, fuzzy_search_empty.
    cbn [fst snd sym_cache fuzzy_match set_fuzzy_match].
    split; [done|]. split; [done|].
    intros k v. destruct (decide (k = (upper symbol, String c fuzzy,
                                       normalize_date d))) as [->|Hk].
    + rewrite lookup_insert_eq. by intros [= <-].
    + rewrite lookup_insert_ne by done. apply Hfuzzy.
Qed.

Lemma fuzzy_lookup_finds_nothing_witness :
  (lookup_symbol true "CMCSA" DAY (Some "_")
     (ingest [(IdInt 1, [("symbol", VStr "CMCS_A");
                         ("start_date", VInt 0);
                         ("end_date", VInt (9 * DAY))])]
        (new_AssetFinder true))).1 = Ok None
  /\ sym_cache
       (lookup_symbol true "CMCSA" DAY (Some "_")
          (ingest [(IdInt 1, [("symbol", VStr "CMCS_A");
                              ("start_date", VInt 0);
                              ("end_date", VInt (9 * DAY))])]
             (new_AssetFinder true))).2 = ∅
  /\ (forall k v,
        fuzzy_match
          (lookup_symbol true "CMCSA" DAY (Some "_")
             (ingest [(IdInt 1, [("symbol", VStr "CMCS_A");
                                 ("start_date", VInt 0);
                                 ("end_date", VInt (9 * DAY))])]
                (new_AssetFinder true))).2 !! k = Some v ->
        v = None).
Proof.
  apply (fuzzy_lookup_finds_nothing true (new_AssetFinder true)
           [(IdInt 1, [("symbol", VStr "CMCS_A"); ("start_date", VInt 0);
                       ("end_date", VInt (9 * DAY))])]
           "CMCSA" DAY "_").
  - reflexivity.
  - intros k v. cbn [fuzzy_match new_AssetFinder]. by rewrite lookup_empty.
  - discriminate.
Defined.
